(** * GammaLPvsSpot: the weekly sampler of [weETH-USDC.py]

    A shallow embedding of the script: the part of the Python runtime it
    relies on (dynamic values, truthiness, [float()], [int()], [round()],
    true division, [math.sqrt]), its five functions, and the properties of
    the sampling loop.

    Python floats are IEEE 754 binary64 numbers with round-to-nearest-even,
    which is what Rocq's primitive [float] is; Python ints are unbounded,
    hence [Z]. *)

From Stdlib Require Import ZArith NArith List String Ascii Bool Lia Floats Sorted.
From Stdlib Require Import Reals Lra.
Import ListNotations.

#[local] Set Warnings "-register-all".
Local Open Scope Z_scope.

(** ** The Python runtime the script uses *)

Module Py.

(** The exceptions that can reach the script.  [RequestException] stands for
    whatever [requests.post] raises, [JSONDecodeError] for a body that
    [response.json()] cannot decode. *)
Inductive exn : Set :=
| TypeError
| ValueError
| OverflowError
| ZeroDivisionError
| KeyError
| IndexError
| AttributeError
| RequestException
| JSONDecodeError.

(** What evaluating an expression gives: a value, or a raised exception. *)
Inductive result (A : Type) : Type :=
| Ok (a : A)
| Raise (e : exn).
Arguments Ok {A} a.
Arguments Raise {A} e.

Definition rbind {A B} (r : result A) (k : A -> result B) : result B :=
  match r with
  | Ok a => k a
  | Raise e => Raise e
  end.

(** The values [json.loads] builds, which are all the dynamic values the
    script handles: [None], [bool], [int], [float], [str], [list] and a
    [dict] with string keys (an association list read at its first match). *)
Inductive value : Type :=
| PNone
| PBool (b : bool)
| PInt (z : Z)
| PFloat (f : float)
| PStr (s : string)
| PList (l : list value)
| PDict (d : list (string * value)).

(** [bool(v)], as [if v:] and [not v] use it. *)
Definition truthy (v : value) : bool :=
  match v with
  | PNone => false
  | PBool b => b
  | PInt z => negb (z =? 0)
  | PFloat f => negb (f =? 0)%float
  | PStr s => negb (String.eqb s EmptyString)
  | PList l => match l with [] => false | _ :: _ => true end
  | PDict d => match d with [] => false | _ :: _ => true end
  end.

Fixpoint lookup (k : string) (d : list (string * value)) : option value :=
  match d with
  | [] => None
  | (k', v) :: d' => if String.eqb k k' then Some v else lookup k d'
  end.

(** [v[k]] for a string key [k]. *)
Definition getitem (v : value) (k : string) : result value :=
  match v with
  | PDict d => match lookup k d with Some x => Ok x | None => Raise KeyError end
  | _ => Raise TypeError
  end.

(** [v[0]]. *)
Definition getitem0 (v : value) : result value :=
  match v with
  | PList (x :: _) => Ok x
  | PList [] => Raise IndexError
  | PStr (String c _) => Ok (PStr (String c EmptyString))
  | PStr EmptyString => Raise IndexError
  | PDict _ => Raise KeyError
  | _ => Raise TypeError
  end.

(** [v.get(k, default)]: only a dict has the method. *)
Definition get (v : value) (k : string) (default : value) : result value :=
  match v with
  | PDict d => Ok (match lookup k d with Some x => x | None => default end)
  | _ => Raise AttributeError
  end.

Fixpoint is_prefix (p s : string) : bool :=
  match p, s with
  | EmptyString, _ => true
  | String a p', String b s' => Ascii.eqb a b && is_prefix p' s'
  | String _ _, EmptyString => false
  end.

Fixpoint is_substring (p s : string) : bool :=
  is_prefix p s ||
  match s with
  | EmptyString => false
  | String _ s' => is_substring p s'
  end.

(** [k in v] for a string [k]: a key of a dict, an element of a list, a
    substring of a string. *)
Definition contains (k : string) (v : value) : result bool :=
  match v with
  | PDict d => Ok (match lookup k d with Some _ => true | None => false end)
  | PList l =>
      Ok (existsb (fun x => match x with PStr s => String.eqb k s | _ => false end) l)
  | PStr s => Ok (is_substring k s)
  | _ => Raise TypeError
  end.

(** *** Numbers *)

(** The binary64 number nearest to [n / d] (ties to even), [n] and [d]
    positive: the quotient is taken with at least 66 significant bits and a
    sticky bit, then rounded once. *)
Definition SF_of_ratio (neg : bool) (n d : positive) : spec_float :=
  let k := Z.max 0 (66 + Z.log2 (Zpos d) - Z.log2 (Zpos n)) in
  let (q, r) := Z.div_eucl (Z.shiftl (Zpos n) k) (Zpos d) in
  let m := 2 * q + (if r =? 0 then 0 else 1) in
  binary_normalize prec emax (if neg then - m else m) (- k - 1) false.

Definition float_of_ratio (neg : bool) (n : Z) (d : positive) : float :=
  match n with
  | Zpos p => SF2Prim (SF_of_ratio neg p d)
  | Zneg p => SF2Prim (SF_of_ratio (negb neg) p d)
  | Z0 => if neg then neg_zero else zero
  end.

(** [float(z)] for an int: correctly rounded, [OverflowError] when the
    rounded magnitude would be [2^1024] or more. *)
Definition float_of_int (z : Z) : result float :=
  match binary_normalize prec emax z 0 false with
  | S754_infinity _ => Raise OverflowError
  | sf => Ok (SF2Prim sf)
  end.

(** [float / float]: Python raises where IEEE 754 would give an infinity or
    a NaN for a zero divisor. *)
Definition truediv (x y : float) : result float :=
  if (y =? 0)%float then Raise ZeroDivisionError else Ok (x / y)%float.

(** [math.sqrt]: a NaN result from an argument that is not NaN is a
    "math domain error". *)
Definition math_sqrt (x : float) : result float :=
  let r := PrimFloat.sqrt x in
  if is_nan r && negb (is_nan x) then Raise ValueError else Ok r.

(** [round(x, ndigits)] for a float and [ndigits >= 0]: the exact binary
    value is rounded half-even to [ndigits] decimals and the decimal result
    is converted back to the nearest float (CPython's [double_round]). *)
Definition round_half_even (num den : Z) : Z :=
  let q := num / den in
  match 2 * (num mod den) ?= den with
  | Lt => q
  | Gt => q + 1
  | Eq => if Z.even q then q else q + 1
  end.

Definition round (x : float) (ndigits : N) : float :=
  match Prim2SF x with
  | S754_finite s m e =>
      if (323 <? ndigits)%N then x
      else
        let p := 10 ^ Z.of_N ndigits in
        let y :=
          if 0 <=? e then Zpos m * 2 ^ e * p
          else round_half_even (Zpos m * p) (2 ^ (- e)) in
        float_of_ratio s y (Z.to_pos p)
  | _ => x
  end.

(** *** Strings to numbers *)

Definition code (c : ascii) : Z := Z.of_N (N_of_ascii c).

Definition is_digit (c : ascii) : bool := (48 <=? code c) && (code c <=? 57).

(** The white space [float()] and [int()] skip around the number in an
    ASCII string: tab, line feed, vertical tab, form feed, carriage return
    and space. *)
Definition is_space (c : ascii) : bool :=
  ((9 <=? code c) && (code c <=? 13)) || (code c =? 32).

Definition lower (c : ascii) : ascii :=
  if (65 <=? code c) && (code c <=? 90) then ascii_of_N (N_of_ascii c + 32) else c.

Fixpoint drop_spaces (cs : list ascii) : list ascii :=
  match cs with
  | c :: cs' => if is_space c then drop_spaces cs' else cs
  | [] => []
  end.

Definition strip (cs : list ascii) : list ascii :=
  rev (drop_spaces (rev (drop_spaces cs))).

Definition is_underscore (c : ascii) : bool := code c =? 95.

(** An underscore is accepted between two digits only, and dropped. *)
Fixpoint remove_underscores (prev : option ascii) (cs : list ascii)
  : option (list ascii) :=
  match cs with
  | [] =>
      match prev with
      | Some p => if is_underscore p then None else Some []
      | None => Some []
      end
  | c :: cs' =>
      if is_underscore c then
        match prev with
        | Some p => if is_digit p then remove_underscores (Some c) cs' else None
        | None => None
        end
      else
        let after_underscore :=
          match prev with Some p => is_underscore p | None => false end in
        if after_underscore && negb (is_digit c) then None
        else option_map (cons c) (remove_underscores (Some c) cs')
  end.

Definition split_sign (cs : list ascii) : bool * list ascii :=
  match cs with
  | c :: cs' =>
      if code c =? 45 then (true, cs')
      else if code c =? 43 then (false, cs')
      else (false, cs)
  | [] => (false, [])
  end.

Fixpoint span_digits (cs : list ascii) : list ascii * list ascii :=
  match cs with
  | c :: cs' =>
      if is_digit c then let (ds, r) := span_digits cs' in (c :: ds, r)
      else ([], cs)
  | [] => ([], [])
  end.

Definition digits_value (ds : list ascii) : Z :=
  fold_left (fun acc c => 10 * acc + (code c - 48)) ds 0.

(** [digits [. digits] [(e|E) [sign] digits]] with a digit before or after
    the point: the mantissa as an integer and the power of ten. *)
Definition parse_decimal (cs : list ascii) : option (Z * Z) :=
  let (ip, r1) := span_digits cs in
  let (fp, r2) :=
    match r1 with
    | c :: r => if code c =? 46 then span_digits r else ([], r1)
    | [] => ([], [])
    end in
  match ip ++ fp with
  | [] => None
  | _ :: _ =>
      let m := digits_value (ip ++ fp) in
      let shift := - Z.of_nat (List.length fp) in
      match r2 with
      | [] => Some (m, shift)
      | c :: r =>
          if (code c =? 101) || (code c =? 69) then
            let (neg, r') := split_sign r in
            match span_digits r' with
            | ((_ :: _) as ed, []) =>
                let e := digits_value ed in
                Some (m, shift + (if neg then - e else e))
            | _ => None
            end
          else None
      end
  end.

Definition float_of_decimal (neg : bool) (m e : Z) : float :=
  if 0 <=? e then float_of_ratio neg (m * 10 ^ e) 1
  else float_of_ratio neg m (Z.to_pos (10 ^ (- e))).

(** [float()] of a string of ASCII characters; the decimal digits and the
    spaces of other scripts, which [float()] reads too, are not modelled. *)
Definition parse_float (s : string) : option float :=
  match remove_underscores None (strip (list_ascii_of_string s)) with
  | None => None
  | Some cs =>
      let (neg, body) := split_sign cs in
      let word := string_of_list_ascii (map lower body) in
      if String.eqb word "inf" || String.eqb word "infinity" then
        Some (if neg then neg_infinity else infinity)
      else if String.eqb word "nan" then Some nan
      else
        match parse_decimal body with
        | Some (m, e) => Some (float_of_decimal neg m e)
        | None => None
        end
  end.

(** [int()] of a string of ASCII characters.  More than 4300 digits are
    refused, with the [ValueError] of a string that is no number. *)
Definition parse_int (s : string) : option Z :=
  match remove_underscores None (strip (list_ascii_of_string s)) with
  | None => None
  | Some cs =>
      let (neg, body) := split_sign cs in
      match span_digits body with
      | ((_ :: _) as ds, []) =>
          if (4300 <? List.length ds)%nat then None
          else let n := digits_value ds in Some (if neg then - n else n)
      | _ => None
      end
  end.

(** [float(v)]. *)
Definition float_ (v : value) : result float :=
  match v with
  | PNone => Raise TypeError
  | PBool b => Ok (if b then one else zero)
  | PInt z => float_of_int z
  | PFloat f => Ok f
  | PStr s => match parse_float s with Some f => Ok f | None => Raise ValueError end
  | PList _ | PDict _ => Raise TypeError
  end.

(** The integer part of a finite float, towards zero. *)
Definition trunc (x : float) : Z :=
  match Prim2SF x with
  | S754_finite s m e =>
      let a := if 0 <=? e then Zpos m * 2 ^ e else Zpos m / 2 ^ (- e) in
      if s then - a else a
  | _ => 0
  end.

(** [int(v)]. *)
Definition int_ (v : value) : result Z :=
  match v with
  | PNone => Raise TypeError
  | PBool b => Ok (if b then 1 else 0)
  | PInt z => Ok z
  | PFloat f =>
      if is_nan f then Raise ValueError
      else if is_infinity f then Raise OverflowError
      else Ok (trunc f)
  | PStr s => match parse_int s with Some z => Ok z | None => Raise ValueError end
  | PList _ | PDict _ => Raise TypeError
  end.

End Py.

Import Py.

(** ** The world outside the process *)

(** What [requests.post] returns: the status, the body as text and what
    [response.json()] gives for it. *)
Record response : Type := {
  status_code : Z;
  text : string;
  json : result value
}.

(** The GraphQL document of a request, by the values interpolated in it. *)
Inductive query : Type :=
| BlocksQuery (timestamp : Z)
| GammaPoolQuery (pool_id : string) (block : value).

Record request : Type := {
  url : string;
  document : query
}.

(** The dict [main] hands to [save_to_csv], in field order.  [utcTimestamp]
    is the string [strftime] makes of the cursor; the cursor itself stands
    for it. *)
Record csv_row : Type := {
  utcTimestamp : Z;
  blockNumber : value;
  totalInvariant : float;
  totalSupply : float;
  lastPrice : float;
  totalLPReturnPercent : option float;
  spotReturnPercent : option float
}.

Inductive csv_line : Type :=
| Header
| Row (r : csv_row).

(** One constructor per [print] of the script, with the values it formats. *)
Inductive message : Type :=
| ErrorNormalizing (v : value)
| ErrorQueryingBlockSubgraph (status : Z) (body : string)
| ErrorQueryingSubgraph (status : Z) (body : string)
| GraphQLErrors (errors : value)
| NoBlocksFound (timestamp : Z)
| FoundBlock (number : value) (timestamp : Z)
| NoBlockFound (timestamp : Z)
| DataRetrieved (block : value)
| NormalizedValuesAt (block : value)
| LpInvariantIs (x : option float)
| LpBorrowedInvariantIs (x : option float)
| LastPriceIs (x : option float)
| TotalSupplyIs (x : option float)
| RowWritten (row : csv_row)
| NoDataReturned (block : value).

(** The network answers the [n]-th request of the run with [network n]
    (a response, or an exception of [requests.post]); [sent] is what has
    been asked so far, [stdout] what has been printed, [csv] the lines of
    [weETH-USDC_Data.csv] when the file exists. *)
Record world : Type := {
  network : nat -> result response;
  sent : list request;
  stdout : list message;
  csv : option (list csv_line)
}.

(** A statement: it reads and changes the world and ends with a value or
    with an exception. *)
Definition M (A : Type) : Type := world -> result A * world.

Definition ret {A} (a : A) : M A := fun w => (Ok a, w).

Definition bind {A B} (c : M A) (k : A -> M B) : M B :=
  fun w =>
    match c w with
    | (Ok a, w') => k a w'
    | (Raise e, w') => (Raise e, w')
    end.

Definition lift {A} (r : result A) : M A := fun w => (r, w).

Declare Scope py_scope.
Delimit Scope py_scope with py.
Notation "x <- c ;; k" := (bind c (fun x => k))
  (at level 61, c at next level, right associativity) : py_scope.
Notation "c ;; k" := (bind c (fun _ => k))
  (at level 61, right associativity) : py_scope.
Notation "x <~ r ;; k" := (rbind r (fun x => k))
  (at level 61, r at next level, right associativity) : py_scope.
Local Open Scope py_scope.

(** [print]: the line is appended to the output.  The text is taken to be
    one the codec of [stdout] can encode, and [stdout] to be open: the
    exceptions of a [print] that cannot write are not modelled. *)
Definition print (m : message) : M unit :=
  fun w =>
    (Ok tt,
     {| network := network w; sent := sent w;
        stdout := stdout w ++ [m]; csv := csv w |}).

Definition requests_post (u : string) (q : query) : M response :=
  fun w =>
    (network w (List.length (sent w)),
     {| network := network w;
        sent := sent w ++ [{| url := u; document := q |}];
        stdout := stdout w; csv := csv w |}).

(** ** The script *)

Definition normalize_value (v : value) (decimals : N) : M (option float) :=
  match (x <~ float_ v ;;
         p <~ float_of_int (10 ^ Z.of_N decimals) ;;
         truediv x p) with
  | Ok r => ret (Some r)
  | Raise TypeError | Raise ValueError =>
      print (ErrorNormalizing v) ;;
      ret None
  | Raise e => lift (Raise e)
  end.

Definition get_block_from_timestamp (timestamp : Z) (block_subgraph_url : string)
  : M value :=
  response <- requests_post block_subgraph_url (BlocksQuery timestamp) ;;
  if negb (status_code response =? 200) then
    print (ErrorQueryingBlockSubgraph (status_code response) (text response)) ;;
    ret PNone
  else
    data <- lift (json response) ;;
    has_errors <- lift (contains "errors" data) ;;
    if (has_errors : bool) then
      errors <- lift (getitem data "errors") ;;
      print (GraphQLErrors errors) ;;
      ret PNone
    else
      d <- lift (get data "data" (PDict [])) ;;
      blocks <- lift (get d "blocks" (PList [])) ;;
      if negb (truthy blocks) then
        print (NoBlocksFound timestamp) ;;
        ret PNone
      else
        block <- lift (getitem0 blocks) ;;
        number <- lift (getitem block "number") ;;
        print (FoundBlock number timestamp) ;;
        lift (getitem block "number").

Definition query_pool_at_block (graph_url pool_id : string) (block : value)
  : M value :=
  response <- requests_post graph_url (GammaPoolQuery pool_id block) ;;
  if negb (status_code response =? 200) then
    print (ErrorQueryingSubgraph (status_code response) (text response)) ;;
    ret PNone
  else
    data <- lift (json response) ;;
    has_errors <- lift (contains "errors" data) ;;
    if (has_errors : bool) then
      errors <- lift (getitem data "errors") ;;
      print (GraphQLErrors errors) ;;
      ret PNone
    else
      d <- lift (get data "data" (PDict [])) ;;
      lift (get d "gammaPool" PNone).

(** The file is [weETH-USDC_Data.csv], the only name [main] passes: the
    header goes first into a file that did not exist.  The file system is
    taken to do what it is asked: the errors of [open] other than the
    missing file, and a write that fails, are not modelled. *)
Definition save_to_csv (data : csv_row) : M unit :=
  fun w =>
    let file_exists := match csv w with Some _ => true | None => false end in
    let old := match csv w with Some ls => ls | None => [] end in
    (Ok tt,
     {| network := network w; sent := sent w; stdout := stdout w;
        csv := Some (old ++ (if file_exists then [] else [Header]) ++ [Row data]) |}).

(** *** [main] *)

Definition arb_subgraph_url : string :=
  "https://api.goldsky.com/api/public/project_clut9lukx80ry01xb5ngf1zmj/subgraphs/gammaswap-v1-arbitrum/prod/gn".
Definition block_subgraph_url : string :=
  "https://gateway.thegraph.com/api/[your_api_key]/subgraphs/id/JBnWrv9pvBvSi2pUZzba3VweGBTde6s44QvsDABP47Gt".
Definition pool_id : string := "0xd63c125b169bc5655f9fdefb47c7d33e622416c7".

(** One week, [7 * 86400] seconds. *)
Definition week : Z := 7 * 86400.

(** The dict [pool_creation_data]; a field holds what [normalize_value]
    returned, which may be [None]. *)
Record baseline : Type := {
  b_totalInvariant : float;
  b_totalSupply : option float;
  b_lastPrice : option float
}.

(** The variables of [main] that live across iterations. *)
Record locals : Type := {
  current_timestamp : Z;
  pool_creation_data : option baseline
}.

(** The four values normalized from one [pool_data], each a float or [None]. *)
Record sample : Type := {
  lp_invariant : option float;
  lp_borrowed_invariant : option float;
  last_price : option float;
  total_supply : option float
}.

(** [current_timestamp += 7 * 86400]. *)
Definition advance (l : locals) : locals :=
  {| current_timestamp := current_timestamp l + week;
     pool_creation_data := pool_creation_data l |}.

(** [x + y] and [x / y] on values that are floats or [None]. *)
Definition add_ (x y : option float) : result float :=
  match x, y with
  | Some a, Some b => Ok (a + b)%float
  | _, _ => Raise TypeError
  end.

Definition truediv_ (x y : option float) : result float :=
  match x, y with
  | Some a, Some b => truediv a b
  | _, _ => Raise TypeError
  end.

(** [round(x, 6)] on a float or [None]. *)
Definition round6_ (x : option float) : result float :=
  match x with
  | Some a => Ok (round a 6)
  | None => Raise TypeError
  end.

(** [datetime.utcfromtimestamp] accepts the years 1 to 9999.  Out of them
    it raises: [ValueError] as long as the platform's [gmtime] can hold the
    year; the [OSError] and the [OverflowError] of timestamps further out
    still are not told apart from it. *)
Definition utcfromtimestamp (t : Z) : result Z :=
  if (-62135596800 <=? t) && (t <=? 253402300799) then Ok t else Raise ValueError.

(** Lines 113-118: the token decimals are read and converted (and not used),
    then the four fields are normalized with the constants 12, 12, 6, 12. *)
Definition read_sample (pool_data : value) : M sample :=
  token0 <- lift (getitem pool_data "token0") ;;
  decimals0 <- lift (getitem token0 "decimals") ;;
  token0_decimals <- lift (int_ decimals0) ;;
  token1 <- lift (getitem pool_data "token1") ;;
  decimals1 <- lift (getitem token1 "decimals") ;;
  token1_decimals <- lift (int_ decimals1) ;;
  raw_lp_invariant <- lift (getitem pool_data "lpInvariant") ;;
  lp_invariant <- normalize_value raw_lp_invariant 12 ;;
  raw_lp_borrowed_invariant <- lift (getitem pool_data "lpBorrowedInvariant") ;;
  lp_borrowed_invariant <- normalize_value raw_lp_borrowed_invariant 12 ;;
  raw_last_price <- lift (getitem pool_data "lastPrice") ;;
  last_price <- normalize_value raw_last_price 6 ;;
  raw_total_supply <- lift (getitem pool_data "totalSupply") ;;
  total_supply <- normalize_value raw_total_supply 12 ;;
  ret {| lp_invariant := lp_invariant;
         lp_borrowed_invariant := lp_borrowed_invariant;
         last_price := last_price;
         total_supply := total_supply |}.

(** Lines 136-140, the value of [total_lp_return_percent]. *)
Definition total_lp_return_percent (total_invariant : float) (s : sample)
  (b : baseline) : result float :=
  invariant_growth <~ truediv total_invariant (b_totalInvariant b) ;;
  supply_growth <~ truediv_ (total_supply s) (b_totalSupply b) ;;
  per_share <~ truediv invariant_growth supply_growth ;;
  price_ratio <~ truediv_ (last_price s) (b_lastPrice b) ;;
  root <~ math_sqrt price_ratio ;;
  Ok (per_share * root - 1)%float.

(** Line 144, the value of [spot_return_percent]. *)
Definition spot_return_percent (s : sample) (b : baseline) : result float :=
  price_ratio <~ truediv_ (last_price s) (b_lastPrice b) ;;
  weighted <~ truediv (price_ratio * 0.5 + 0.5)%float 1 ;;
  Ok (weighted - 1)%float.

(** Lines 120-125: the baseline is taken from this sample unless there is
    one already. *)
Definition capture (l : locals) (s : sample) : result baseline :=
  match pool_creation_data l with
  | None =>
      total <~ add_ (lp_invariant s) (lp_borrowed_invariant s) ;;
      Ok {| b_totalInvariant := total;
            b_totalSupply := total_supply s;
            b_lastPrice := last_price s |}
  | Some b => Ok b
  end.

(** Lines 120-158: baseline, metrics, the row and its write.  The dict
    [pool_creation_data] has three keys from line 125 on, so both
    [if pool_creation_data:] tests succeed. *)
Definition derive_row (l : locals) (block_number : value) (s : sample)
  : M locals :=
  b <- lift (capture l s) ;;
  print (NormalizedValuesAt block_number) ;;
  print (LpInvariantIs (lp_invariant s)) ;;
  print (LpBorrowedInvariantIs (lp_borrowed_invariant s)) ;;
  print (LastPriceIs (last_price s)) ;;
  print (TotalSupplyIs (total_supply s)) ;;
  total_invariant <- lift (add_ (lp_invariant s) (lp_borrowed_invariant s)) ;;
  lp_return <- lift (total_lp_return_percent total_invariant s b) ;;
  spot_return <- lift (spot_return_percent s b) ;;
  utc_timestamp <- lift (utcfromtimestamp (current_timestamp l)) ;;
  rounded_supply <- lift (round6_ (total_supply s)) ;;
  rounded_price <- lift (round6_ (last_price s)) ;;
  let row :=
    {| utcTimestamp := utc_timestamp;
       blockNumber := block_number;
       totalInvariant := round total_invariant 6;
       totalSupply := rounded_supply;
       lastPrice := rounded_price;
       totalLPReturnPercent := Some (round lp_return 6);
       spotReturnPercent := Some (round spot_return 6) |} in
  save_to_csv row ;;
  print (RowWritten row) ;;
  ret {| current_timestamp := current_timestamp l;
         pool_creation_data := Some b |}.

(** The body of the [while] loop, lines 101-165. *)
Definition loop_body (l : locals) : M locals :=
  block_number <- get_block_from_timestamp (current_timestamp l) block_subgraph_url ;;
  if negb (truthy block_number) then
    print (NoBlockFound (current_timestamp l)) ;;
    ret (advance l)
  else
    pool_data <- query_pool_at_block arb_subgraph_url pool_id block_number ;;
    if truthy pool_data then
      print (DataRetrieved block_number) ;;
      s <- read_sample pool_data ;;
      l' <- derive_row l block_number s ;;
      ret (advance l')
    else
      print (NoDataReturned block_number) ;;
      ret (advance l).

(** [while current_timestamp <= today_timestamp:], unrolled at most [fuel]
    times; [None] when the fuel runs out before the test fails. *)
Fixpoint while_loop (fuel : nat) (today_timestamp : Z) (l : locals)
  : M (option locals) :=
  match fuel with
  | O => ret None
  | S fuel' =>
      if current_timestamp l <=? today_timestamp then
        l' <- loop_body l ;;
        while_loop fuel' today_timestamp l'
      else ret (Some l)
  end.

(** [main]: the two timestamps come from the clock and the time zone of the
    machine, so they are arguments here. *)
Definition main (fuel : nat) (start_timestamp today_timestamp : Z)
  : M (option locals) :=
  while_loop fuel today_timestamp
    {| current_timestamp := start_timestamp; pool_creation_data := None |}.

(** ** Observing a run *)

(** The iterations a run from [start] to [today] makes when nothing raises. *)
Definition iterations_needed (start_timestamp today_timestamp : Z) : nat :=
  if start_timestamp <=? today_timestamp
  then Z.to_nat ((today_timestamp - start_timestamp) / week + 1)
  else O.

(** [n] iterations in a row, without the loop test. *)
Fixpoint iterate (n : nat) (l : locals) : M locals :=
  match n with
  | O => ret l
  | S n' => l' <- loop_body l ;; iterate n' l'
  end.

Definition is_blocks_query (r : request) : bool :=
  match document r with
  | BlocksQuery _ => true
  | GammaPoolQuery _ _ => false
  end.

(** The iterations a world has seen: each one starts with the one request to
    the block subgraph. *)
Definition iterations (w : world) : nat :=
  List.length (filter is_blocks_query (sent w)).

(** The requests sent to the pool subgraph. *)
Definition pool_queries (w : world) : list request :=
  filter (fun r => negb (is_blocks_query r)) (sent w).

(** The rows of the file. *)
Definition rows (w : world) : list csv_row :=
  match csv w with
  | Some ls =>
      flat_map (fun ln => match ln with Row r => [r] | Header => [] end) ls
  | None => []
  end.

(** The block number and the sample an iteration started from [l] in [w]
    gets to normalize: [None] when it skips (no block, no pool data) or
    raises before line 118 is done. *)
Definition step_sample (l : locals) (w : world) : option (value * sample) :=
  match get_block_from_timestamp (current_timestamp l) block_subgraph_url w with
  | (Ok block_number, w1) =>
      if truthy block_number then
        match query_pool_at_block arb_subgraph_url pool_id block_number w1 with
        | (Ok pool_data, w2) =>
            if truthy pool_data then
              match read_sample pool_data (snd (print (DataRetrieved block_number) w2)) with
              | (Ok s, _) => Some (block_number, s)
              | (Raise _, _) => None
              end
            else None
        | (Raise _, _) => None
        end
      else None
  | (Raise _, _) => None
  end.

(** The baseline line 121 builds from a sample whose invariants are floats. *)
Definition baseline_of (li lbi : float) (s : sample) : baseline :=
  {| b_totalInvariant := (li + lbi)%float;
     b_totalSupply := total_supply s;
     b_lastPrice := last_price s |}.

(** A float that is neither a zero, nor an infinity, nor NaN. *)
Definition finite_nonzero (x : float) : bool :=
  match Prim2SF x with
  | S754_finite _ _ _ => true
  | _ => false
  end.

(** [k] iterations in a row that complete without a sample: skipped steps. *)
Inductive skips : nat -> locals -> world -> locals -> world -> Prop :=
| skips_O l w : skips O l w l w
| skips_S k l w l1 w1 l2 w2 :
    loop_body l w = (Ok l1, w1) ->
    step_sample l w = None ->
    skips k l1 w1 l2 w2 ->
    skips (S k) l w l2 w2.

(** Two worlds that answer alike: same network, same number of requests
    sent.  The file and the output may differ. *)
Definition same_answers (w1 w2 : world) : Prop :=
  network w1 = network w2 /\ List.length (sent w1) = List.length (sent w2).

(** ** Relations between worlds *)

(** A statement keeps a relation between the world before and after when
    every run of it does, whatever its result. *)
Definition keeps (R : world -> world -> Prop) {A} (c : M A) : Prop :=
  forall w, R w (snd (c w)).

(** No new iteration has started. *)
Definition same_iterations (w w' : world) : Prop := iterations w' = iterations w.

(** Only the output has changed: same network, same requests, same file. *)
Definition quiet (w w' : world) : Prop :=
  network w' = network w /\ sent w' = sent w /\ csv w' = csv w.

(** The row lines 148-156 assemble. *)
Definition row_of (t : Z) (block_number : value) (ti ts lp x y : float) : csv_row :=
  {| utcTimestamp := t;
     blockNumber := block_number;
     totalInvariant := round ti 6;
     totalSupply := round ts 6;
     lastPrice := round lp 6;
     totalLPReturnPercent := Some (round x 6);
     spotReturnPercent := Some (round y 6) |}.

(** A statement is blind to the file and the output when, run in two worlds
    that answer alike, it gives the same result, leaves worlds that answer
    alike, and appends the same rows. *)
Definition blind {A} (c : M A) : Prop :=
  forall w1 w2,
    same_answers w1 w2 ->
    fst (c w1) = fst (c w2) /\
    same_answers (snd (c w1)) (snd (c w2)) /\
    exists added,
      rows (snd (c w1)) = rows w1 ++ added /\
      rows (snd (c w2)) = rows w2 ++ added.

(** ** Floats as real numbers *)

(** [2^e]. *)
Definition bpow (e : Z) : R := powerRZ 2 e.

(** The real number a float stands for (0 for what is no number). *)
Definition SF2R (f : spec_float) : R :=
  match f with
  | S754_finite s m e => ((if s then -1 else 1) * (IZR (Zpos m) * bpow e))%R
  | _ => 0%R
  end.

Definition F2R (x : float) : R := SF2R (Prim2SF x).

(** A float that is a number: no infinity, no NaN. *)
Definition finite_SF (f : spec_float) : bool :=
  match f with
  | S754_finite _ _ _ | S754_zero _ => true
  | _ => false
  end.

Definition finite (x : float) : bool := finite_SF (Prim2SF x).

(** [x] is a normal float of sign [sg] whose magnitude is [A] rounded:
    within [2^-53 * A] of it. *)
Definition rounds (x : float) (sg : bool) (A : R) : Prop :=
  exists m e,
    Prim2SF x = S754_finite sg m e /\
    2 ^ 52 <= Zpos m < 2 ^ 53 /\ -52 <= e <= 971 /\
    (Rabs (IZR (Zpos m) * bpow e - A) <= A * bpow (-53))%R.

(** Where a real [t] lies from an integer [m] up to the next, as the
    rounding functions record it: on [m], below the middle, on it, above. *)
Definition inbetween (m : Z) (l : location) (t : R) : Prop :=
  match l with
  | loc_Exact => t = IZR m
  | loc_Inexact Lt => (IZR m < t < IZR m + / 2)%R
  | loc_Inexact Eq => t = (IZR m + / 2)%R
  | loc_Inexact Gt => (IZR m + / 2 < t < IZR m + 1)%R
  end.

(** The same for a mantissa with its round and sticky bits. *)
Definition located (t : R) (mrs : shr_record) : Prop :=
  0 <= shr_m mrs /\ inbetween (shr_m mrs) (loc_of_shr_record mrs) t.

(** What [binary_round_aux] returns for a mantissa [m2] and an exponent [e2]. *)
Definition packed (s : bool) (m2 e2 : Z) : spec_float :=
  match m2 with
  | Z0 => S754_zero s
  | Zpos p => if e2 <=? emax - prec then S754_finite s p e2 else S754_infinity s
  | Zneg _ => S754_nan
  end.

(** The fixed-point values the pool subgraph gives: an integer as a JSON
    number, which [json()] decodes to an int, or as a string of decimal
    digits. *)
Inductive fixed_point : value -> Z -> Prop :=
  | fixed_point_int v : fixed_point (PInt v) v
  | fixed_point_str ds :
      ds <> [] -> forallb is_digit ds = true ->
      fixed_point (PStr (string_of_list_ascii ds)) (digits_value ds).

(** [y * 10 ** d] in Python, the product the specification multiplies a
    normalized value back with: the int is converted to a float first. *)
Definition scale_back (y : float) (d : N) : result float :=
  rbind (float_of_int (10 ^ Z.of_N d)) (fun p => Ok (y * p)%float).

(** ** Worlds and files, step by step *)

(** The answer the network has for the next request. *)
Definition next_answer (w : world) : result response :=
  network w (List.length (sent w)).

(** The world once a request has gone out. *)
Definition posted (u : string) (q : query) (w : world) : world :=
  {| network := network w;
     sent := sent w ++ [{| url := u; document := q |}];
     stdout := stdout w;
     csv := csv w |}.

(** The world once a line has been printed. *)
Definition printed (m : message) (w : world) : world :=
  {| network := network w; sent := sent w; stdout := stdout w ++ [m]; csv := csv w |}.

(** No request made: same network, same requests sent. *)
Definition offline (w w' : world) : Prop :=
  network w' = network w /\ sent w' = sent w.

Definition is_dict (v : value) : bool :=
  match v with PDict _ => true | _ => false end.

(** A value [float()] cannot read: [None], a list, a dict, a string that is
    no number. *)
Definition unreadable (v : value) : bool :=
  match v with
  | PNone | PList _ | PDict _ => true
  | PStr s => match parse_float s with Some _ => false | None => true end
  | PBool _ | PInt _ | PFloat _ => false
  end.

(** Text of ASCII characters only. *)
Definition is_ascii (s : string) : bool :=
  forallb (fun c => code c <? 128) (list_ascii_of_string s).

(** A JSON scalar [print] can always write: [None], a bool, a float, an int
    within the 4300 digits to which [str()] may be limited, ASCII text. *)
Definition plain (v : value) : bool :=
  match v with
  | PNone | PBool _ | PFloat _ => true
  | PInt z => Z.abs z <? 10 ^ 4300
  | PStr s => is_ascii s
  | PList _ | PDict _ => false
  end.

(** [save_to_csv] called for each row of a list, in order. *)
Fixpoint save_all (rs : list csv_row) : M unit :=
  match rs with
  | [] => ret tt
  | r :: rs' => save_to_csv r ;; save_all rs'
  end.

(** The file once rows have been appended to it: a file that did not exist
    starts with the header, a file that did is continued as it is. *)
Definition appended (file : option (list csv_line)) (rs : list csv_row)
  : option (list csv_line) :=
  match file, rs with
  | Some ls, _ => Some (ls ++ map Row rs)
  | None, [] => None
  | None, _ :: _ => Some (Header :: map Row rs)
  end.

(** ** Scenarios *)

(** A status-200 response whose body decodes to [v]. *)
Definition ok_response (v : value) : result response :=
  Ok {| status_code := 200; text := EmptyString; json := Ok v |}.

(** The block subgraph's answer with one block. *)
Definition blocks_response (number : value) : result response :=
  ok_response
    (PDict [("data"%string,
             PDict [("blocks"%string,
                     PList [PDict [("number"%string, number);
                                   ("timestamp"%string, PStr "1711690366")]])])]).

(** The pool subgraph's answer with one pool of an 18- and a 6-decimal token. *)
Definition pool_response (lpInvariant lpBorrowedInvariant lastPrice totalSupply : value)
  : result response :=
  ok_response
    (PDict [("data"%string,
             PDict [("gammaPool"%string,
                     PDict [("id"%string, PStr pool_id);
                            ("lpInvariant"%string, lpInvariant);
                            ("lpBorrowedInvariant"%string, lpBorrowedInvariant);
                            ("lastPrice"%string, lastPrice);
                            ("totalSupply"%string, totalSupply);
                            ("token0"%string, PDict [("decimals"%string, PStr "18")]);
                            ("token1"%string, PDict [("decimals"%string, PStr "6")])])])]).

(** A fresh run against a network that gives these answers in order and
    fails afterwards: nothing sent, nothing printed, no file. *)
Definition world_of (answers : list (result response)) : world :=
  {| network := fun n => nth n answers (Raise RequestException);
     sent := [];
     stdout := [];
     csv := None |}.

Definition start_of_run (start_timestamp : Z) : locals :=
  {| current_timestamp := start_timestamp; pool_creation_data := None |}.

(** The scenario of the specification: block 100 and a pool with
    invariant 12, supply 10 and price 1. *)
Definition one_week : world :=
  world_of
    [blocks_response (PInt 100);
     pool_response (PInt 12000000000000) (PInt 0) (PInt 1000000) (PInt 10000000000000)].

(** Two weeks; the supply has tripled in the second. *)
Definition two_weeks : world :=
  world_of
    [blocks_response (PInt 100);
     pool_response (PInt 12000000000000) (PInt 0) (PInt 1000000) (PInt 10000000000000);
     blocks_response (PInt 200);
     pool_response (PInt 12000000000000) (PInt 0) (PInt 1000000) (PInt 30000000000000)].

(** The genesis block, number 0, comes back from the resolver as any other
    block does. *)
Definition genesis_week : world := world_of [blocks_response (PInt 0)].

(** A block subgraph that gives the empty string for a number. *)
Definition unnamed_block_week : world := world_of [blocks_response (PStr EmptyString)].

(** No block in the first week, then the two weeks of [two_weeks]. *)
Definition late_start : world :=
  world_of
    [ok_response (PDict [("data"%string, PDict [("blocks"%string, PList [])])]);
     blocks_response (PInt 100);
     pool_response (PInt 12000000000000) (PInt 0) (PInt 1000000) (PInt 10000000000000);
     blocks_response (PInt 200);
     pool_response (PInt 12000000000000) (PInt 0) (PInt 1000000) (PInt 30000000000000)].

(** The second week of [two_weeks], as the first week leaves it. *)
Definition second_week_locals : locals :=
  {| current_timestamp := 604800;
     pool_creation_data :=
       Some {| b_totalInvariant := 12;
               b_totalSupply := Some 10%float;
               b_lastPrice := Some 1%float |} |}.

Definition second_week : world := snd (loop_body (start_of_run 0) two_weeks).

(** A pool so small that 6 decimals do not hold its invariant: 1.5e-6 in
    the first week, 3e-6 in the second. *)
Definition small_pool : world :=
  world_of
    [blocks_response (PInt 100);
     pool_response (PInt 1500000) (PInt 0) (PInt 1000000) (PInt 10000000000000);
     blocks_response (PInt 200);
     pool_response (PInt 3000000) (PInt 0) (PInt 1000000) (PInt 10000000000000)].

(** The world [w] with another file in place of its own. *)
Definition with_csv (file : option (list csv_line)) (w : world) : world :=
  {| network := network w; sent := sent w; stdout := stdout w; csv := file |}.

(** The pool subgraph gives [null] for [lpInvariant] in the first week; the
    second week is sound. *)
Definition null_invariant : world :=
  world_of
    [blocks_response (PInt 100);
     pool_response PNone (PInt 0) (PInt 1000000) (PInt 10000000000000);
     blocks_response (PInt 200);
     pool_response (PInt 12000000000000) (PInt 0) (PInt 1000000) (PInt 10000000000000)].

(** The same with a [totalSupply] that is no number. *)
Definition unparsable_supply : world :=
  world_of
    [blocks_response (PInt 100);
     pool_response (PInt 12000000000000) (PInt 0) (PInt 1000000) (PStr "n/a");
     blocks_response (PInt 200);
     pool_response (PInt 12000000000000) (PInt 0) (PInt 1000000) (PInt 10000000000000)].

(** The largest int that [float()] converts, [2^1024 - 2^971], is the
    largest float. *)
Definition largest_float : float := 0x1.fffffffffffffp+1023%float.

(** The first request fails in transport; the week after is sound. *)
Definition first_request_fails : world :=
  world_of
    [Raise RequestException;
     blocks_response (PInt 200);
     pool_response (PInt 12000000000000) (PInt 0) (PInt 1000000) (PInt 10000000000000)].

(** The same, with the first request answered by status 503. *)
Definition first_request_refused : world :=
  world_of
    [Ok {| status_code := 503; text := "Service Unavailable"; json := Raise JSONDecodeError |};
     blocks_response (PInt 200);
     pool_response (PInt 12000000000000) (PInt 0) (PInt 1000000) (PInt 10000000000000)].

(** A subgraph that answers [{"data": null}]. *)
Definition null_data : world :=
  world_of [ok_response (PDict [("data"%string, PNone)])].

(** The pool subgraph knows no pool at the block: [gammaPool] is [null]. *)
Definition no_pool_yet : world :=
  world_of
    [blocks_response (PInt 100);
     ok_response (PDict [("data"%string, PDict [("gammaPool"%string, PNone)])])].

(** A pool nobody has put anything in yet: the supply is 0. *)
Definition empty_pool : world :=
  world_of
    [blocks_response (PInt 100);
     pool_response (PInt 12000000000000) (PInt 0) (PInt 1000000) (PInt 0)].

(** A pool of two 8-decimal tokens, its numbers given as strings. *)
Definition eight_decimal_pool : list (string * value) :=
  [("id"%string, PStr pool_id);
   ("lpInvariant"%string, PStr "12000000000000");
   ("lpBorrowedInvariant"%string, PStr "0");
   ("lastPrice"%string, PStr "1000000");
   ("totalSupply"%string, PStr "10000000000000");
   ("token0"%string, PDict [("decimals"%string, PStr "8")]);
   ("token1"%string, PDict [("decimals"%string, PStr "8")])].

(** ** Reasoning about statements *)

Lemma bind_inv {A B} (c : M A) (k : A -> M B) w r w' :
  bind c k w = (r, w') ->
  (exists e, c w = (Raise e, w') /\ r = Raise e) \/
  (exists a w1, c w = (Ok a, w1) /\ k a w1 = (r, w')).
Proof.
  unfold bind. destruct (c w) as [[a | e] w1]; intros H.
  - right. exists a, w1. split; [reflexivity | exact H].
  - left. exists e. inversion H; subst. split; reflexivity.
Qed.

Lemma bind_ok_inv {A B} (c : M A) (k : A -> M B) w b w' :
  bind c k w = (Ok b, w') ->
  exists a w1, c w = (Ok a, w1) /\ k a w1 = (Ok b, w').
Proof.
  intros H. apply bind_inv in H. destruct H as [(e & _ & H) | H].
  - discriminate.
  - exact H.
Qed.

Lemma bind_ok {A B} (c : M A) (k : A -> M B) w a w1 :
  c w = (Ok a, w1) -> bind c k w = k a w1.
Proof. intros H. unfold bind. rewrite H. reflexivity. Qed.

Lemma bind_raise {A B} (c : M A) (k : A -> M B) w e w1 :
  c w = (Raise e, w1) -> bind c k w = (Raise e, w1).
Proof. intros H. unfold bind. rewrite H. reflexivity. Qed.

Lemma lift_ok_inv {A} (r : result A) w a w' :
  lift r w = (Ok a, w') -> r = Ok a /\ w' = w.
Proof. unfold lift. intros H. inversion H. split; reflexivity. Qed.

Lemma ret_ok_inv {A} (x a : A) w w' :
  ret x w = (Ok a, w') -> a = x /\ w' = w.
Proof. unfold ret. intros H. inversion H. split; reflexivity. Qed.

Lemma rbind_ok_inv {A B} (r : result A) (k : A -> result B) b :
  rbind r k = Ok b -> exists a, r = Ok a /\ k a = Ok b.
Proof.
  destruct r as [a | e]; simpl; intros H.
  - exists a. split; [reflexivity | exact H].
  - discriminate.
Qed.

(** Takes apart a hypothesis that says a sequence of statements ended well. *)
Ltac ok_inv H :=
  lazymatch type of H with
  | bind _ _ _ = (Ok _, _) =>
      let a := fresh "a" in
      let w := fresh "w" in
      let H1 := fresh "H" in
      apply bind_ok_inv in H; destruct H as (a & w & H1 & H)
  | lift _ _ = (Ok _, _) =>
      apply lift_ok_inv in H; destruct H
  | ret _ _ = (Ok _, _) =>
      apply ret_ok_inv in H; destruct H
  | rbind _ _ = Ok _ =>
      let a := fresh "a" in
      let H1 := fresh "H" in
      apply rbind_ok_inv in H; destruct H as (a & H1 & H)
  end.

(** *** What a statement leaves alone *)

Section Keeps.
Variable R : world -> world -> Prop.
Hypothesis R_refl : forall w, R w w.
Hypothesis R_trans : forall w1 w2 w3, R w1 w2 -> R w2 w3 -> R w1 w3.

Lemma keeps_ret {A} (a : A) : keeps R (ret a).
Proof. intros w. apply R_refl. Qed.

Lemma keeps_lift {A} (r : result A) : keeps R (lift r).
Proof. intros w. apply R_refl. Qed.

Lemma keeps_bind {A B} (c : M A) (k : A -> M B) :
  keeps R c -> (forall a, keeps R (k a)) -> keeps R (bind c k).
Proof.
  intros Hc Hk w. unfold bind. specialize (Hc w).
  destruct (c w) as [[a | e] w1]; simpl in *.
  - eapply R_trans; [exact Hc | apply Hk].
  - exact Hc.
Qed.

Lemma keeps_if {A} (b : bool) (c1 c2 : M A) :
  keeps R c1 -> keeps R c2 -> keeps R (if b then c1 else c2).
Proof. destruct b; auto. Qed.
End Keeps.

Lemma quiet_refl w : quiet w w.
Proof. repeat split. Qed.

Lemma quiet_trans w1 w2 w3 : quiet w1 w2 -> quiet w2 w3 -> quiet w1 w3.
Proof. unfold quiet. intros (?&?&?) (?&?&?). repeat split; congruence. Qed.

Lemma keeps_print m : keeps quiet (print m).
Proof. intros w. repeat split. Qed.

Ltac quiet_auto :=
  repeat first
    [ apply keeps_print
    | apply (keeps_ret quiet quiet_refl)
    | apply (keeps_lift quiet quiet_refl)
    | apply (keeps_bind quiet quiet_trans); [ | intros ? ]
    | apply keeps_if ].

Lemma keeps_normalize_value v d : keeps quiet (normalize_value v d).
Proof.
  unfold normalize_value.
  destruct (rbind _ _) as [r | e]; [ | destruct e ]; quiet_auto.
Qed.

Lemma keeps_read_sample pool_data : keeps quiet (read_sample pool_data).
Proof.
  unfold read_sample.
  repeat first [ apply keeps_normalize_value | progress quiet_auto ].
Qed.

(** A request followed by statements that only print: one more request
    sent, the file and the network as before, whatever the result. *)
Lemma post_then_quiet {A} u q (k : response -> M A) :
  (forall r, keeps quiet (k r)) ->
  forall w,
    let w' := snd (bind (requests_post u q) k w) in
    network w' = network w /\
    sent w' = sent w ++ [{| url := u; document := q |}] /\
    csv w' = csv w.
Proof.
  intros Hk w. unfold bind, requests_post.
  destruct (network w (List.length (sent w))) as [r | e].
  - destruct (Hk r {| network := network w;
                      sent := sent w ++ [{| url := u; document := q |}];
                      stdout := stdout w; csv := csv w |}) as (H1 & H2 & H3).
    simpl in *. repeat split; assumption.
  - simpl. repeat split.
Qed.

(** Whatever it returns or raises, the resolver sends its one request and
    touches neither the file nor the network. *)
Lemma get_block_from_timestamp_world t u w :
  let w' := snd (get_block_from_timestamp t u w) in
  network w' = network w /\
  sent w' = sent w ++ [{| url := u; document := BlocksQuery t |}] /\
  csv w' = csv w.
Proof.
  unfold get_block_from_timestamp. apply post_then_quiet.
  intros r. quiet_auto.
Qed.

Lemma query_pool_at_block_world u p b w :
  let w' := snd (query_pool_at_block u p b w) in
  network w' = network w /\
  sent w' = sent w ++ [{| url := u; document := GammaPoolQuery p b |}] /\
  csv w' = csv w.
Proof.
  unfold query_pool_at_block. apply post_then_quiet.
  intros r. quiet_auto.
Qed.

Lemma rows_save_to_csv row w :
  rows (snd (save_to_csv row w)) = rows w ++ [row].
Proof.
  unfold rows, save_to_csv. simpl.
  destruct (csv w) as [ls | ]; simpl.
  - rewrite flat_map_app. simpl. reflexivity.
  - reflexivity.
Qed.

Lemma print_inv m w (r : result unit) w' :
  print m w = (r, w') -> r = Ok tt /\ quiet w w'.
Proof.
  unfold print. intros H. inversion H; subst. split; [reflexivity | repeat split].
Qed.

Lemma save_to_csv_inv row w (r : result unit) w' :
  save_to_csv row w = (r, w') ->
  r = Ok tt /\ network w' = network w /\ sent w' = sent w /\
  rows w' = rows w ++ [row].
Proof.
  intros H. pose proof (rows_save_to_csv row w) as Hr. rewrite H in Hr.
  unfold save_to_csv in H. inversion H; subst. repeat split. exact Hr.
Qed.

Lemma rows_quiet w w' : quiet w w' -> rows w' = rows w.
Proof. intros (_ & _ & H). unfold rows. rewrite H. reflexivity. Qed.

Lemma round6_ok_inv x r : round6_ x = Ok r -> exists a, x = Some a /\ r = round a 6.
Proof.
  destruct x as [a | ]; simpl; intros H; inversion H.
  exists a. split; reflexivity.
Qed.

Lemma utcfromtimestamp_ok_inv t r : utcfromtimestamp t = Ok r -> r = t.
Proof.
  unfold utcfromtimestamp. destruct (_ && _); intros H; inversion H. reflexivity.
Qed.

(** Takes a completed sequence of statements apart, one statement at a
    time, keeping what each one returned and what it left of the world. *)
Ltac crunch H :=
  repeat
    lazymatch type of H with
    | bind (lift _) _ _ = (Ok _, _) =>
        let a := fresh "a" in
        let w := fresh "w" in
        let L := fresh "L" in
        apply bind_ok_inv in H; destruct H as (a & w & L & H);
        apply lift_ok_inv in L; destruct L as [L ->]
    | bind (print _) _ _ = (Ok _, _) =>
        let a := fresh "a" in
        let w := fresh "w" in
        let L := fresh "L" in
        let Q := fresh "Q" in
        apply bind_ok_inv in H; destruct H as (a & w & L & H);
        apply print_inv in L; destruct L as (_ & Q);
        pose proof (rows_quiet _ _ Q); destruct Q as (? & ? & ?)
    | bind (save_to_csv _) _ _ = (Ok _, _) =>
        let a := fresh "a" in
        let w := fresh "w" in
        let L := fresh "L" in
        apply bind_ok_inv in H; destruct H as (a & w & L & H);
        apply save_to_csv_inv in L; destruct L as (_ & ? & ? & ?)
    end.

(** What a completed [derive_row] has done. *)
Lemma derive_row_ok l block_number s w l1 w' :
  derive_row l block_number s w = (Ok l1, w') ->
  exists b ti x y ts lp,
    capture l s = Ok b /\
    add_ (lp_invariant s) (lp_borrowed_invariant s) = Ok ti /\
    total_lp_return_percent ti s b = Ok x /\
    spot_return_percent s b = Ok y /\
    total_supply s = Some ts /\
    last_price s = Some lp /\
    l1 = {| current_timestamp := current_timestamp l;
            pool_creation_data := Some b |} /\
    network w' = network w /\
    sent w' = sent w /\
    rows w' = rows w ++ [row_of (current_timestamp l) block_number ti ts lp x y].
Proof.
  unfold derive_row. intros H. crunch H.
  apply ret_ok_inv in H. destruct H as [-> ->].
  repeat match goal with
         | R : round6_ _ = Ok _ |- _ =>
             apply round6_ok_inv in R; destruct R as (? & ? & ->)
         | U : utcfromtimestamp _ = Ok _ |- _ =>
             apply utcfromtimestamp_ok_inv in U; subst
         end.
  do 6 eexists. unfold row_of. repeat split; try eassumption; congruence.
Qed.

(** An iteration that completes either skipped, leaving the variables and
    the file alone, or normalized a sample and went through [derive_row]. *)
Lemma loop_body_inv l w l' w' :
  loop_body l w = (Ok l', w') ->
  (step_sample l w = None /\ l' = advance l /\ csv w' = csv w /\
   network w' = network w) \/
  (exists block_number s w3 l1,
     step_sample l w = Some (block_number, s) /\
     derive_row l block_number s w3 = (Ok l1, w') /\
     l' = advance l1 /\ csv w3 = csv w /\ network w3 = network w).
Proof.
  unfold loop_body, step_sample. intros H.
  apply bind_ok_inv in H. destruct H as (bn & w1 & Hb & H). rewrite Hb.
  pose proof (get_block_from_timestamp_world (current_timestamp l) block_subgraph_url w) as G.
  rewrite Hb in G. simpl in G. destruct G as (Gn & _ & Gc).
  destruct (truthy bn) eqn:Ta; simpl negb in H; cbv iota in H.
  - apply bind_ok_inv in H. destruct H as (pd & w2 & Hp & H). rewrite Hp.
    pose proof (query_pool_at_block_world arb_subgraph_url pool_id bn w1) as P.
    rewrite Hp in P. simpl in P. destruct P as (Pn & _ & Pc).
    destruct (truthy pd) eqn:Tp.
    + apply bind_ok_inv in H. destruct H as (u & w3 & Hpr & H).
      assert (E : w3 = snd (print (DataRetrieved bn) w2)) by (rewrite Hpr; reflexivity).
      apply print_inv in Hpr. destruct Hpr as (_ & (Q1n & _ & Q1c)).
      apply bind_ok_inv in H. destruct H as (s & w4 & Hs & H).
      pose proof (keeps_read_sample pd w3) as Q2. rewrite Hs in Q2.
      destruct Q2 as (Q2n & _ & Q2c). simpl in Q2n, Q2c.
      rewrite <- E, Hs.
      apply bind_ok_inv in H. destruct H as (l1 & w5 & Hd & H).
      apply ret_ok_inv in H. destruct H as [-> ->].
      right. exists bn, s, w4, l1.
      repeat split; try assumption; congruence.
    + apply bind_ok_inv in H. destruct H as (u & w3 & Hpr & H).
      apply print_inv in Hpr. destruct Hpr as (_ & (Qn & _ & Qc)).
      apply ret_ok_inv in H. destruct H as [-> ->].
      left. repeat split; congruence.
  - apply bind_ok_inv in H. destruct H as (u & w3 & Hpr & H).
    apply print_inv in Hpr. destruct Hpr as (_ & (Qn & _ & Qc)).
    apply ret_ok_inv in H. destruct H as [-> ->].
    left. repeat split; congruence.
Qed.

Lemma keeps_weaken (R R' : world -> world -> Prop) {A} (c : M A) :
  (forall w w', R w w' -> R' w w') -> keeps R c -> keeps R' c.
Proof. intros HR Hc w. apply HR, Hc. Qed.

Lemma same_iterations_refl w : same_iterations w w.
Proof. reflexivity. Qed.

Lemma same_iterations_trans w1 w2 w3 :
  same_iterations w1 w2 -> same_iterations w2 w3 -> same_iterations w1 w3.
Proof. unfold same_iterations. congruence. Qed.

Lemma quiet_same_iterations w w' : quiet w w' -> same_iterations w w'.
Proof. intros (_ & H & _). unfold same_iterations, iterations. rewrite H. reflexivity. Qed.

Lemma keeps_save_to_csv row : keeps same_iterations (save_to_csv row).
Proof. intros w. reflexivity. Qed.

Lemma keeps_query_pool_at_block u p b :
  keeps same_iterations (query_pool_at_block u p b).
Proof.
  intros w. destruct (query_pool_at_block_world u p b w) as (_ & H & _).
  unfold same_iterations, iterations. rewrite H, filter_app, length_app. simpl. lia.
Qed.

Ltac same_iterations_auto :=
  repeat first
    [ apply (keeps_weaken quiet same_iterations _ quiet_same_iterations);
      first [ apply keeps_print | apply keeps_read_sample ]
    | apply keeps_save_to_csv
    | apply keeps_query_pool_at_block
    | apply (keeps_ret same_iterations same_iterations_refl)
    | apply (keeps_lift same_iterations same_iterations_refl)
    | apply (keeps_bind same_iterations same_iterations_trans); [ | intros ? ]
    | apply keeps_if ].

Lemma keeps_derive_row l b s : keeps same_iterations (derive_row l b s).
Proof. unfold derive_row. same_iterations_auto. Qed.

(** Every iteration, completed or not, is one more request to the block
    subgraph. *)
Lemma loop_body_iterations l w :
  iterations (snd (loop_body l w)) = S (iterations w).
Proof.
  unfold loop_body.
  match goal with
  | |- context [bind _ ?k] => assert (Hk : forall b, keeps same_iterations (k b))
  end.
  { intros b. same_iterations_auto. }
  unfold bind at 1.
  destruct (get_block_from_timestamp_world (current_timestamp l) block_subgraph_url w)
    as (_ & Hs & _).
  destruct (get_block_from_timestamp _ _ w) as [[b | e] w1]; simpl in Hs.
  - rewrite (Hk b w1). unfold iterations. rewrite Hs, filter_app, length_app.
    simpl. lia.
  - simpl. unfold iterations. rewrite Hs, filter_app, length_app. simpl. lia.
Qed.

(** The cursor after an iteration that completes. *)
Lemma loop_body_cursor l w l' w' :
  loop_body l w = (Ok l', w') ->
  current_timestamp l' = current_timestamp l + week.
Proof.
  intros H. apply loop_body_inv in H.
  destruct H as [(_ & -> & _) | (b & s & w3 & l1 & _ & Hd & -> & _)].
  - reflexivity.
  - apply derive_row_ok in Hd.
    destruct Hd as (? & ? & ? & ? & ? & ? & _ & _ & _ & _ & _ & _ & -> & _).
    reflexivity.
Qed.

Lemma iterations_needed_done c today :
  today < c -> iterations_needed c today = O.
Proof.
  intros H. unfold iterations_needed.
  destruct (c <=? today) eqn:E; [ apply Z.leb_le in E; lia | reflexivity ].
Qed.

Lemma iterations_needed_step c today :
  c <= today ->
  iterations_needed c today = S (iterations_needed (c + week) today).
Proof.
  intros H. unfold iterations_needed, week.
  replace (c <=? today) with true by (symmetry; apply Z.leb_le; exact H).
  change (7 * 86400) with 604800.
  destruct (c + 604800 <=? today) eqn:E.
  - apply Z.leb_le in E.
    replace (today - c) with ((today - (c + 604800)) + 1 * 604800) by lia.
    rewrite Z.div_add by lia.
    assert (0 <= (today - (c + 604800)) / 604800) by (apply Z.div_pos; lia).
    rewrite <- Z2Nat.inj_succ by lia. f_equal; lia.
  - apply Z.leb_gt in E. rewrite Z.div_small by lia. reflexivity.
Qed.

(** With fuel for the iterations needed and the last test, the loop ends:
    by an exception, or because the cursor has passed the bound, after
    exactly the iterations needed. *)
Lemma while_loop_ends fuel today :
  forall l w,
    (iterations_needed (current_timestamp l) today < fuel)%nat ->
    match while_loop fuel today l w with
    | (Raise _, _) => True
    | (Ok None, _) => False
    | (Ok (Some l'), w') =>
        today < current_timestamp l' /\
        current_timestamp l' =
          current_timestamp l
          + week * Z.of_nat (iterations_needed (current_timestamp l) today) /\
        iterations w' =
          (iterations w + iterations_needed (current_timestamp l) today)%nat
    end.
Proof.
  induction fuel as [ | fuel IH]; intros l w Hf.
  - lia.
  - cbn [while_loop]. destruct (current_timestamp l <=? today) eqn:E.
    + apply Z.leb_le in E.
      rewrite (iterations_needed_step _ _ E) in *.
      unfold bind. pose proof (loop_body_iterations l w) as Hi.
      destruct (loop_body l w) as [[l1 | e] w1] eqn:Hb; [ | exact I].
      simpl in Hi. apply loop_body_cursor in Hb.
      specialize (IH l1 w1). rewrite Hb in IH.
      assert (Hf' : (iterations_needed (current_timestamp l + week) today < fuel)%nat) by lia.
      specialize (IH Hf').
      destruct (while_loop fuel today l1 w1) as [[[l2 | ] | e] w2]; try exact IH.
      destruct IH as (H1 & H2 & H3). repeat split; [ exact H1 | | ].
      * rewrite H2. unfold week. lia.
      * rewrite H3, Hi. lia.
    + apply Z.leb_gt in E. rewrite (iterations_needed_done _ _ E).
      unfold ret. repeat split; [ exact E | unfold week; lia | lia ].
Qed.

(** ** The sampling loop *)

(** A run whose iterations all complete ends with what they leave. *)
Lemma iterate_while_loop today :
  forall fuel l w l' w',
    (iterations_needed (current_timestamp l) today < fuel)%nat ->
    iterate (iterations_needed (current_timestamp l) today) l w = (Ok l', w') ->
    while_loop fuel today l w = (Ok (Some l'), w').
Proof.
  induction fuel as [ | fuel IH]; intros l w l' w' Hf H; [ lia | ].
  cbn [while_loop]. destruct (current_timestamp l <=? today) eqn:E.
  - apply Z.leb_le in E. rewrite (iterations_needed_step _ _ E) in Hf, H.
    cbn [iterate] in H. apply bind_ok_inv in H. destruct H as (l1 & w1 & Hb & H).
    rewrite (bind_ok _ _ _ _ _ Hb).
    rewrite <- (loop_body_cursor _ _ _ _ Hb) in Hf, H.
    apply IH; [ lia | exact H ].
  - apply Z.leb_gt in E. rewrite (iterations_needed_done _ _ E) in H.
    cbn in H. inversion H. reflexivity.
Qed.

(** What [requests.post] raises leaves the two queries as it is. *)
Lemma get_block_from_timestamp_raise t u w e :
  next_answer w = Raise e ->
  get_block_from_timestamp t u w = (Raise e, posted u (BlocksQuery t) w).
Proof.
  unfold next_answer, get_block_from_timestamp, bind, requests_post.
  intros ->. reflexivity.
Qed.

Lemma query_pool_at_block_raise u p b w e :
  next_answer w = Raise e ->
  query_pool_at_block u p b w = (Raise e, posted u (GammaPoolQuery p b) w).
Proof.
  unfold next_answer, query_pool_at_block, bind, requests_post.
  intros ->. reflexivity.
Qed.

(** C4, on the code.  A step that completes, the steps that fail by
    returning nothing included, advances the cursor by 604800 seconds, and
    a run whose iterations all complete ends with the cursor past the
    bound, after one iteration for every cursor [start + 604800 * j] not
    past it.  But a step that fails by an exception does not advance the
    cursor: nothing in [main] or in the two queries catches what
    [requests.post] raises, so the run ends with that exception in the step
    where it happens, at the block query or at the pool query, and the
    cursors after it are never visited.  With the first
    request refused (status 503) the first week is skipped and the second
    sampled; with the first request failing in transport the run ends in
    its first step, one block query sent of the two the bound asks for, and
    no row written. *)
Theorem failed_request_ends_the_run :
  (forall l w l' w',
      loop_body l w = (Ok l', w') ->
      current_timestamp l' = current_timestamp l + 604800) /\
  (forall fuel start_timestamp today_timestamp w l' w',
      (iterations_needed start_timestamp today_timestamp < fuel)%nat ->
      iterate (iterations_needed start_timestamp today_timestamp)
        (start_of_run start_timestamp) w = (Ok l', w') ->
      main fuel start_timestamp today_timestamp w = (Ok (Some l'), w') /\
      today_timestamp < current_timestamp l' /\
      current_timestamp l' =
        start_timestamp
        + 604800 * Z.of_nat (iterations_needed start_timestamp today_timestamp)) /\
  (forall fuel start_timestamp today_timestamp w e,
      (0 < fuel)%nat ->
      start_timestamp <= today_timestamp ->
      next_answer w = Raise e ->
      main fuel start_timestamp today_timestamp w
      = (Raise e, posted block_subgraph_url (BlocksQuery start_timestamp) w)) /\
  (forall l w block_number w1 e,
      get_block_from_timestamp (current_timestamp l) block_subgraph_url w
      = (Ok block_number, w1) ->
      truthy block_number = true ->
      next_answer w1 = Raise e ->
      loop_body l w
      = (Raise e,
         posted arb_subgraph_url (GammaPoolQuery pool_id block_number) w1)) /\
  (iterations_needed 0 604800 = 2%nat /\
   fst (main 3 0 604800 first_request_refused)
   = Ok (Some {| current_timestamp := 1209600;
                 pool_creation_data :=
                   Some {| b_totalInvariant := 12;
                           b_totalSupply := Some 10%float;
                           b_lastPrice := Some 1%float |} |}) /\
   map document (filter is_blocks_query (sent (snd (main 3 0 604800 first_request_refused))))
   = [BlocksQuery 0; BlocksQuery 604800] /\
   map utcTimestamp (rows (snd (main 3 0 604800 first_request_refused))) = [604800]) /\
  (fst (main 3 0 604800 first_request_fails) = Raise RequestException /\
   map document (sent (snd (main 3 0 604800 first_request_fails))) = [BlocksQuery 0] /\
   rows (snd (main 3 0 604800 first_request_fails)) = []).
Proof.
  split; [ | split; [ | split; [ | split; [ | split ] ] ] ].
  - intros l w l' w' H. rewrite (loop_body_cursor _ _ _ _ H). reflexivity.
  - intros fuel start today w l' w' Hf H. unfold main.
    pose proof (iterate_while_loop today fuel (start_of_run start) w l' w' Hf H) as R.
    pose proof (while_loop_ends fuel today (start_of_run start) w Hf) as T.
    unfold start_of_run in R, T. rewrite R in T. cbn [current_timestamp] in T.
    destruct T as (T1 & T2 & _).
    split; [ exact R | ]. split; [ exact T1 | ]. rewrite T2. unfold week. lia.
  - intros fuel start today w e Hf Hle Hn. unfold main.
    destruct fuel as [ | fuel]; [ lia | ]. cbn [while_loop current_timestamp].
    replace (start <=? today) with true by (symmetry; apply Z.leb_le; exact Hle).
    unfold loop_body. cbn [current_timestamp].
    rewrite (bind_raise _ _ _ _ _ (bind_raise _ _ _ _ _
               (get_block_from_timestamp_raise start block_subgraph_url w e Hn))).
    reflexivity.
  - intros l w bn w1 e Hb Tb Hn. unfold loop_body.
    rewrite (bind_ok _ _ _ _ _ Hb), Tb. cbn [negb].
    rewrite (bind_raise _ _ _ _ _
               (query_pool_at_block_raise arb_subgraph_url pool_id bn w1 e Hn)).
    reflexivity.
  - split; [ reflexivity | ].
    split; [ vm_compute; reflexivity | ].
    split; vm_compute; reflexivity.
  - split; [ vm_compute; reflexivity | ].
    split; vm_compute; reflexivity.
Qed.

Lemma iterations_needed_one_step_apart start :
  iterations_needed start (start + 604800) = 2%nat.
Proof.
  unfold iterations_needed, week.
  replace (start <=? start + 604800) with true by (symmetry; apply Z.leb_le; lia).
  replace (start + 604800 - start) with 604800 by lia.
  reflexivity.
Qed.

Lemma iterations_needed_within_one_step start today :
  start <= today < start + 604800 -> iterations_needed start today = 1%nat.
Proof.
  intros [H1 H2]. unfold iterations_needed, week.
  replace (start <=? today) with true by (symmetry; apply Z.leb_le; lia).
  change (7 * 86400) with 604800. rewrite Z.div_small by lia. reflexivity.
Qed.

(** C5, as the code has it: the loop test is [current_timestamp <=
    today_timestamp], so a run in which no iteration raises makes two
    iterations when its bound is exactly 604800 seconds after its start,
    one at the start and one at the bound, and leaves the cursor two steps
    on.  It makes exactly one iteration when the bound is at the start or
    after it and less than 604800 seconds after it, and none, leaving the
    world as it was, when the bound is before the start. *)
Theorem one_step_apart_two_iterations fuel start_timestamp today_timestamp w res w' :
  (2 < fuel)%nat ->
  main fuel start_timestamp today_timestamp w = (Ok res, w') ->
  (today_timestamp = start_timestamp + 604800 ->
   iterations w' = (iterations w + 2)%nat /\
   exists l', res = Some l' /\ current_timestamp l' = start_timestamp + 2 * 604800) /\
  (start_timestamp <= today_timestamp < start_timestamp + 604800 ->
   iterations w' = (iterations w + 1)%nat /\
   exists l', res = Some l' /\ current_timestamp l' = start_timestamp + 604800) /\
  (today_timestamp < start_timestamp ->
   res = Some (start_of_run start_timestamp) /\ w' = w).
Proof.
  intros Hf H.
  pose proof (while_loop_ends fuel today_timestamp (start_of_run start_timestamp) w) as T.
  cbn [start_of_run current_timestamp] in T.
  split; [ | split ].
  - intros E. subst today_timestamp.
    rewrite iterations_needed_one_step_apart in T. specialize (T Hf).
    unfold main in H. unfold start_of_run in T. rewrite H in T.
    destruct res as [l' | ]; [ | contradiction ].
    destruct T as (_ & Hc & Hi). split; [ exact Hi | ].
    exists l'. split; [ reflexivity | rewrite Hc; unfold week; lia ].
  - intros E.
    rewrite (iterations_needed_within_one_step _ _ E) in T. specialize (T ltac:(lia)).
    unfold main in H. unfold start_of_run in T. rewrite H in T.
    destruct res as [l' | ]; [ | contradiction ].
    destruct T as (_ & Hc & Hi). split; [ exact Hi | ].
    exists l'. split; [ reflexivity | rewrite Hc; unfold week; lia ].
  - intros E. unfold main in H.
    destruct fuel as [ | fuel]; [ lia | ]. cbn [while_loop current_timestamp] in H.
    replace (start_timestamp <=? today_timestamp) with false in H
      by (symmetry; apply Z.leb_gt; exact E).
    unfold ret in H. inversion H. split; reflexivity.
Qed.

Lemma one_step_apart_two_iterations_witness :
  (iterations (snd (main 3 0 (0 + 604800) two_weeks)) = (iterations two_weeks + 2)%nat /\
   exists l',
     fst (main 3 0 (0 + 604800) two_weeks) = Ok (Some l') /\
     current_timestamp l' = 0 + 2 * 604800) /\
  (iterations (snd (main 3 0 604799 two_weeks)) = (iterations two_weeks + 1)%nat /\
   exists l',
     fst (main 3 0 604799 two_weeks) = Ok (Some l') /\
     current_timestamp l' = 0 + 604800).
Proof.
  split.
  - destruct (one_step_apart_two_iterations 3 0 (0 + 604800) two_weeks
                (Some {| current_timestamp := 1209600;
                         pool_creation_data :=
                           Some {| b_totalInvariant := 12;
                                   b_totalSupply := Some 10%float;
                                   b_lastPrice := Some 1%float |} |})
                (snd (main 3 0 (0 + 604800) two_weeks)))
      as ((Hi & l' & Hl & Hc) & _).
    + lia.
    + vm_compute. reflexivity.
    + reflexivity.
    + split; [ exact Hi | ].
      exists l'. split; [ | exact Hc ].
      rewrite <- Hl. vm_compute. reflexivity.
  - destruct (one_step_apart_two_iterations 3 0 604799 two_weeks
                (Some {| current_timestamp := 604800;
                         pool_creation_data :=
                           Some {| b_totalInvariant := 12;
                                   b_totalSupply := Some 10%float;
                                   b_lastPrice := Some 1%float |} |})
                (snd (main 3 0 604799 two_weeks)))
      as (_ & H2 & _).
    + lia.
    + vm_compute. reflexivity.
    + destruct (H2 ltac:(lia)) as (Hi & l' & Hl & Hc).
      split; [ exact Hi | ].
      exists l'. split; [ | exact Hc ].
      rewrite <- Hl. vm_compute. reflexivity.
Defined.

(** C5, as stated, fails: from timestamp 0 to the bound 604800, one step
    later, the loop runs at 0 and again at 604800; it sends two block
    queries and writes two rows. *)
Lemma one_step_apart_counterexample :
  fst (main 3 0 604800 two_weeks)
  = Ok (Some {| current_timestamp := 1209600;
                pool_creation_data :=
                  Some {| b_totalInvariant := 12;
                          b_totalSupply := Some 10%float;
                          b_lastPrice := Some 1%float |} |}) /\
  map document (filter is_blocks_query (sent (snd (main 3 0 604800 two_weeks))))
  = [BlocksQuery 0; BlocksQuery 604800] /\
  map utcTimestamp (rows (snd (main 3 0 604800 two_weeks))) = [0; 604800] /\
  iterations (snd (main 3 0 604800 two_weeks)) = 2%nat /\
  iterations (snd (main 3 0 604800 two_weeks)) <> 1%nat.
Proof.
  repeat split; try (vm_compute; reflexivity).
  vm_compute. discriminate.
Qed.

(** The values [not block_number] takes for no block: [None], and also
    zero and the empty string, list and dict. *)
Lemma falsy_values :
  truthy PNone = false /\ truthy (PInt 0) = false /\
  truthy (PFloat 0) = false /\ truthy (PBool false) = false /\
  truthy (PStr EmptyString) = false /\ truthy (PList []) = false /\
  truthy (PDict []) = false.
Proof. repeat split. Qed.

(** C9: when the resolver returns a falsy block number, 0 and the empty
    string included, the iteration prints that no block was found and
    skips: the cursor moves one week on, the baseline stays, the one request
    sent is the block query, the pool subgraph is not asked and the file is
    not touched. *)
Theorem falsy_block_number_skips l w block_number w1 :
  get_block_from_timestamp (current_timestamp l) block_subgraph_url w
  = (Ok block_number, w1) ->
  truthy block_number = false ->
  let w' := snd (print (NoBlockFound (current_timestamp l)) w1) in
  loop_body l w = (Ok (advance l), w') /\
  sent w' = sent w ++ [{| url := block_subgraph_url;
                          document := BlocksQuery (current_timestamp l) |}] /\
  pool_queries w' = pool_queries w /\
  csv w' = csv w /\
  pool_creation_data (advance l) = pool_creation_data l.
Proof.
  intros Hb Hf w'.
  pose proof (get_block_from_timestamp_world (current_timestamp l) block_subgraph_url w) as G.
  rewrite Hb in G. simpl in G. destruct G as (_ & Gs & Gc).
  assert (Hs : sent w' = sent w ++ [{| url := block_subgraph_url;
                                       document := BlocksQuery (current_timestamp l) |}]).
  { subst w'. simpl. exact Gs. }
  repeat split.
  - unfold loop_body. rewrite (bind_ok _ _ _ _ _ Hb). rewrite Hf. reflexivity.
  - exact Hs.
  - unfold pool_queries. rewrite Hs, filter_app. simpl. apply app_nil_r.
  - subst w'. simpl. exact Gc.
Qed.

Lemma falsy_block_number_skips_witness :
  get_block_from_timestamp 0 block_subgraph_url genesis_week
  = (Ok (PInt 0), snd (get_block_from_timestamp 0 block_subgraph_url genesis_week)) /\
  fst (loop_body (start_of_run 0) genesis_week) = Ok (advance (start_of_run 0)) /\
  map document (sent (snd (loop_body (start_of_run 0) genesis_week))) = [BlocksQuery 0] /\
  pool_queries (snd (loop_body (start_of_run 0) genesis_week)) = [] /\
  csv (snd (loop_body (start_of_run 0) genesis_week)) = None.
Proof.
  assert (Hb : get_block_from_timestamp (current_timestamp (start_of_run 0))
                 block_subgraph_url genesis_week
               = (Ok (PInt 0),
                  snd (get_block_from_timestamp 0 block_subgraph_url genesis_week))).
  { vm_compute. reflexivity. }
  destruct (falsy_block_number_skips (start_of_run 0) genesis_week (PInt 0) _ Hb eq_refl)
    as (H1 & H2 & H3 & H4 & _).
  split; [ exact Hb | ].
  rewrite H1. cbn [fst snd].
  split; [ reflexivity | ].
  split; [ rewrite H2; reflexivity | ].
  split; [ rewrite H3; reflexivity | rewrite H4; reflexivity ].
Defined.

(** The same with the empty string for a block number. *)
Example empty_block_number_skips :
  fst (get_block_from_timestamp 0 block_subgraph_url unnamed_block_week)
  = Ok (PStr EmptyString) /\
  fst (loop_body (start_of_run 0) unnamed_block_week) = Ok (advance (start_of_run 0)) /\
  pool_queries (snd (loop_body (start_of_run 0) unnamed_block_week)) = [].
Proof. repeat split. Qed.

(** ** The baseline *)

Lemma add_ok_inv x y r :
  add_ x y = Ok r -> exists a b, x = Some a /\ y = Some b /\ r = (a + b)%float.
Proof.
  destruct x as [a | ], y as [b | ]; simpl; intros H; inversion H.
  exists a, b. repeat split.
Qed.

Lemma capture_first l s b :
  pool_creation_data l = None ->
  capture l s = Ok b ->
  exists li lbi,
    lp_invariant s = Some li /\ lp_borrowed_invariant s = Some lbi /\
    b = baseline_of li lbi s.
Proof.
  unfold capture. intros -> H. ok_inv H. inversion H; subst.
  apply add_ok_inv in H0. destruct H0 as (li & lbi & H1 & H2 & ->).
  exists li, lbi. repeat split; assumption.
Qed.

Lemma capture_later l s b0 b :
  pool_creation_data l = Some b0 -> capture l s = Ok b -> b = b0.
Proof. unfold capture. intros -> H. inversion H. reflexivity. Qed.

(** What an iteration that completes on a sample has done: the baseline it
    used and left, the unrounded metrics and the row it appended. *)
Lemma loop_body_row l w l' w' block_number s :
  loop_body l w = (Ok l', w') ->
  step_sample l w = Some (block_number, s) ->
  exists b ti ts lp x y,
    capture l s = Ok b /\
    pool_creation_data l' = Some b /\
    add_ (lp_invariant s) (lp_borrowed_invariant s) = Ok ti /\
    total_supply s = Some ts /\
    last_price s = Some lp /\
    total_lp_return_percent ti s b = Ok x /\
    spot_return_percent s b = Ok y /\
    rows w' = rows w ++ [row_of (current_timestamp l) block_number ti ts lp x y].
Proof.
  intros H Hs. apply loop_body_inv in H.
  destruct H as [(Hn & _) | (b' & s' & w3 & l1 & Hs' & Hd & -> & Hc & _)].
  - congruence.
  - rewrite Hs in Hs'. inversion Hs'; subst b' s'.
    apply derive_row_ok in Hd.
    destruct Hd as (b & ti & x & y & ts & lp & H1 & H2 & H3 & H4 & H5 & H6 & -> & _ & _ & Hr).
    exists b, ti, ts, lp, x, y. repeat split; try assumption.
    rewrite Hr. f_equal. unfold rows. rewrite Hc. reflexivity.
Qed.

(** A skipped iteration leaves the baseline and the rows as they were. *)
Lemma loop_body_skip l w l' w' :
  loop_body l w = (Ok l', w') ->
  step_sample l w = None ->
  l' = advance l /\ rows w' = rows w.
Proof.
  intros H Hs. apply loop_body_inv in H.
  destruct H as [(_ & -> & Hc & _) | (b' & s' & w3 & l1 & Hs' & _)].
  - split; [ reflexivity | unfold rows; rewrite Hc; reflexivity ].
  - congruence.
Qed.

(** Once set, the baseline is what every later iteration finds and leaves. *)
Lemma loop_body_keeps_baseline l w l' w' b :
  loop_body l w = (Ok l', w') ->
  pool_creation_data l = Some b ->
  pool_creation_data l' = Some b.
Proof.
  intros H Hb. destruct (step_sample l w) as [[bn s] | ] eqn:Hs.
  - destruct (loop_body_row _ _ _ _ _ _ H Hs) as (b' & ? & ? & ? & ? & ? & Hc & Hl & _).
    rewrite Hl. f_equal. exact (capture_later _ _ _ _ Hb Hc).
  - destruct (loop_body_skip _ _ _ _ H Hs) as (-> & _). exact Hb.
Qed.

Lemma iterate_keeps_baseline n b :
  forall l w l' w',
    iterate n l w = (Ok l', w') ->
    pool_creation_data l = Some b ->
    pool_creation_data l' = Some b.
Proof.
  induction n as [ | n IH]; intros l w l' w' H Hb.
  - simpl in H. apply ret_ok_inv in H. destruct H as [-> _]. exact Hb.
  - simpl in H. ok_inv H.
    apply (IH _ _ _ _ H). apply (loop_body_keeps_baseline _ _ _ _ _ H0 Hb).
Qed.

Lemma skips_keep_locals k l w l' w' :
  skips k l w l' w' ->
  pool_creation_data l' = pool_creation_data l /\
  current_timestamp l' = current_timestamp l + 604800 * Z.of_nat k /\
  rows w' = rows w.
Proof.
  induction 1 as [ l w | k l w l1 w1 l2 w2 Hb Hs _ (IH1 & IH2 & IH3)].
  - repeat split. simpl. lia.
  - destruct (loop_body_skip _ _ _ _ Hb Hs) as (-> & Hr).
    rewrite IH1, IH2, IH3, Hr. unfold advance, week. simpl current_timestamp.
    simpl pool_creation_data. repeat split. lia.
Qed.

(** C2: in a run whose first [k] iterations skip and whose next one
    normalizes a sample and completes, that iteration sets the baseline to
    the sample's values, [lpInvariant + lpBorrowedInvariant], [totalSupply]
    and [lastPrice]; no iteration before it had set one; after any number
    [n] of further iterations the baseline is the same; and the metrics of
    the row a later iteration writes are computed against it. *)
Theorem baseline_set_once k n l0 w0 lk wk l1 w1 l2 w2 block_number s :
  pool_creation_data l0 = None ->
  skips k l0 w0 lk wk ->
  loop_body lk wk = (Ok l1, w1) ->
  step_sample lk wk = Some (block_number, s) ->
  iterate n l1 w1 = (Ok l2, w2) ->
  exists li lbi,
    lp_invariant s = Some li /\
    lp_borrowed_invariant s = Some lbi /\
    let b := {| b_totalInvariant := (li + lbi)%float;
                b_totalSupply := total_supply s;
                b_lastPrice := last_price s |} in
    pool_creation_data lk = None /\
    pool_creation_data l1 = Some b /\
    pool_creation_data l2 = Some b /\
    forall l3 w3 block_number' s',
      loop_body l2 w2 = (Ok l3, w3) ->
      step_sample l2 w2 = Some (block_number', s') ->
      pool_creation_data l3 = Some b /\
      exists ti x y row,
        add_ (lp_invariant s') (lp_borrowed_invariant s') = Ok ti /\
        total_lp_return_percent ti s' b = Ok x /\
        spot_return_percent s' b = Ok y /\
        rows w3 = rows w2 ++ [row] /\
        totalLPReturnPercent row = Some (round x 6) /\
        spotReturnPercent row = Some (round y 6).
Proof.
  intros H0 Hk Hb Hs Hn.
  destruct (skips_keep_locals _ _ _ _ _ Hk) as (Hp & _ & _).
  rewrite H0 in Hp.
  destruct (loop_body_row _ _ _ _ _ _ Hb Hs)
    as (b & ti & ts & lp & x & y & Hc & Hl1 & _).
  destruct (capture_first _ _ _ Hp Hc) as (li & lbi & Hli & Hlbi & ->).
  exists li, lbi. split; [ exact Hli | ]. split; [ exact Hlbi | ].
  fold (baseline_of li lbi s). cbv zeta.
  assert (Hl2 : pool_creation_data l2 = Some (baseline_of li lbi s))
    by exact (iterate_keeps_baseline _ _ _ _ _ _ Hn Hl1).
  repeat split; try assumption.
  - exact (loop_body_keeps_baseline _ _ _ _ _ H Hl2).
  - destruct (loop_body_row _ _ _ _ _ _ H H1)
      as (b' & ti' & ts' & lp' & x' & y' & Hc' & _ & Ha & _ & _ & Hx & Hy & Hr).
    rewrite (capture_later _ _ _ _ Hl2 Hc') in Hx, Hy.
    exists ti', x', y', (row_of (current_timestamp l2) block_number' ti' ts' lp' x' y').
    repeat split; assumption.
Qed.

Lemma baseline_set_once_witness :
  pool_creation_data (start_of_run 0) = None /\
  (exists l3 w3,
      iterate 3 (start_of_run 0) late_start = (Ok l3, w3) /\
      pool_creation_data l3
      = Some {| b_totalInvariant := (12 + 0)%float;
                b_totalSupply := Some 10%float;
                b_lastPrice := Some 1%float |}).
Proof.
  split; [ reflexivity | ].
  exists {| current_timestamp := 1814400;
            pool_creation_data :=
              Some {| b_totalInvariant := 12;
                      b_totalSupply := Some 10%float;
                      b_lastPrice := Some 1%float |} |},
         (snd (iterate 3 (start_of_run 0) late_start)).
  split; [ vm_compute; reflexivity | ].
  destruct (baseline_set_once 1 1
              (start_of_run 0) late_start
              (advance (start_of_run 0))
              (snd (loop_body (start_of_run 0) late_start))
              {| current_timestamp := 1209600;
                 pool_creation_data :=
                   Some {| b_totalInvariant := 12;
                           b_totalSupply := Some 10%float;
                           b_lastPrice := Some 1%float |} |}
              (snd (iterate 2 (start_of_run 0) late_start))
              {| current_timestamp := 1814400;
                 pool_creation_data :=
                   Some {| b_totalInvariant := 12;
                           b_totalSupply := Some 10%float;
                           b_lastPrice := Some 1%float |} |}
              (snd (iterate 3 (start_of_run 0) late_start))
              (PInt 100)
              {| lp_invariant := Some 12%float;
                 lp_borrowed_invariant := Some 0%float;
                 last_price := Some 1%float;
                 total_supply := Some 10%float |})
    as (li & lbi & Hli & Hlbi & _ & _ & H2 & _).
  - reflexivity.
  - apply skips_S with (l1 := advance (start_of_run 0))
                       (w1 := snd (loop_body (start_of_run 0) late_start)).
    + vm_compute. reflexivity.
    + vm_compute. reflexivity.
    + apply skips_O.
  - vm_compute. reflexivity.
  - vm_compute. reflexivity.
  - vm_compute. reflexivity.
  - simpl in Hli, Hlbi. inversion Hli. inversion Hlbi. subst li lbi.
    exact H2.
Defined.

(** ** The metrics *)

Lemma truediv_ok_inv x y r :
  truediv x y = Ok r -> (y =? 0)%float = false /\ r = (x / y)%float.
Proof.
  unfold truediv. destruct (y =? 0)%float; intros H; inversion H.
  split; reflexivity.
Qed.

Lemma truediv__ok_inv x y r :
  truediv_ x y = Ok r ->
  exists a b, x = Some a /\ y = Some b /\ (b =? 0)%float = false /\ r = (a / b)%float.
Proof.
  destruct x as [a | ], y as [b | ]; simpl; intros H; try discriminate.
  apply truediv_ok_inv in H. destruct H as (H1 & H2).
  exists a, b. repeat split; assumption.
Qed.

Lemma math_sqrt_ok_inv x r : math_sqrt x = Ok r -> r = PrimFloat.sqrt x.
Proof.
  unfold math_sqrt. destruct (_ && _); intros H; inversion H. reflexivity.
Qed.

(** The value of [total_lp_return_percent] when its evaluation completes. *)
Lemma total_lp_return_percent_ok ti s b x :
  total_lp_return_percent ti s b = Ok x ->
  exists ts bts lp blp,
    total_supply s = Some ts /\ b_totalSupply b = Some bts /\
    last_price s = Some lp /\ b_lastPrice b = Some blp /\
    x = (ti / b_totalInvariant b / (ts / bts) * PrimFloat.sqrt (lp / blp) - 1)%float.
Proof.
  unfold total_lp_return_percent. intros H.
  ok_inv H. apply truediv_ok_inv in H0. destruct H0 as (_ & ->).
  ok_inv H. apply truediv__ok_inv in H0.
  destruct H0 as (ts & bts & Hts & Hbts & _ & ->).
  ok_inv H. apply truediv_ok_inv in H0. destruct H0 as (_ & ->).
  ok_inv H. apply truediv__ok_inv in H0.
  destruct H0 as (lp & blp & Hlp & Hblp & _ & ->).
  ok_inv H. apply math_sqrt_ok_inv in H0. subst.
  inversion H; subst.
  exists ts, bts, lp, blp. repeat split; assumption.
Qed.

Lemma float_neq (a b : float) :
  (b =? b)%float = true -> (a =? b)%float = false -> a <> b.
Proof. intros Hb Hab E. subst. congruence. Qed.

(** C1, as the code has it: an iteration that normalizes a sample and
    completes leaves a baseline [b] (the one it found, if there was one) and
    appends a row whose [totalLPReturnPercent] is the value of
    [((totalInvariant / b.totalInvariant) / (totalSupply / b.totalSupply))
     * sqrt(lastPrice / b.lastPrice) - 1],
    with [totalInvariant = lpInvariant + lpBorrowedInvariant], rounded to 6
    decimal places. *)
Theorem emitted_lp_return_is_formula_rounded l w l' w' block_number s :
  loop_body l w = (Ok l', w') ->
  step_sample l w = Some (block_number, s) ->
  exists b li lbi ts lp bts blp row,
    pool_creation_data l' = Some b /\
    (forall b0, pool_creation_data l = Some b0 -> b = b0) /\
    lp_invariant s = Some li /\ lp_borrowed_invariant s = Some lbi /\
    total_supply s = Some ts /\ last_price s = Some lp /\
    b_totalSupply b = Some bts /\ b_lastPrice b = Some blp /\
    rows w' = rows w ++ [row] /\
    totalLPReturnPercent row
    = Some (round ((li + lbi) / b_totalInvariant b / (ts / bts)
                   * PrimFloat.sqrt (lp / blp) - 1)%float 6).
Proof.
  intros H Hs.
  destruct (loop_body_row _ _ _ _ _ _ H Hs)
    as (b & ti & ts & lp & x & y & Hc & Hl & Ha & Hts & Hlp & Hx & _ & Hr).
  apply add_ok_inv in Ha. destruct Ha as (li & lbi & Hli & Hlbi & ->).
  apply total_lp_return_percent_ok in Hx.
  destruct Hx as (ts' & bts & lp' & blp & Hts' & Hbts & Hlp' & Hblp & ->).
  rewrite Hts in Hts'. rewrite Hlp in Hlp'. inversion Hts'. inversion Hlp'. subst ts' lp'.
  exists b, li, lbi, ts, lp, bts, blp,
    (row_of (current_timestamp l) block_number (li + lbi) ts lp
       ((li + lbi) / b_totalInvariant b / (ts / bts) * PrimFloat.sqrt (lp / blp) - 1)
       y).
  repeat split; try assumption.
  intros b0 Hb0. exact (capture_later _ _ _ _ Hb0 Hc).
Qed.

Lemma emitted_lp_return_is_formula_rounded_witness :
  exists row,
    rows (snd (loop_body second_week_locals second_week))
    = rows second_week ++ [row] /\
    totalLPReturnPercent row
    = Some (round ((12 + 0) / 12 / (30 / 10) * PrimFloat.sqrt (1 / 1) - 1)%float 6).
Proof.
  destruct (emitted_lp_return_is_formula_rounded
              second_week_locals second_week
              {| current_timestamp := 1209600;
                 pool_creation_data := pool_creation_data second_week_locals |}
              (snd (loop_body second_week_locals second_week))
              (PInt 200)
              {| lp_invariant := Some 12%float;
                 lp_borrowed_invariant := Some 0%float;
                 last_price := Some 1%float;
                 total_supply := Some 30%float |})
    as (b & li & lbi & ts & lp & bts & blp & row
        & _ & Hb & Hli & Hlbi & Hts & Hlp & Hbts & Hblp & Hr & Hx).
  - vm_compute. reflexivity.
  - vm_compute. reflexivity.
  - rewrite (Hb _ eq_refl) in *.
    simpl in Hli, Hlbi, Hts, Hlp, Hbts, Hblp.
    inversion Hli. inversion Hlbi. inversion Hts. inversion Hlp.
    inversion Hbts. inversion Hblp. subst.
    exists row. split; [ exact Hr | exact Hx ].
Defined.

(** C1, as stated, fails: in the second week of [two_weeks] the baseline is
    (12, 10, 1) and the sample (12 + 0, 30, 1); the formula gives
    [1/3 - 1] in binary64, and the row holds that value rounded to 6
    decimals, the float nearest to -0.666667. *)
Lemma emitted_lp_return_counterexample :
  pool_creation_data second_week_locals
  = Some {| b_totalInvariant := 12;
            b_totalSupply := Some 10%float;
            b_lastPrice := Some 1%float |} /\
  step_sample second_week_locals second_week
  = Some (PInt 200, {| lp_invariant := Some 12%float;
                       lp_borrowed_invariant := Some 0%float;
                       last_price := Some 1%float;
                       total_supply := Some 30%float |}) /\
  fst (loop_body second_week_locals second_week)
  = Ok {| current_timestamp := 1209600;
          pool_creation_data := pool_creation_data second_week_locals |} /\
  map totalLPReturnPercent (rows (snd (loop_body second_week_locals second_week)))
  = [Some 0%float; Some (-666667 / 1000000)%float] /\
  ((12 + 0) / 12 / (30 / 10) * PrimFloat.sqrt (1 / 1) - 1)%float = (1 / 3 - 1)%float /\
  (-666667 / 1000000)%float
  <> ((12 + 0) / 12 / (30 / 10) * PrimFloat.sqrt (1 / 1) - 1)%float.
Proof.
  repeat split; try (vm_compute; reflexivity).
  apply float_neq; vm_compute; reflexivity.
Qed.

(** *** A float divided by itself *)

Lemma div_eucl_shift m : Z.div_eucl (Z.shiftl (Zpos m) 53) (Zpos m) = (2 ^ 53, 0).
Proof.
  rewrite Z.shiftl_mul_pow2 by lia.
  assert (Hq : (Zpos m * 2 ^ 53) / Zpos m = 2 ^ 53).
  { rewrite Z.mul_comm. apply Z.div_mul. lia. }
  assert (Hr : (Zpos m * 2 ^ 53) mod Zpos m = 0).
  { rewrite Z.mul_comm. apply Z.mod_mul. lia. }
  unfold Z.div, Z.modulo in Hq, Hr.
  destruct (Z.div_eucl (Zpos m * 2 ^ 53) (Zpos m)) as [q r].
  simpl in Hq, Hr. subst. reflexivity.
Qed.

(** In binary64 [x / x] is exactly 1 for every finite nonzero [x]: the
    quotient of the mantissas is a power of two, so nothing is rounded. *)
Lemma div_self x : finite_nonzero x = true -> (x / x)%float = 1%float.
Proof.
  unfold finite_nonzero. intros H.
  rewrite <- (SF2Prim_Prim2SF (x / x)), div_spec.
  destruct (Prim2SF x) as [ | | | s m e]; try discriminate.
  unfold SF64div, SFdiv, SFdiv_core_binary.
  rewrite !Z.sub_diag.
  change (Z.min (fexp prec emax 0) 0) with (-53).
  change (0 - -53) with 53.
  cbv beta iota zeta. rewrite div_eucl_shift.
  replace (new_location (Zpos m) 0) with loc_Exact.
  2:{ unfold new_location, new_location_even, new_location_odd.
      destruct (Z.even _); reflexivity. }
  destruct s; vm_compute; reflexivity.
Qed.

Lemma finite_nonzero_not_zero x :
  finite_nonzero x = true -> (x =? 0)%float = false.
Proof.
  unfold finite_nonzero. intros H. rewrite eqb_spec.
  destruct (Prim2SF x) as [ | | | s m e]; try discriminate.
  destruct s; reflexivity.
Qed.

Lemma truediv_self x : finite_nonzero x = true -> truediv x x = Ok 1%float.
Proof.
  intros H. unfold truediv.
  rewrite (finite_nonzero_not_zero x H), (div_self x H). reflexivity.
Qed.

(** Against the baseline taken from the sample itself, both metrics are 0. *)
Lemma returns_against_own_baseline s ti ts lp :
  total_supply s = Some ts -> last_price s = Some lp ->
  finite_nonzero ti = true -> finite_nonzero ts = true -> finite_nonzero lp = true ->
  let b := {| b_totalInvariant := ti;
              b_totalSupply := total_supply s;
              b_lastPrice := last_price s |} in
  total_lp_return_percent ti s b = Ok 0%float /\
  spot_return_percent s b = Ok 0%float.
Proof.
  intros Hts Hlp Fti Fts Flp b. subst b.
  unfold total_lp_return_percent, spot_return_percent.
  cbn [b_totalInvariant b_totalSupply b_lastPrice].
  rewrite Hts, Hlp. cbn [truediv_].
  rewrite (truediv_self ti Fti), (truediv_self ts Fts), (truediv_self lp Flp).
  split; vm_compute; reflexivity.
Qed.

(** C6: at the iteration that captures the baseline, when the captured
    total invariant, total supply and last price are finite and nonzero,
    the two metrics computed are exactly 0 and so are the two the row holds. *)
Theorem baseline_step_returns_are_zero l w l' w' block_number s ti ts lp :
  pool_creation_data l = None ->
  loop_body l w = (Ok l', w') ->
  step_sample l w = Some (block_number, s) ->
  add_ (lp_invariant s) (lp_borrowed_invariant s) = Ok ti ->
  total_supply s = Some ts ->
  last_price s = Some lp ->
  finite_nonzero ti = true ->
  finite_nonzero ts = true ->
  finite_nonzero lp = true ->
  let b := {| b_totalInvariant := ti;
              b_totalSupply := Some ts;
              b_lastPrice := Some lp |} in
  pool_creation_data l' = Some b /\
  total_lp_return_percent ti s b = Ok 0%float /\
  spot_return_percent s b = Ok 0%float /\
  exists row,
    rows w' = rows w ++ [row] /\
    totalLPReturnPercent row = Some 0%float /\
    spotReturnPercent row = Some 0%float.
Proof.
  intros H0 H Hs Ha Hts Hlp Fti Fts Flp b.
  destruct (loop_body_row _ _ _ _ _ _ H Hs)
    as (b' & ti' & ts' & lp' & x & y & Hc & Hl & Ha' & _ & _ & Hx & Hy & Hr).
  rewrite Ha in Ha'. inversion Ha'. subst ti'.
  destruct (capture_first _ _ _ H0 Hc) as (li & lbi & Hli & Hlbi & ->).
  assert (Eb : baseline_of li lbi s = b).
  { unfold baseline_of, b. rewrite Hli, Hlbi in Ha. inversion Ha.
    rewrite Hts, Hlp. reflexivity. }
  rewrite Eb in *.
  destruct (returns_against_own_baseline s ti ts lp Hts Hlp Fti Fts Flp) as (Z1 & Z2).
  rewrite Hts, Hlp in Z1, Z2. fold b in Z1, Z2.
  rewrite Z1 in Hx. rewrite Z2 in Hy. inversion Hx. inversion Hy. subst x y.
  repeat split; try assumption.
  eexists. split; [ exact Hr | split; reflexivity ].
Qed.

Lemma baseline_step_returns_are_zero_witness :
  exists row,
    rows (snd (loop_body (start_of_run 0) one_week)) = rows one_week ++ [row] /\
    totalLPReturnPercent row = Some 0%float /\
    spotReturnPercent row = Some 0%float.
Proof.
  destruct (baseline_step_returns_are_zero
              (start_of_run 0) one_week
              {| current_timestamp := 604800;
                 pool_creation_data :=
                   Some {| b_totalInvariant := 12;
                           b_totalSupply := Some 10%float;
                           b_lastPrice := Some 1%float |} |}
              (snd (loop_body (start_of_run 0) one_week))
              (PInt 100)
              {| lp_invariant := Some 12%float;
                 lp_borrowed_invariant := Some 0%float;
                 last_price := Some 1%float;
                 total_supply := Some 10%float |}
              12%float 10%float 1%float)
    as (_ & _ & _ & H).
  - reflexivity.
  - vm_compute. reflexivity.
  - vm_compute. reflexivity.
  - vm_compute. reflexivity.
  - reflexivity.
  - reflexivity.
  - vm_compute. reflexivity.
  - vm_compute. reflexivity.
  - vm_compute. reflexivity.
  - exact H.
Defined.

(** ** What the rows already written cannot change *)

Lemma blind_ret {A} (a : A) : blind (ret a).
Proof.
  intros w1 w2 S. repeat split; try apply S.
  exists []. simpl. rewrite !app_nil_r. split; reflexivity.
Qed.

Lemma blind_lift {A} (r : result A) : blind (lift r).
Proof.
  intros w1 w2 S. repeat split; try apply S.
  exists []. simpl. rewrite !app_nil_r. split; reflexivity.
Qed.

Lemma blind_print m : blind (print m).
Proof.
  intros w1 w2 S. repeat split; try apply S.
  exists []. simpl. rewrite !app_nil_r. split; reflexivity.
Qed.

Lemma blind_requests_post u q : blind (requests_post u q).
Proof.
  intros w1 w2 (Sn & Ss). unfold requests_post. simpl. repeat split.
  - rewrite Sn, Ss. reflexivity.
  - exact Sn.
  - simpl. rewrite !length_app, Ss. reflexivity.
  - exists []. unfold rows. simpl. rewrite !app_nil_r. split; reflexivity.
Qed.

Lemma blind_save_to_csv row : blind (save_to_csv row).
Proof.
  intros w1 w2 S. repeat split; try apply S.
  exists [row]. rewrite !rows_save_to_csv. split; reflexivity.
Qed.

Lemma blind_bind {A B} (c : M A) (k : A -> M B) :
  blind c -> (forall a, blind (k a)) -> blind (bind c k).
Proof.
  intros Hc Hk w1 w2 S.
  destruct (Hc w1 w2 S) as (E & S' & added & R1 & R2).
  unfold bind.
  destruct (c w1) as [[a1 | e1] v1], (c w2) as [[a2 | e2] v2];
    simpl in E, S', R1, R2; inversion E; subst.
  - destruct (Hk a2 v1 v2 S') as (E2 & S2 & added2 & Q1 & Q2).
    repeat split; try assumption; try apply S2.
    exists (added ++ added2).
    rewrite Q1, Q2, R1, R2, !app_assoc. split; reflexivity.
  - simpl. repeat split; try apply S'.
    exists added. split; assumption.
Qed.

Lemma blind_if {A} (b : bool) (c1 c2 : M A) :
  blind c1 -> blind c2 -> blind (if b then c1 else c2).
Proof. destruct b; auto. Qed.

Ltac blind_auto :=
  repeat first
    [ apply blind_print
    | apply blind_requests_post
    | apply blind_save_to_csv
    | apply blind_ret
    | apply blind_lift
    | apply blind_bind; [ | intros ? ]
    | apply blind_if ].

Lemma blind_normalize_value v d : blind (normalize_value v d).
Proof.
  unfold normalize_value.
  destruct (rbind _ _) as [r | e]; [ | destruct e ]; blind_auto.
Qed.

Lemma blind_read_sample pool_data : blind (read_sample pool_data).
Proof.
  unfold read_sample.
  repeat first [ apply blind_normalize_value | progress blind_auto ].
Qed.

Lemma blind_get_block_from_timestamp t u : blind (get_block_from_timestamp t u).
Proof. unfold get_block_from_timestamp. blind_auto. Qed.

Lemma blind_query_pool_at_block u p b : blind (query_pool_at_block u p b).
Proof. unfold query_pool_at_block. blind_auto. Qed.

Lemma blind_derive_row l b s : blind (derive_row l b s).
Proof. unfold derive_row. blind_auto. Qed.

Lemma blind_loop_body l : blind (loop_body l).
Proof.
  unfold loop_body.
  repeat first
    [ apply blind_get_block_from_timestamp
    | apply blind_query_pool_at_block
    | apply blind_read_sample
    | apply blind_derive_row
    | apply blind_normalize_value
    | progress blind_auto ].
Qed.

Lemma blind_iterate n : forall l, blind (iterate n l).
Proof.
  induction n as [ | n IH]; intros l; simpl.
  - apply blind_ret.
  - apply blind_bind; [ apply blind_loop_body | exact IH ].
Qed.

(** C10: [round(_, 6)] is applied to the fields of the row and to nothing
    else.  An iteration that normalizes a sample and completes stores as
    baseline, when there was none, the unrounded sum of the invariants, the
    unrounded supply and the unrounded price, and keeps the baseline it
    found otherwise; it computes both metrics from the unrounded sample and
    that baseline; the row holds the roundings.  And what the file holds
    is never read: two runs of any number of iterations from the same
    variables, in worlds that differ in the rows written so far (and in
    what was printed), give the same result and append the same rows. *)
Theorem rounding_is_applied_to_the_row_only :
  (forall l w l' w' block_number s,
      loop_body l w = (Ok l', w') ->
      step_sample l w = Some (block_number, s) ->
      exists b ti ts lp x y,
        pool_creation_data l' = Some b /\
        (pool_creation_data l = None ->
         b = {| b_totalInvariant := ti;
                b_totalSupply := Some ts;
                b_lastPrice := Some lp |}) /\
        (forall b0, pool_creation_data l = Some b0 -> b = b0) /\
        add_ (lp_invariant s) (lp_borrowed_invariant s) = Ok ti /\
        total_supply s = Some ts /\
        last_price s = Some lp /\
        total_lp_return_percent ti s b = Ok x /\
        spot_return_percent s b = Ok y /\
        rows w' = rows w ++
          [{| utcTimestamp := current_timestamp l;
              blockNumber := block_number;
              totalInvariant := round ti 6;
              totalSupply := round ts 6;
              lastPrice := round lp 6;
              totalLPReturnPercent := Some (round x 6);
              spotReturnPercent := Some (round y 6) |}]) /\
  (forall n l w1 w2,
      same_answers w1 w2 ->
      fst (iterate n l w1) = fst (iterate n l w2) /\
      exists added,
        rows (snd (iterate n l w1)) = rows w1 ++ added /\
        rows (snd (iterate n l w2)) = rows w2 ++ added).
Proof.
  split.
  - intros l w l' w' bn s H Hs.
    destruct (loop_body_row _ _ _ _ _ _ H Hs)
      as (b & ti & ts & lp & x & y & Hc & Hl & Ha & Hts & Hlp & Hx & Hy & Hr).
    exists b, ti, ts, lp, x, y. repeat split; try assumption.
    + intros H0. destruct (capture_first _ _ _ H0 Hc) as (li & lbi & Hli & Hlbi & ->).
      unfold baseline_of. rewrite Hli, Hlbi in Ha. inversion Ha.
      rewrite Hts, Hlp. reflexivity.
    + intros b0 Hb0. exact (capture_later _ _ _ _ Hb0 Hc).
  - intros n l w1 w2 S.
    destruct (blind_iterate n l w1 w2 S) as (E & _ & added & R1 & R2).
    split; [ exact E | ]. exists added. split; assumption.
Qed.

Lemma rounding_is_applied_to_the_row_only_witness :
  (exists l2 w2,
      iterate 2 (start_of_run 0) small_pool = (Ok l2, w2) /\
      pool_creation_data l2
      = Some {| b_totalInvariant := (15 / 10000000)%float;
                b_totalSupply := Some 10%float;
                b_lastPrice := Some 1%float |} /\
      map totalInvariant (rows w2)
      = [(2 / 1000000)%float; (3 / 1000000)%float] /\
      map totalLPReturnPercent (rows w2) = [Some 0%float; Some 1%float]) /\
  fst (iterate 1 second_week_locals second_week)
  = fst (iterate 1 second_week_locals (with_csv None second_week)).
Proof.
  split.
  - destruct (proj1 rounding_is_applied_to_the_row_only
                (start_of_run 0) small_pool
                {| current_timestamp := 604800;
                   pool_creation_data :=
                     Some {| b_totalInvariant := (15 / 10000000)%float;
                             b_totalSupply := Some 10%float;
                             b_lastPrice := Some 1%float |} |}
                (snd (loop_body (start_of_run 0) small_pool))
                (PInt 100)
                {| lp_invariant := Some (15 / 10000000)%float;
                   lp_borrowed_invariant := Some 0%float;
                   last_price := Some 1%float;
                   total_supply := Some 10%float |})
      as (b & ti & ts & lp & x & y & Hb & _).
    + vm_compute. reflexivity.
    + vm_compute. reflexivity.
    + exists {| current_timestamp := 1209600; pool_creation_data := Some b |},
             (snd (iterate 2 (start_of_run 0) small_pool)).
      cbn [pool_creation_data] in Hb. injection Hb as <-.
      split; [ vm_compute; reflexivity | ].
      split; [ reflexivity | ].
      split; vm_compute; reflexivity.
  - apply (proj2 rounding_is_applied_to_the_row_only 1%nat second_week_locals
             second_week (with_csv None second_week)).
    split; vm_compute; reflexivity.
Defined.

(** ** Values that do not normalize *)

(** An iteration that completes on a sample had four floats to work with. *)
Lemma completed_sample_has_no_none l w l' w' block_number s :
  loop_body l w = (Ok l', w') ->
  step_sample l w = Some (block_number, s) ->
  lp_invariant s <> None /\ lp_borrowed_invariant s <> None /\
  last_price s <> None /\ total_supply s <> None.
Proof.
  intros H Hs.
  destruct (loop_body_row _ _ _ _ _ _ H Hs)
    as (b & ti & ts & lp & x & y & _ & _ & Ha & Hts & Hlp & _).
  apply add_ok_inv in Ha. destruct Ha as (li & lbi & Hli & Hlbi & _).
  rewrite Hli, Hlbi, Hts, Hlp. repeat split; discriminate.
Qed.

(** So an iteration whose sample holds a [None] does not skip: it raises. *)
Lemma none_in_sample_raises l w block_number s :
  step_sample l w = Some (block_number, s) ->
  lp_invariant s = None \/ lp_borrowed_invariant s = None \/
  last_price s = None \/ total_supply s = None ->
  exists e, fst (loop_body l w) = Raise e.
Proof.
  intros Hs Hn. destruct (loop_body l w) as [[l' | e] w'] eqn:H.
  - destruct (completed_sample_has_no_none _ _ _ _ _ _ H Hs) as (H1 & H2 & H3 & H4).
    destruct Hn as [Hn | [Hn | [Hn | Hn]]]; contradiction.
  - exists e. reflexivity.
Qed.

(** C3, on the code: a [null] invariant is normalized to [None] (the error
    is printed), and line 122 then adds [None] to a float: the run ends with
    [TypeError] in its first iteration, with no row written and the second,
    sound, week never asked for.  A [totalSupply] that is no number ends the
    run the same way, at line 138. *)
Theorem none_after_normalization_ends_the_run :
  fst (main 3 0 604800 null_invariant) = Raise TypeError /\
  stdout (snd (main 3 0 604800 null_invariant))
  = [FoundBlock (PInt 100) 0; DataRetrieved (PInt 100); ErrorNormalizing PNone] /\
  rows (snd (main 3 0 604800 null_invariant)) = [] /\
  iterations (snd (main 3 0 604800 null_invariant)) = 1%nat /\
  fst (main 3 0 604800 unparsable_supply) = Raise TypeError /\
  rows (snd (main 3 0 604800 unparsable_supply)) = [] /\
  iterations (snd (main 3 0 604800 unparsable_supply)) = 1%nat.
Proof.
  split; [ vm_compute; reflexivity | ].
  split; [ vm_compute; reflexivity | ].
  split; [ vm_compute; reflexivity | ].
  split; [ vm_compute; reflexivity | ].
  split; [ vm_compute; reflexivity | ].
  split; vm_compute; reflexivity.
Qed.

(** What [normalize_value] does with the two constants the script passes:
    it divides what [float()] gives, returns [None] on the two exceptions it
    catches and lets any other through. *)
Lemma normalize_value_12 v w :
  normalize_value v 12 w =
  match float_ v with
  | Ok x => (Ok (Some (x / 1000000000000)%float), w)
  | Raise TypeError | Raise ValueError => (Ok None, snd (print (ErrorNormalizing v) w))
  | Raise e => (Raise e, w)
  end.
Proof.
  unfold normalize_value.
  change (float_of_int (10 ^ Z.of_N 12)) with (Ok 1000000000000%float).
  destruct (float_ v) as [x | e]; [ | destruct e; reflexivity ].
  reflexivity.
Qed.

Lemma normalize_value_6 v w :
  normalize_value v 6 w =
  match float_ v with
  | Ok x => (Ok (Some (x / 1000000)%float), w)
  | Raise TypeError | Raise ValueError => (Ok None, snd (print (ErrorNormalizing v) w))
  | Raise e => (Raise e, w)
  end.
Proof.
  unfold normalize_value.
  change (float_of_int (10 ^ Z.of_N 6)) with (Ok 1000000%float).
  destruct (float_ v) as [x | e]; [ | destruct e; reflexivity ].
  reflexivity.
Qed.

(** C7, on the code: [normalize_value] catches [TypeError] and [ValueError]
    only.  An int too large for a float makes [float(value)] raise
    [OverflowError], and so does a power of ten too large for one in the
    division; both pass through [normalize_value] to its caller, with
    nothing printed.  The values it is meant for come out as documented. *)
Theorem normalize_value_lets_overflow_through :
  (forall w, normalize_value (PInt (10 ^ 400)) 12 w = (Raise OverflowError, w)) /\
  (forall w, normalize_value (PInt 1) 400 w = (Raise OverflowError, w)) /\
  (forall w, normalize_value (PStr "12000000000000") 12 w = (Ok (Some 12%float), w)) /\
  (forall w, normalize_value (PStr "abc") 12 w
             = (Ok None, snd (print (ErrorNormalizing (PStr "abc")) w))) /\
  (forall w, normalize_value PNone 12 w
             = (Ok None, snd (print (ErrorNormalizing PNone) w))).
Proof.
  split; [ intros w; rewrite normalize_value_12; vm_compute; reflexivity | ].
  split; [ intros w; unfold normalize_value; vm_compute; reflexivity | ].
  split; [ intros w; rewrite normalize_value_12; vm_compute; reflexivity | ].
  split; intros w; rewrite normalize_value_12; reflexivity.
Qed.

(** ** Dividing by a power of ten and multiplying back *)

(** The floats of the script are binary64 numbers: the operations are those
    of [SpecFloat], rounding to nearest even.  What follows bounds the error
    of each rounding against the real number rounded. *)

(** *** Binary digits and powers of two *)

Lemma digits2_pos_bounds p :
  2 ^ (Zpos (digits2_pos p) - 1) <= Zpos p < 2 ^ Zpos (digits2_pos p).
Proof.
  induction p as [p IH | p IH | ]; simpl digits2_pos.
  - rewrite Pos2Z.inj_succ.
    replace (Z.succ (Zpos (digits2_pos p)) - 1) with (Zpos (digits2_pos p)) by lia.
    rewrite Z.pow_succ_r by lia.
    assert (H : 2 ^ Zpos (digits2_pos p) = 2 * 2 ^ (Zpos (digits2_pos p) - 1)).
    { rewrite <- Z.pow_succ_r by lia. f_equal. lia. }
    lia.
  - rewrite Pos2Z.inj_succ.
    replace (Z.succ (Zpos (digits2_pos p)) - 1) with (Zpos (digits2_pos p)) by lia.
    rewrite Z.pow_succ_r by lia.
    assert (H : 2 ^ Zpos (digits2_pos p) = 2 * 2 ^ (Zpos (digits2_pos p) - 1)).
    { rewrite <- Z.pow_succ_r by lia. f_equal. lia. }
    lia.
  - simpl. lia.
Qed.

Lemma Zdigits2_bounds m :
  0 < m -> 2 ^ (Zdigits2 m - 1) <= m < 2 ^ Zdigits2 m.
Proof.
  destruct m as [ | p | p]; try lia. intros _. apply digits2_pos_bounds.
Qed.

Lemma Zdigits2_pos m : 0 < m -> 0 < Zdigits2 m.
Proof. destruct m; simpl; lia. Qed.

Lemma Zdigits2_unique m d :
  0 < m -> 2 ^ (d - 1) <= m < 2 ^ d -> Zdigits2 m = d.
Proof.
  intros Hm [H1 H2].
  destruct (Zdigits2_bounds m Hm) as [B1 B2].
  pose proof (Zdigits2_pos m Hm) as Hp.
  assert (0 < d).
  { destruct d as [ | d | d]; [ simpl in H2; lia | lia | ].
    rewrite Z.pow_neg_r in H2 by lia. lia. }
  destruct (Z_lt_le_dec (Zdigits2 m) d).
  - assert (2 ^ Zdigits2 m <= 2 ^ (d - 1)) by (apply Z.pow_le_mono_r; lia). lia.
  - destruct (Z_lt_le_dec d (Zdigits2 m)); [ | lia].
    assert (2 ^ d <= 2 ^ (Zdigits2 m - 1)) by (apply Z.pow_le_mono_r; lia). lia.
Qed.

Lemma bpow_add a b : bpow (a + b) = (bpow a * bpow b)%R.
Proof. unfold bpow. apply powerRZ_add. lra. Qed.

Lemma bpow_pos e : (0 < bpow e)%R.
Proof. unfold bpow. apply powerRZ_lt. lra. Qed.

Lemma bpow_0 : bpow 0 = 1%R.
Proof. reflexivity. Qed.

Lemma bpow_1 : bpow 1 = 2%R.
Proof. unfold bpow. simpl. lra. Qed.

Lemma bpow_succ e : bpow (e + 1) = (2 * bpow e)%R.
Proof. rewrite bpow_add, bpow_1. lra. Qed.

Lemma bpow_opp e : bpow (- e) = (/ bpow e)%R.
Proof. unfold bpow. apply powerRZ_neg'. Qed.

Lemma bpow_IZR k : 0 <= k -> bpow k = IZR (2 ^ k).
Proof.
  intros Hk. unfold bpow.
  rewrite <- (Z2Nat.id k Hk) at 1. rewrite <- pow_powerRZ.
  rewrite <- (Z2Nat.id k Hk) at 2. rewrite <- pow_IZR. reflexivity.
Qed.

Lemma bpow_le a b : a <= b -> (bpow a <= bpow b)%R.
Proof.
  intros H. replace b with (a + (b - a)) by lia. rewrite bpow_add.
  rewrite (bpow_IZR (b - a)) by lia.
  assert (0 < 2 ^ (b - a)) by (apply Z.pow_pos_nonneg; lia).
  assert (1 <= 2 ^ (b - a)) by lia.
  apply IZR_le in H1. pose proof (bpow_pos a). nra.
Qed.

(** *** Shifting a mantissa right *)

Lemma located_of_loc m l t :
  0 <= m -> inbetween m l t -> located t (shr_record_of_loc m l).
Proof.
  intros Hm H. unfold located.
  destruct l as [ | [ | | ]]; simpl; split; assumption.
Qed.

Lemma IZR_xO p : IZR (Zpos p~0) = (2 * IZR (Zpos p))%R.
Proof. rewrite Pos2Z.inj_xO, mult_IZR. reflexivity. Qed.

Lemma IZR_xI p : IZR (Zpos p~1) = (2 * IZR (Zpos p) + 1)%R.
Proof. rewrite Pos2Z.inj_xI, plus_IZR, mult_IZR. reflexivity. Qed.

Lemma shr_1_located t mrs : located t mrs -> located (t / 2) (shr_1 mrs).
Proof.
  destruct mrs as [m r s]. unfold located. cbn [shr_m]. intros [Hm H].
  destruct m as [ | [p | p | ] | p]; try lia;
    destruct r, s;
    cbn [shr_1 shr_m loc_of_shr_record orb inbetween] in *;
    rewrite ?(IZR_xO p), ?(IZR_xI p) in *;
    (split; [ lia | lra ]).
Qed.

Lemma shr_1_m mrs : 0 <= shr_m mrs -> shr_m (shr_1 mrs) = shr_m mrs / 2.
Proof.
  destruct mrs as [m r s]. cbn [shr_m]. intros Hm.
  destruct m as [ | [p | p | ] | p]; try lia; cbn [shr_1 shr_m].
  - reflexivity.
  - apply Z.div_unique with 1; lia.
  - apply Z.div_unique with 0; lia.
  - reflexivity.
Qed.

Lemma iter_pos_shr_1 p :
  forall t mrs,
    located t mrs ->
    located (t * bpow (- Zpos p)) (SpecFloat.iter_pos shr_1 p mrs) /\
    shr_m (SpecFloat.iter_pos shr_1 p mrs) = shr_m mrs / 2 ^ Zpos p.
Proof.
  induction p as [p IH | p IH | ]; intros t mrs H; cbn [SpecFloat.iter_pos].
  - pose proof (shr_1_located t mrs H) as H1.
    destruct (IH _ _ H1) as (H2 & E2).
    destruct (IH _ _ H2) as (H3 & E3).
    split.
    + replace (t * bpow (- Zpos p~1))%R with (t / 2 * bpow (- Zpos p) * bpow (- Zpos p))%R; [exact H3 | ].
      rewrite Pos2Z.inj_xI.
      replace (- (2 * Zpos p + 1)) with (- Zpos p + (- Zpos p + - (1))) by lia.
      rewrite !bpow_add, (bpow_opp 1), bpow_1. field.
    + rewrite E3, E2, shr_1_m by apply H.
      rewrite !Z.div_div by (try apply Z.pow_pos_nonneg; lia).
      f_equal. rewrite Pos2Z.inj_xI.
      rewrite <- Z.pow_add_r, <- (Z.pow_1_r 2) at 1 by lia.
      rewrite <- Z.pow_add_r by lia. f_equal. lia.
  - destruct (IH _ _ H) as (H2 & E2).
    destruct (IH _ _ H2) as (H3 & E3).
    split.
    + replace (t * bpow (- Zpos p~0))%R with (t * bpow (- Zpos p) * bpow (- Zpos p))%R; [exact H3 | ].
      rewrite Pos2Z.inj_xO.
      replace (- (2 * Zpos p)) with (- Zpos p + - Zpos p) by lia.
      rewrite !bpow_add. field.
    + rewrite E3, E2.
      rewrite !Z.div_div by (try apply Z.pow_pos_nonneg; lia).
      f_equal. rewrite Pos2Z.inj_xO.
      rewrite <- Z.pow_add_r by lia. f_equal. lia.
  - split.
    + replace (t * bpow (- (1)))%R with (t / 2)%R; [ apply shr_1_located; exact H | ].
      rewrite (bpow_opp 1), bpow_1. field.
    + rewrite shr_1_m by apply H. reflexivity.
Qed.

Lemma fexp_unfold e : fexp prec emax e = Z.max (e - 53) (-1074).
Proof. reflexivity. Qed.

Lemma Zdigits2_le m k : 0 <= k -> 0 <= m < 2 ^ k -> Zdigits2 m <= k.
Proof.
  intros Hk [H0 H1]. destruct (Z.eq_dec m 0) as [-> | Hm]; [ simpl; lia | ].
  destruct (Zdigits2_bounds m ltac:(lia)) as [B1 _].
  destruct (Z_lt_le_dec k (Zdigits2 m)); [ | lia ].
  assert (2 ^ k <= 2 ^ (Zdigits2 m - 1)) by (apply Z.pow_le_mono_r; lia). lia.
Qed.

Lemma Zdigits2_nonneg m : 0 <= m -> 0 <= Zdigits2 m.
Proof. destruct m; simpl; lia. Qed.

Lemma shr_nop mrs e n : n <= 0 -> shr mrs e n = (mrs, e).
Proof. destruct n; try reflexivity. lia. Qed.

Lemma shr_spec mrs e n t :
  located t mrs -> 0 <= n ->
  snd (shr mrs e n) = e + n /\
  located (t * bpow (- n)) (fst (shr mrs e n)) /\
  shr_m (fst (shr mrs e n)) = shr_m mrs / 2 ^ n.
Proof.
  intros H Hn. destruct n as [ | p | p]; try lia.
  - simpl. rewrite Z.add_0_r, Z.div_1_r. change (bpow (- 0)) with 1%R.
    rewrite Rmult_1_r. auto.
  - cbn [shr fst snd]. destruct (iter_pos_shr_1 p t mrs H) as (H1 & H2). auto.
Qed.

(** *** Rounding to nearest even *)

Lemma round_nearest_even_spec m l t :
  inbetween m l t ->
  m <= round_nearest_even m l <= m + 1 /\
  (Rabs (IZR (round_nearest_even m l) - t) <= / 2)%R.
Proof.
  intros H. destruct l as [ | [ | | ]]; cbn [round_nearest_even inbetween] in *.
  - split; [ lia | ]. subst t. rewrite Rminus_diag, Rabs_R0. lra.
  - destruct (Z.even m).
    + split; [ lia | ]. subst t. apply Rabs_le. lra.
    + split; [ lia | ]. subst t. rewrite plus_IZR. apply Rabs_le. lra.
  - split; [ lia | ]. apply Rabs_le. lra.
  - split; [ lia | ]. rewrite plus_IZR. apply Rabs_le. lra.
Qed.

(** The second shift of [binary_round_aux]: nothing is lost. *)
Lemma second_shift m e :
  0 <= m <= 2 ^ 53 -> -1074 <= e ->
  exists m2 e2,
    shr_m (fst (shr_fexp prec emax m e loc_Exact)) = m2 /\
    snd (shr_fexp prec emax m e loc_Exact) = e2 /\
    (IZR m2 * bpow e2 = IZR m * bpow e)%R /\
    0 <= m2 < 2 ^ 53 /\ e <= e2 <= e + 1 /\
    (2 ^ 52 <= m -> 2 ^ 52 <= m2) /\
    (m = 0 <-> m2 = 0) /\
    (2 ^ 52 <= m \/ e = -1074 -> fexp prec emax (Zdigits2 m2 + e2) = e2).
Proof.
  intros [H0 H1] He. unfold shr_fexp.
  destruct (Z.eq_dec m (2 ^ 53)) as [-> | Hm].
  - exists (2 ^ 52), (e + 1).
    change (Zdigits2 (2 ^ 53)) with 54. rewrite fexp_unfold.
    replace (Z.max (54 + e - 53) (-1074) - e) with 1 by lia.
    cbn [shr fst snd SpecFloat.iter_pos shr_record_of_loc].
    change (2 ^ 53) with 9007199254740992. cbn [shr_1 shr_m].
    change 4503599627370496 with (2 ^ 52).
    repeat split; try lia.
    + rewrite bpow_succ. change (IZR 9007199254740992) with (2 * IZR (2 ^ 52))%R.
      * ring.
    + change (Zdigits2 (2 ^ 52)) with 53. rewrite fexp_unfold. lia.
  - assert (Hd : Zdigits2 m <= 53) by (apply Zdigits2_le; lia).
    pose proof (Zdigits2_nonneg m H0) as Hd0.
    rewrite shr_nop by (rewrite fexp_unfold; lia).
    exists m, e. cbn [fst snd]. 
    assert (shr_m (shr_record_of_loc m loc_Exact) = m) by reflexivity.
    repeat split; try lia; try assumption.
    intros [Hn | Hs].
    + assert (Zdigits2 m = 53) by (apply Zdigits2_unique; lia).
      rewrite fexp_unfold. lia.
    + rewrite fexp_unfold. lia.
Qed.

Lemma binary_round_aux_spec s m e l t :
  0 <= m -> inbetween m l t ->
  e <= fexp prec emax (Zdigits2 m + e) ->
  exists m2 e2,
    binary_round_aux prec emax s m e l = packed s m2 e2 /\
    0 <= m2 < 2 ^ 53 /\
    (Rabs (IZR m2 * bpow e2 - t * bpow e)
     <= bpow (fexp prec emax (Zdigits2 m + e)) / 2)%R /\
    fexp prec emax (Zdigits2 m + e) <= e2 /\
    (0 < m2 -> fexp prec emax (Zdigits2 m2 + e2) = e2) /\
    (-1074 <= Zdigits2 m + e - 53 -> 2 ^ 52 <= m2).
Proof.
  intros Hm Hl He.
  set (e1 := fexp prec emax (Zdigits2 m + e)) in *.
  set (n := e1 - e).
  assert (Hn : 0 <= n) by (unfold n; lia).
  assert (He1 : -1074 <= e1) by (unfold e1; rewrite fexp_unfold; lia).
  pose proof (Zdigits2_nonneg m Hm) as Hd0.
  unfold binary_round_aux.
  pose proof (shr_spec (shr_record_of_loc m l) e n t (located_of_loc m l t Hm Hl) Hn)
    as (S1 & S2 & S3).
  fold e1 in S1.
  unfold shr_fexp at 1. fold e1. fold n.
  destruct (shr (shr_record_of_loc m l) e n) as [mrs1 e1'].
  cbn [fst snd] in S1, S2, S3. subst e1'.
  replace (e + n) with e1 by (unfold n; lia).
  assert (Sm : shr_m (shr_record_of_loc m l) = m) by (destruct l as [ | [ | | ]]; reflexivity).
  rewrite Sm in S3.
  destruct S2 as (M1 & I1).
  set (m1 := shr_m mrs1) in *.
  destruct (round_nearest_even_spec m1 (loc_of_shr_record mrs1) _ I1) as (R1 & R2).
  set (m1r := round_nearest_even m1 (loc_of_shr_record mrs1)) in *.
  assert (P2n : 0 < 2 ^ n) by (apply Z.pow_pos_nonneg; lia).
  assert (B1 : m1 < 2 ^ 53).
  { rewrite S3. apply Z.div_lt_upper_bound; [ exact P2n | ].
    destruct (Z.eq_dec m 0) as [-> | Hm0].
    - assert (0 < 2 ^ 53) by (apply Z.pow_pos_nonneg; lia). lia.
    - destruct (Zdigits2_bounds m ltac:(lia)) as [_ B].
      rewrite <- Z.pow_add_r by lia.
      assert (2 ^ Zdigits2 m <= 2 ^ (n + 53)).
      { apply Z.pow_le_mono_r; [ lia | ]. unfold n, e1. rewrite fexp_unfold. lia. }
      lia. }
  assert (N1 : -1074 <= Zdigits2 m + e - 53 -> 2 ^ 52 <= m1).
  { intros Hnorm. rewrite S3.
    assert (En : n = Zdigits2 m - 53) by (unfold n, e1; rewrite fexp_unfold; lia).
    apply Z.div_le_lower_bound; [ exact P2n | ].
    assert (Hm0 : 0 < m).
    { destruct (Z.eq_dec m 0) as [-> | ]; [ simpl in *; lia | lia ]. }
    destruct (Zdigits2_bounds m Hm0) as [B _].
    rewrite <- Z.pow_add_r by lia.
    replace (n + 52) with (Zdigits2 m - 1) by lia. exact B. }
  destruct (second_shift m1r e1 ltac:(lia) He1)
    as (m2 & e2 & T1 & T2 & T3 & T4 & T5 & T6 & T7 & T8).
  destruct (shr_fexp prec emax m1r e1 loc_Exact) as [mrs2 e2'].
  cbn [fst snd] in T1, T2. subst e2'. rewrite T1.
  exists m2, e2. split.
  { unfold packed. destruct m2; reflexivity. }
  split; [ exact T4 | ].
  split.
  { rewrite T3.
    replace (t * bpow e)%R with (t * bpow (- n) * bpow e1)%R.
    - rewrite <- Rmult_minus_distr_r, Rabs_mult.
      rewrite (Rabs_pos_eq (bpow e1)) by (apply Rlt_le, bpow_pos).
      pose proof (bpow_pos e1). nra.
    - rewrite Rmult_assoc, <- bpow_add. f_equal. f_equal. unfold n. lia. }
  split; [ lia | ].
  split.
  { intros Hm2. apply T8.
    destruct (Z_le_gt_dec (-1074) (Zdigits2 m + e - 53)) as [Hnorm | Hsub].
    - left. specialize (N1 Hnorm). lia.
    - right. unfold e1. rewrite fexp_unfold. lia. }
  intros Hnorm. apply T6. specialize (N1 Hnorm). lia.
Qed.

(** *** Conversions from integers *)

Lemma iter_xO p d : Zpos (Pos.iter xO p d) = Zpos p * 2 ^ Zpos d.
Proof.
  induction d as [ | d IH] using Pos.peano_ind.
  - simpl. lia.
  - rewrite Pos.iter_succ, Pos2Z.inj_xO, IH, Pos2Z.inj_succ, Z.pow_succ_r by lia. ring.
Qed.

Lemma Zdigits2_shift m k : 0 < m -> 0 <= k -> Zdigits2 (m * 2 ^ k) = Zdigits2 m + k.
Proof.
  intros Hm Hk. 
  assert (0 < 2 ^ k) by (apply Z.pow_pos_nonneg; lia).
  destruct (Zdigits2_bounds m Hm) as [B1 B2].
  pose proof (Zdigits2_pos m Hm).
  apply Zdigits2_unique; [ nia | ].
  replace (Zdigits2 m + k - 1) with (Zdigits2 m - 1 + k) by lia.
  rewrite !Z.pow_add_r by lia. nia.
Qed.

(** Rounding [p * 2^e] where the result is a normal number. *)
Lemma binary_round_spec s p e :
  -1074 <= Zdigits2 (Zpos p) + e - 53 ->
  exists m2 e2,
    binary_round prec emax s p e = packed s m2 e2 /\
    0 <= m2 < 2 ^ 53 /\
    (Rabs (IZR m2 * bpow e2 - IZR (Zpos p) * bpow e)
     <= IZR (Zpos p) * bpow e * bpow (-53))%R /\
    Zdigits2 (Zpos p) + e - 53 <= e2 /\
    2 ^ 52 <= m2 /\
    fexp prec emax (Zdigits2 m2 + e2) = e2.
Proof.
  intros Hnorm. unfold binary_round.
  set (d := Zpos (digits2_pos p)).
  assert (Hd : Zdigits2 (Zpos p) = d) by reflexivity.
  rewrite Hd in Hnorm.
  destruct (Zdigits2_bounds (Zpos p) ltac:(lia)) as [B1 B2]. rewrite Hd in B1, B2.
  assert (Hd1 : 1 <= d) by (unfold d; lia).
  rewrite fexp_unfold.
  replace (Z.max (d + e - 53) (-1074)) with (d + e - 53) by lia.
  unfold shl_align.
  replace (d + e - 53 - e) with (d - 53) by lia.
  assert (Hex : exists mz ez,
             (match d - 53 with
              | Z.neg dd => (Pos.iter xO p dd, d + e - 53)
              | _ => (p, e)
              end) = (mz, ez) /\
             (IZR (Zpos mz) * bpow ez = IZR (Zpos p) * bpow e)%R /\
             Zdigits2 (Zpos mz) + ez = d + e /\ ez <= d + e - 53).
  { destruct (d - 53) as [ | q | q] eqn:E.
    - exists p, e. repeat split; try lia.
    - exists p, e. repeat split; try lia.
    - exists (Pos.iter xO p q), (d + e - 53). split; [ reflexivity | ].
      rewrite iter_xO. split; [ | split; [ | lia ] ].
      + rewrite mult_IZR, <- bpow_IZR by lia. rewrite Rmult_assoc, <- bpow_add.
        f_equal. f_equal. lia.
      + rewrite Zdigits2_shift by lia. rewrite Hd. lia. }
  destruct Hex as (mz & ez & -> & V & Dz & Ez).
  destruct (binary_round_aux_spec s (Zpos mz) ez loc_Exact (IZR (Zpos mz)))
    as (m2 & e2 & Hr & Hm2 & Herr & He2 & Hc & Hn).
  - lia.
  - reflexivity.
  - rewrite Dz, fexp_unfold. lia.
  - rewrite Dz, fexp_unfold in *.
    replace (Z.max (d + e - 53) (-1074)) with (d + e - 53) in * by lia.
    specialize (Hn ltac:(lia)).
    exists m2, e2. split; [ exact Hr | ]. split; [ exact Hm2 | ].
    split; [ | split; [ lia | split; [ exact Hn | apply Hc; lia ] ] ].
    rewrite V in Herr. eapply Rle_trans; [ exact Herr | ].
    replace (bpow (d + e - 53) / 2)%R with (bpow (d - 1) * bpow e * bpow (-53))%R.
    + apply Rmult_le_compat_r; [ apply Rlt_le, bpow_pos | ].
      apply Rmult_le_compat_r; [ apply Rlt_le, bpow_pos | ].
      rewrite bpow_IZR by lia. apply IZR_le. exact B1.
    + replace (d + e - 53) with ((d - 1) + e + -53 + 1) by lia.
      rewrite bpow_succ, !bpow_add. lra.
Qed.

(** The float of a positive int. *)
Lemma binary_round_int s p :
  exists m2 e2,
    binary_round prec emax s p 0 = packed s m2 e2 /\
    0 <= m2 < 2 ^ 53 /\
    (Rabs (IZR m2 * bpow e2 - IZR (Zpos p)) <= IZR (Zpos p) * bpow (-53))%R /\
    -52 <= e2 /\
    2 ^ 52 <= m2 /\
    fexp prec emax (Zdigits2 m2 + e2) = e2.
Proof.
  pose proof (Zdigits2_pos (Zpos p) ltac:(lia)) as Hd.
  destruct (binary_round_spec s p 0 ltac:(lia)) as (m2 & e2 & Hr & Hm & Herr & He & Hn & Hc).
  rewrite bpow_0, Rmult_1_r in Herr.
  exists m2, e2. repeat split; try assumption; lia.
Qed.

(** The float of a ratio with denominator one. *)
Lemma SF_of_ratio_one s p :
  exists m2 e2,
    SF_of_ratio s p 1 = packed s m2 e2 /\
    0 <= m2 < 2 ^ 53 /\
    (Rabs (IZR m2 * bpow e2 - IZR (Zpos p)) <= IZR (Zpos p) * bpow (-53))%R /\
    -52 <= e2 /\
    2 ^ 52 <= m2 /\
    fexp prec emax (Zdigits2 m2 + e2) = e2.
Proof.
  unfold SF_of_ratio.
  set (k := Z.max 0 (66 + Z.log2 1 - Z.log2 (Zpos p))).
  assert (Hk : 0 <= k) by (unfold k; lia).
  assert (P2k : 0 < 2 ^ k) by (apply Z.pow_pos_nonneg; lia).
  rewrite Z.shiftl_mul_pow2 by exact Hk.
  pose proof (Z_div_mod (Zpos p * 2 ^ k) 1 ltac:(lia)) as DM.
  destruct (Z.div_eucl (Zpos p * 2 ^ k) 1) as [q r]. destruct DM as (DM1 & DM2).
  assert (r = 0) by lia. subst r.
  assert (Hq : q = Zpos p * 2 ^ k) by lia.
  change (0 =? 0) with true. cbv iota.
  assert (Hm : 2 * q + 0 = Zpos p * 2 ^ (k + 1)).
  { rewrite Z.pow_add_r by lia. lia. }
  rewrite Hm.
  pose proof (Zdigits2_pos (Zpos p) ltac:(lia)) as Hd.
  assert (Hpos : 0 < Zpos p * 2 ^ (k + 1)).
  { assert (0 < 2 ^ (k + 1)) by (apply Z.pow_pos_nonneg; lia). lia. }
  destruct (Zpos p * 2 ^ (k + 1)) as [ | m | m] eqn:Em; try lia.
  assert (Dm : Zdigits2 (Zpos m) = Zdigits2 (Zpos p) + (k + 1)).
  { rewrite <- Em. apply Zdigits2_shift; lia. }
  assert (Vm : (IZR (Zpos m) * bpow (- k - 1) = IZR (Zpos p))%R).
  { rewrite <- Em, mult_IZR, <- bpow_IZR by lia. rewrite Rmult_assoc, <- bpow_add.
    replace (k + 1 + (- k - 1)) with 0 by lia. rewrite bpow_0. lra. }
  assert (Hs : binary_normalize prec emax (if s then - Zpos m else Zpos m) (- k - 1) false
               = binary_round prec emax s m (- k - 1)).
  { destruct s; reflexivity. }
  rewrite Hs.
  destruct (binary_round_spec s m (- k - 1) ltac:(lia))
    as (m2 & e2 & Hr & Hm2 & Herr & He & Hn & Hc).
  rewrite Vm in Herr.
  exists m2, e2. repeat split; try assumption; lia.
Qed.

(** *** Division and multiplication *)

Lemma new_location_spec n r :
  0 <= r < n ->
  inbetween 0 (new_location n r) (IZR r / IZR n).
Proof.
  intros [H0 H1].
  assert (Hn : (0 < IZR n)%R) by (apply IZR_lt; lia).
  assert (Hr0 : (0 <= IZR r)%R) by (apply IZR_le; lia).
  set (x := (IZR r / IZR n)%R).
  assert (Hx : (x * IZR n = IZR r)%R) by (unfold x; field; lra).
  assert (Lt_case : 2 * r < n -> (x < / 2)%R).
  { intros H. apply IZR_lt in H. rewrite mult_IZR in H. nra. }
  assert (Gt_case : n < 2 * r -> (/ 2 < x)%R).
  { intros H. apply IZR_lt in H. rewrite mult_IZR in H. nra. }
  assert (Eq_case : 2 * r = n -> (x = / 2)%R).
  { intros H. apply (f_equal IZR) in H. rewrite mult_IZR in H. nra. }
  assert (Hq1 : (x < 1)%R).
  { assert (IZR r < IZR n)%R by (apply IZR_lt; exact H1). nra. }
  unfold new_location.
  destruct (Z.even n) eqn:Ev; cbv beta delta [new_location_even new_location_odd];
    destruct (Z.eqb_spec r 0) as [E0 | Hr].
  - subst r. cbn [inbetween]. nra.
  - assert (Hr1 : (0 < IZR r)%R) by (apply IZR_lt; lia).
    assert (Hq : (0 < x)%R) by nra.
    destruct (Z.compare_spec (2 * r) n) as [E | L | G]; cbn [inbetween].
    + rewrite (Eq_case E). lra.
    + specialize (Lt_case L). lra.
    + specialize (Gt_case G). lra.
  - subst r. cbn [inbetween]. nra.
  - assert (Hr1 : (0 < IZR r)%R) by (apply IZR_lt; lia).
    assert (Hq : (0 < x)%R) by nra.
    assert (Hodd : 2 * r <> n).
    { intros E. rewrite <- E, Z.even_mul in Ev. discriminate. }
    destruct (Z.compare_spec (2 * r + 1) n) as [E | L | G]; cbn [inbetween].
    + specialize (Lt_case ltac:(lia)). lra.
    + specialize (Lt_case ltac:(lia)). lra.
    + specialize (Gt_case ltac:(lia)). lra.
Qed.

Lemma inbetween_shift q l t :
  inbetween 0 l t -> inbetween q l (IZR q + t).
Proof.
  destruct l as [ | [ | | ]]; simpl; intros H; lra.
Qed.

(** Half a unit in the last place, against the value rounded. *)
Lemma half_ulp_bound m e t :
  0 <= m -> (IZR m <= t)%R ->
  e <= fexp prec emax (Zdigits2 m + e) ->
  (bpow (fexp prec emax (Zdigits2 m + e)) / 2
   <= t * bpow e * bpow (-53) + bpow (-1075))%R.
Proof.
  intros Hm Ht He. rewrite fexp_unfold in *.
  pose proof (bpow_pos e) as Pe. pose proof (bpow_pos (-53)) as P53.
  pose proof (bpow_pos (-1075)) as P1075.
  assert (Ht0 : (0 <= t)%R) by (apply IZR_le in Hm; lra).
  destruct (Z_le_gt_dec (-1074) (Zdigits2 m + e - 53)) as [Hn | Hs].
  - replace (Z.max (Zdigits2 m + e - 53) (-1074)) with (Zdigits2 m + e - 53) in * by lia.
    assert (Hm0 : 0 < m).
    { destruct (Z.eq_dec m 0) as [-> | ]; [ simpl in *; lia | lia ]. }
    destruct (Zdigits2_bounds m Hm0) as [B _].
    pose proof (Zdigits2_pos m Hm0) as Hd.
    apply IZR_le in B. rewrite <- bpow_IZR in B by lia.
    replace (Zdigits2 m + e - 53) with ((Zdigits2 m - 1) + e + -53 + 1) by lia.
    rewrite bpow_succ, !bpow_add.
    assert (bpow (Zdigits2 m - 1) * bpow e * bpow (-53) <= t * bpow e * bpow (-53))%R.
    { apply Rmult_le_compat_r; [ lra | ]. apply Rmult_le_compat_r; lra. }
    lra.
  - replace (Z.max (Zdigits2 m + e - 53) (-1074)) with (-1074) by lia.
    replace (-1074) with (-1075 + 1) at 1 by lia. rewrite bpow_succ.
    assert (0 <= t * bpow e * bpow (-53))%R.
    { apply Rmult_le_pos; [ apply Rmult_le_pos | ]; lra. }
    lra.
Qed.

Lemma fexp_mono a b : a <= b -> fexp prec emax a <= fexp prec emax b.
Proof. intros H. rewrite !fexp_unfold. lia. Qed.

Lemma Zdigits2_lower m k : 0 <= k -> 2 ^ k <= m -> k + 1 <= Zdigits2 m.
Proof.
  intros Hk H.
  assert (0 < 2 ^ k) by (apply Z.pow_pos_nonneg; lia).
  destruct (Zdigits2_bounds m ltac:(lia)) as [_ B].
  destruct (Z_lt_le_dec k (Zdigits2 m)); [ lia | ].
  assert (2 ^ Zdigits2 m <= 2 ^ k).
  { apply Z.pow_le_mono_r; [ lia | assumption ]. }
  lia.
Qed.

(** The quotient of two finite nonzero floats. *)
Lemma SFdiv_spec sx mx ex sy my ey :
  exists m2 e2,
    SFdiv prec emax (S754_finite sx mx ex) (S754_finite sy my ey)
    = packed (xorb sx sy) m2 e2 /\
    0 <= m2 < 2 ^ 53 /\
    (0 < m2 -> fexp prec emax (Zdigits2 m2 + e2) = e2) /\
    (Rabs (IZR m2 * bpow e2
           - IZR (Zpos mx) * bpow ex / (IZR (Zpos my) * bpow ey))
     <= IZR (Zpos mx) * bpow ex / (IZR (Zpos my) * bpow ey) * bpow (-53)
        + bpow (-1075))%R.
Proof.
  unfold SFdiv, SFdiv_core_binary.
  set (d1 := Zdigits2 (Zpos mx)). set (d2 := Zdigits2 (Zpos my)).
  set (z := d1 + ex - (d2 + ey)).
  set (e' := Z.min (fexp prec emax z) (ex - ey)).
  set (s := ex - ey - e').
  assert (Hs : 0 <= s) by (unfold s, e'; lia).
  set (m' := match s with
             | 0 => Zpos mx
             | Zpos _ => Z.shiftl (Zpos mx) s
             | Zneg _ => 0
             end).
  assert (Hm' : m' = Zpos mx * 2 ^ s).
  { unfold m'. destruct s as [ | p | p] eqn:E; try lia.
    - apply Z.shiftl_mul_pow2. lia. }
  assert (P2s : 0 < 2 ^ s) by (apply Z.pow_pos_nonneg; lia).
  pose proof (Z_div_mod m' (Zpos my) ltac:(lia)) as DM.
  destruct (Z.div_eucl m' (Zpos my)) as [q r]. destruct DM as (DM1 & DM2).
  assert (Hq : 0 <= q) by nia.
  set (t := (IZR q + IZR r / IZR (Zpos my))%R).
  assert (Hin : inbetween q (new_location (Zpos my) r) t).
  { apply inbetween_shift, new_location_spec. exact DM2. }
  assert (Hmy : (0 < IZR (Zpos my))%R) by (apply IZR_lt; lia).
  assert (Hmx : (0 < IZR (Zpos mx))%R) by (apply IZR_lt; lia).
  assert (Ht : (t * bpow e' = IZR (Zpos mx) * bpow ex / (IZR (Zpos my) * bpow ey))%R).
  { assert (E1 : (t = IZR m' / IZR (Zpos my))%R).
    { unfold t. rewrite DM1, plus_IZR, mult_IZR. field. lra. }
    rewrite E1, Hm', mult_IZR, <- bpow_IZR by lia.
    replace ex with (s + e' + ey) by (unfold s; lia).
    rewrite !bpow_add.
    pose proof (bpow_pos ey). pose proof (bpow_pos e'). pose proof (bpow_pos s).
    field. split; lra. }
  assert (Hqt : (IZR q <= t)%R).
  { unfold t. assert (0 <= IZR r / IZR (Zpos my))%R.
    { apply Rmult_le_pos; [ apply IZR_le; lia | apply Rlt_le, Rinv_0_lt_compat; lra ]. }
    lra. }
  assert (Hpre : e' <= fexp prec emax (Zdigits2 q + e')).
  { destruct (Z_le_gt_dec (z - 53) (-1074)) as [Hsub | Hnorm].
    - assert (e' <= -1074) by (unfold e'; rewrite fexp_unfold; lia).
      rewrite fexp_unfold. lia.
    - assert (He' : e' <= z - 53) by (unfold e'; rewrite fexp_unfold; lia).
      destruct (Zdigits2_bounds (Zpos mx) ltac:(lia)) as [B1 _].
      destruct (Zdigits2_bounds (Zpos my) ltac:(lia)) as [_ B2].
      fold d1 in B1. fold d2 in B2.
      assert (Hd1 : 0 < d1) by (apply Zdigits2_pos; lia).
      assert (Hd2 : 0 < d2) by (apply Zdigits2_pos; lia).
      set (k := d1 - 1 + s - d2).
      assert (Hk : 52 <= k) by (unfold k, s, z in *; lia).
      assert (Hqk : 2 ^ k <= q).
      { assert (Zpos my * 2 ^ k <= m').
        { rewrite Hm'.
          assert (2 ^ (d1 - 1) * 2 ^ s = 2 ^ k * 2 ^ d2).
          { rewrite <- !Z.pow_add_r by lia. f_equal. unfold k. lia. }
          assert (0 < 2 ^ k) by (apply Z.pow_pos_nonneg; lia).
          nia. }
        nia. }
      pose proof (Zdigits2_lower q k ltac:(lia) Hqk) as Hdq.
      assert (z <= Zdigits2 q + e') by (unfold k, s, z in *; lia).
      pose proof (fexp_mono _ _ H). unfold e' at 1. lia. }
  destruct (binary_round_aux_spec (xorb sx sy) q e' _ t Hq Hin Hpre)
    as (m2 & e2 & Hr & Hm2 & Herr & He2 & Hc & _).
  exists m2, e2. split; [ exact Hr | ]. split; [ exact Hm2 | ]. split; [ exact Hc | ].
  rewrite <- Ht. eapply Rle_trans; [ exact Herr | ].
  apply half_ulp_bound; assumption.
Qed.

(** The product of a finite nonzero float and a normal one. *)
Lemma SFmul_spec sx mx ex sy my ey :
  2 ^ 52 <= Zpos my ->
  exists m2 e2,
    SFmul prec emax (S754_finite sx mx ex) (S754_finite sy my ey)
    = packed (xorb sx sy) m2 e2 /\
    0 <= m2 < 2 ^ 53 /\
    (0 < m2 -> fexp prec emax (Zdigits2 m2 + e2) = e2) /\
    (Rabs (IZR m2 * bpow e2
           - IZR (Zpos mx) * bpow ex * (IZR (Zpos my) * bpow ey))
     <= IZR (Zpos mx) * bpow ex * (IZR (Zpos my) * bpow ey) * bpow (-53)
        + bpow (-1075))%R.
Proof.
  intros Hy. unfold SFmul.
  assert (Hpre : ex + ey <= fexp prec emax (Zdigits2 (Zpos (mx * my)) + (ex + ey))).
  { destruct (Zdigits2_bounds (Zpos mx) ltac:(lia)) as [B _].
    pose proof (Zdigits2_pos (Zpos mx) ltac:(lia)) as Hd.
    set (dx := Zdigits2 (Zpos mx)) in *.
    assert (2 ^ (dx - 1 + 52) <= Zpos (mx * my)).
    { rewrite Z.pow_add_r by lia. rewrite Pos2Z.inj_mul.
      assert (0 < 2 ^ (dx - 1)) by (apply Z.pow_pos_nonneg; lia). nia. }
    pose proof (Zdigits2_lower _ (dx - 1 + 52) ltac:(lia) H).
    rewrite fexp_unfold. lia. }
  destruct (binary_round_aux_spec (xorb sx sy) (Zpos (mx * my)) (ex + ey) loc_Exact
              (IZR (Zpos (mx * my))) ltac:(lia) eq_refl Hpre)
    as (m2 & e2 & Hr & Hm2 & Herr & _ & Hc & _).
  exists m2, e2. split; [ exact Hr | ]. split; [ exact Hm2 | ]. split; [ exact Hc | ].
  assert (E : (IZR (Zpos (mx * my)) * bpow (ex + ey)
               = IZR (Zpos mx) * bpow ex * (IZR (Zpos my) * bpow ey))%R).
  { rewrite Pos2Z.inj_mul, mult_IZR, bpow_add. ring. }
  rewrite <- E. eapply Rle_trans; [ exact Herr | ].
  apply half_ulp_bound; [ lia | lra | exact Hpre ].
Qed.

(** *** The arithmetic of the errors *)

Lemma Rabs_le_inv x a : (Rabs x <= a -> - a <= x <= a)%R.
Proof. unfold Rabs. destruct (Rcase_abs x); lra. Qed.

Lemma bpow_m53 : bpow (-53) = (/ 9007199254740992)%R.
Proof.
  change (-53) with (- (53)). rewrite (bpow_opp 53), (bpow_IZR 53) by lia.
  reflexivity.
Qed.

(** The arithmetic of the three roundings. *)
Lemma three_roundings (A X W Z eta : R) :
  (1 <= A)%R ->
  (0 < eta <= bpow (-53) / 2)%R ->
  (Rabs (X - A) <= A * bpow (-53))%R ->
  (Rabs (W - X) <= X * bpow (-53) + 4 * bpow (-53))%R ->
  (Rabs (Z - W) <= W * bpow (-53) + eta)%R ->
  (Rabs (Z - A) <= A * (8 * bpow (-53)))%R.
Proof.
  rewrite bpow_m53. intros HA He H1 H2 H3.
  apply Rabs_le_inv in H1, H2, H3. apply Rabs_le. lra.
Qed.

(** A finite float is below [2^1024]. *)
Lemma finite_upper m e :
  Zpos m < 2 ^ 53 -> e <= 971 -> (IZR (Zpos m) * bpow e <= bpow 1024)%R.
Proof.
  intros Hm He.
  replace 1024 with (53 + 971) by lia. rewrite bpow_add.
  apply Rmult_le_compat.
  - apply IZR_le. lia.
  - apply Rlt_le, bpow_pos.
  - rewrite bpow_IZR by lia. apply IZR_le. lia.
  - apply bpow_le. exact He.
Qed.

Lemma bpow_m50 : bpow (-50) = (8 * bpow (-53))%R.
Proof.
  replace (-50) with (-53 + 3) by lia. rewrite bpow_add.
  change (bpow 3) with (powerRZ 2 3). simpl. lra.
Qed.

Lemma bpow_m51 : bpow (-51) = (4 * bpow (-53))%R.
Proof.
  replace (-51) with (-53 + 2) by lia. rewrite bpow_add.
  change (bpow 2) with (powerRZ 2 2). simpl. lra.
Qed.

(** *** The range of the floats *)

(** [10^308] is well below [2^1024]. *)
Lemma ten_308 : (8 * IZR (10 ^ 308) <= 5 * bpow 1024)%R.
Proof.
  rewrite (bpow_IZR 1024) by lia. rewrite <- !mult_IZR. apply IZR_le.
  vm_compute. discriminate.
Qed.

(** A normal float with an exponent above 971 is [2^1024] or more. *)
Lemma overflow_lower m e :
  2 ^ 52 <= m -> 972 <= e -> (bpow 1024 <= IZR m * bpow e)%R.
Proof.
  intros Hm He. replace 1024 with (52 + 972) by lia. rewrite bpow_add.
  apply Rmult_le_compat.
  - apply Rlt_le, bpow_pos.
  - apply Rlt_le, bpow_pos.
  - rewrite bpow_IZR by lia. apply IZR_le. exact Hm.
  - apply bpow_le. exact He.
Qed.

Lemma canonical_overflow m e :
  0 < m < 2 ^ 53 -> fexp prec emax (Zdigits2 m + e) = e -> 972 <= e -> 2 ^ 52 <= m.
Proof.
  intros Hm Hc He. rewrite fexp_unfold in Hc.
  assert (Hd : Zdigits2 m = 53) by lia.
  destruct (Zdigits2_bounds m ltac:(lia)) as [B _]. rewrite Hd in B. exact B.
Qed.

Lemma packed_rounds s m2 e2 A :
  0 <= m2 < 2 ^ 53 ->
  (Rabs (IZR m2 * bpow e2 - A) <= A * bpow (-53))%R ->
  -52 <= e2 -> 2 ^ 52 <= m2 ->
  fexp prec emax (Zdigits2 m2 + e2) = e2 ->
  (A <= IZR (10 ^ 308))%R ->
  packed s m2 e2 <> S754_infinity s /\ rounds (SF2Prim (packed s m2 e2)) s A.
Proof.
  intros Hm Herr He Hn Hc HA.
  assert (E : e2 <= 971).
  { destruct (Z_le_gt_dec e2 971) as [ | G]; [ assumption | exfalso ].
    pose proof (overflow_lower m2 e2 Hn ltac:(lia)) as L.
    pose proof ten_308 as T. apply Rabs_le_inv in Herr. rewrite bpow_m53 in Herr.
    pose proof (bpow_pos 1024). lra. }
  unfold packed. destruct m2 as [ | q | q]; try lia.
  replace (e2 <=? emax - prec) with true
    by (symmetry; apply Z.leb_le; change (emax - prec) with 971; exact E).
  split; [ discriminate | ].
  exists q, e2. split; [ | repeat split; try lia; exact Herr ].
  apply Prim2SF_SF2Prim.
  unfold SpecFloat.valid_binary, SpecFloat.bounded, canonical_mantissa.
  apply andb_true_intro. split; [ apply Z.eqb_eq; exact Hc | apply Z.leb_le; exact E ].
Qed.

(** [float(v)] for a nonzero int up to [10^308] does not overflow. *)
Lemma float_of_int_rounds v :
  v <> 0 -> Z.abs v <= 10 ^ 308 ->
  exists x, float_of_int v = Ok x /\ rounds x (v <? 0) (IZR (Z.abs v)).
Proof.
  intros Hv Hb. apply IZR_le in Hb.
  unfold float_of_int, binary_normalize.
  destruct v as [ | p | p]; [ lia | | ].
  - destruct (binary_round_int false p) as (m2 & e2 & Hr & Hm & Herr & He & Hn & Hc).
    destruct (packed_rounds false m2 e2 _ Hm Herr He Hn Hc Hb) as (Hi & Hx).
    rewrite Hr. exists (SF2Prim (packed false m2 e2)). split; [ | exact Hx ].
    revert Hi. clear. unfold packed. destruct m2; try reflexivity.
    destruct (e2 <=? emax - prec); [ reflexivity | congruence ].
  - destruct (binary_round_int true p) as (m2 & e2 & Hr & Hm & Herr & He & Hn & Hc).
    destruct (packed_rounds true m2 e2 _ Hm Herr He Hn Hc Hb) as (Hi & Hx).
    rewrite Hr. exists (SF2Prim (packed true m2 e2)). split; [ | exact Hx ].
    revert Hi. clear. unfold packed. destruct m2; try reflexivity.
    destruct (e2 <=? emax - prec); [ reflexivity | congruence ].
Qed.

(** The same for the float a string of digits is parsed to. *)
Lemma float_of_ratio_rounds v :
  0 < v <= 10 ^ 308 -> rounds (float_of_ratio false v 1) false (IZR v).
Proof.
  intros [Hv Hb]. apply IZR_le in Hb.
  destruct v as [ | p | p]; try lia. cbn [float_of_ratio].
  destruct (SF_of_ratio_one false p) as (m2 & e2 & Hr & Hm & Herr & He & Hn & Hc).
  rewrite Hr. apply (packed_rounds false m2 e2 _ Hm Herr He Hn Hc Hb).
Qed.

Lemma rounds_not_zero x s A : rounds x s A -> (x =? 0)%float = false.
Proof.
  intros (m & e & H & _). rewrite eqb_spec, H. destruct s; reflexivity.
Qed.

(** What [packed] gives below the overflow threshold. *)
Lemma packed_below s m e :
  0 <= m < 2 ^ 53 ->
  (0 < m -> fexp prec emax (Zdigits2 m + e) = e) ->
  (IZR m * bpow e < bpow 1024)%R ->
  finite_SF (packed s m e) = true /\
  SF2R (packed s m e) = ((if s then -1 else 1) * (IZR m * bpow e))%R /\
  (0 < m -> packed s m e = S754_finite s (Z.to_pos m) e).
Proof.
  intros Hm Hc Hlt. unfold packed. destruct m as [ | p | p]; try lia.
  - simpl. repeat split; [ lra | lia ].
  - assert (E : e <= 971).
    { destruct (Z_le_gt_dec e 971) as [ | G]; [ assumption | exfalso ].
      pose proof (canonical_overflow (Zpos p) e ltac:(lia) (Hc ltac:(lia)) ltac:(lia)) as N.
      pose proof (overflow_lower (Zpos p) e N ltac:(lia)). lra. }
    replace (e <=? emax - prec) with true
      by (symmetry; apply Z.leb_le; change (emax - prec) with 971; exact E).
    simpl. repeat split.
Qed.

(** *** Dividing and multiplying back *)

(** Dividing a float by a normal float that is 1 or more and multiplying the
    quotient by it again. *)
Lemma div_mul_back sg x p A B :
  rounds x sg A -> rounds p false B ->
  (1 <= A <= IZR (10 ^ 308))%R ->
  finite (x / p * p) = true /\
  (Rabs (F2R (x / p * p) - (if sg then -1 else 1) * A) <= A * bpow (-50))%R.
Proof.
  intros (mx & ex & Sx & (Nx & Bx) & (Ex' & Ex) & Errx)
         (mp & ep & Sp & (Np & Bp) & (Ep' & Ep) & _) [HA HT].
  unfold F2R, finite. rewrite mul_spec, div_spec, Sp, Sx.
  unfold SF64mul, SF64div.
  set (X := (IZR (Zpos mx) * bpow ex)%R) in *.
  set (P := (IZR (Zpos mp) * bpow ep)%R) in *.
  pose proof ten_308 as T308. pose proof (bpow_pos 1024) as T0.
  assert (HP1 : (1 <= P)%R).
  { unfold P.
    replace 1%R with (bpow 52 * bpow (-52))%R by (rewrite <- bpow_add; apply bpow_0).
    apply Rmult_le_compat; try (apply Rlt_le, bpow_pos).
    - rewrite bpow_IZR by lia. apply IZR_le. lia.
    - apply bpow_le. lia. }
  assert (HP2 : (P <= bpow 1024)%R) by (apply finite_upper; lia).
  pose proof (bpow_pos (-1075)) as Heta.
  assert (Heta1 : (bpow (-1075) * P <= 4 * bpow (-53))%R).
  { rewrite <- bpow_m51. replace (-51) with (-1075 + 1024) by lia. rewrite bpow_add.
    apply Rmult_le_compat_l; lra. }
  assert (Heta2 : (bpow (-1075) <= bpow (-53) / 2)%R).
  { replace (-53) with (-54 + 1) by lia. rewrite bpow_succ.
    replace (2 * bpow (-54) / 2)%R with (bpow (-54)) by lra.
    apply bpow_le. lia. }
  assert (HX : (0 <= X)%R).
  { apply Rabs_le_inv in Errx. rewrite bpow_m53 in Errx. lra. }
  set (Q := (X / P)%R) in *.
  assert (HQ : (0 <= Q <= X)%R).
  { unfold Q. split.
    - apply Rmult_le_pos; [ exact HX | apply Rlt_le, Rinv_0_lt_compat; lra ].
    - apply Rmult_le_reg_r with P; [ lra | ].
      replace (X / P * P)%R with X by (field; lra). nra. }
  destruct (SFdiv_spec sg mx ex false mp ep) as (my & ey & Sy & By & Cy & Erry).
  fold X P Q in Erry. rewrite Sy.
  set (Y := (IZR my * bpow ey)%R) in *.
  assert (ErrW : (Rabs (Y * P - X) <= X * bpow (-53) + 4 * bpow (-53))%R).
  { replace (Y * P - X)%R with ((Y - Q) * P)%R by (unfold Q; field; lra).
    rewrite Rabs_mult, (Rabs_pos_eq P) by lra.
    apply Rle_trans with ((Q * bpow (-53) + bpow (-1075)) * P)%R.
    - apply Rmult_le_compat_r; lra.
    - replace ((Q * bpow (-53) + bpow (-1075)) * P)%R
        with (X * bpow (-53) + bpow (-1075) * P)%R by (unfold Q; field; lra).
      lra. }
  assert (Hmy : 0 < my).
  { destruct (Z.eq_dec my 0) as [E | ]; [ | lia ].
    exfalso. unfold Y in ErrW. rewrite E, !Rmult_0_l in ErrW.
    apply Rabs_le_inv in ErrW, Errx. rewrite bpow_m53 in *. lra. }
  assert (HY : (Y < bpow 1024)%R).
  { apply Rabs_le_inv in Erry, Errx. rewrite bpow_m53 in *. lra. }
  destruct (packed_below (xorb sg false) my ey By Cy HY) as (_ & _ & Ey).
  rewrite (Ey Hmy).
  destruct (SFmul_spec (xorb sg false) (Z.to_pos my) ey false mp ep ltac:(lia))
    as (mz & ez & Sz & Bz & Cz & Errz).
  rewrite Z2Pos.id in Errz by exact Hmy.
  fold Y P in Errz. rewrite Sz.
  pose proof (three_roundings A X (Y * P) (IZR mz * bpow ez) (bpow (-1075)) HA
                (conj Heta Heta2) Errx ErrW Errz) as Fin.
  assert (HZ : (IZR mz * bpow ez < bpow 1024)%R).
  { apply Rabs_le_inv in Fin. rewrite bpow_m53 in *. lra. }
  destruct (packed_below (xorb (xorb sg false) false) mz ez Bz Cz HZ) as (Fz & Vz & _).
  split; [ exact Fz | ].
  rewrite Vz, bpow_m50.
  replace (xorb (xorb sg false) false) with sg by (destruct sg; reflexivity).
  apply Rabs_le_inv in Fin. apply Rabs_le. destruct sg; lra.
Qed.

(** *** Strings of decimal digits *)

Lemma is_digit_code c : is_digit c = true -> 48 <= code c <= 57.
Proof. unfold is_digit. intros H. apply andb_true_iff in H. lia. Qed.

Lemma digit_not_space c : is_digit c = true -> is_space c = false.
Proof.
  intros H. apply is_digit_code in H. unfold is_space.
  apply orb_false_iff. split; [ apply andb_false_iff | ]; lia.
Qed.

Lemma digit_not_underscore c : is_digit c = true -> is_underscore c = false.
Proof. intros H. apply is_digit_code in H. unfold is_underscore. lia. Qed.

Lemma digit_lower c : is_digit c = true -> lower c = c.
Proof.
  intros H. apply is_digit_code in H. unfold lower.
  replace (65 <=? code c) with false by lia. reflexivity.
Qed.

Lemma drop_spaces_digits ds : forallb is_digit ds = true -> drop_spaces ds = ds.
Proof.
  destruct ds as [ | c ds]; [ reflexivity | ]. cbn [forallb drop_spaces].
  intros H. apply andb_true_iff in H. destruct H as [H _].
  rewrite (digit_not_space c H). reflexivity.
Qed.

Lemma forallb_rev {A} (f : A -> bool) l : forallb f l = true -> forallb f (rev l) = true.
Proof.
  rewrite !forallb_forall. intros H x Hx. apply H, in_rev. exact Hx.
Qed.

Lemma strip_digits ds : forallb is_digit ds = true -> strip ds = ds.
Proof.
  intros H. unfold strip. rewrite (drop_spaces_digits ds H).
  rewrite (drop_spaces_digits (rev ds) (forallb_rev _ _ H)). apply rev_involutive.
Qed.

Lemma remove_underscores_digits ds : forall prev,
  match prev with Some p => is_underscore p = false | None => True end ->
  forallb is_digit ds = true ->
  remove_underscores prev ds = Some ds.
Proof.
  induction ds as [ | c ds IH]; intros prev Hp H; cbn [remove_underscores].
  - destruct prev as [p | ]; [ rewrite Hp | ]; reflexivity.
  - cbn [forallb] in H. apply andb_true_iff in H. destruct H as [Hc H].
    rewrite (digit_not_underscore c Hc).
    replace (match prev with Some p => is_underscore p | None => false end) with false
      by (destruct prev; [ rewrite Hp | ]; reflexivity).
    cbn [andb]. rewrite (IH (Some c) (digit_not_underscore c Hc) H). reflexivity.
Qed.

Lemma split_sign_digits c ds : is_digit c = true -> split_sign (c :: ds) = (false, c :: ds).
Proof.
  intros H. apply is_digit_code in H. unfold split_sign.
  replace (code c =? 45) with false by lia.
  replace (code c =? 43) with false by lia. reflexivity.
Qed.

Lemma span_digits_all ds : forallb is_digit ds = true -> span_digits ds = (ds, []).
Proof.
  induction ds as [ | c ds IH]; [ reflexivity | ]. cbn [forallb span_digits].
  intros H. apply andb_true_iff in H. destruct H as [Hc H].
  rewrite Hc, (IH H). reflexivity.
Qed.

Lemma digit_is_no_letter c a :
  is_digit c = true -> is_digit a = false -> Ascii.eqb (lower c) a = false.
Proof.
  intros Hc Ha. rewrite (digit_lower c Hc). apply Ascii.eqb_neq. congruence.
Qed.

(** [float(s)] for a string of decimal digits. *)
Lemma parse_float_digits ds :
  ds <> [] -> forallb is_digit ds = true ->
  parse_float (string_of_list_ascii ds) = Some (float_of_ratio false (digits_value ds) 1).
Proof.
  intros Hne H. unfold parse_float.
  rewrite list_ascii_of_string_of_list_ascii, (strip_digits ds H).
  rewrite (remove_underscores_digits ds None I H).
  destruct ds as [ | c ds]; [ congruence | ].
  pose proof H as H'. cbn [forallb] in H'. apply andb_true_iff in H'. destruct H' as [Hc _].
  rewrite (split_sign_digits c ds Hc).
  cbn [map string_of_list_ascii String.eqb].
  rewrite !(digit_is_no_letter c _ Hc) by reflexivity. cbn [orb].
  unfold parse_decimal. rewrite (span_digits_all _ H), app_nil_r.
  cbn [List.length Z.of_nat Z.opp]. unfold float_of_decimal.
  cbn [Z.leb Z.compare]. rewrite Z.pow_0_r, Z.mul_1_r. reflexivity.
Qed.

Lemma digits_value_nonneg ds : forallb is_digit ds = true -> 0 <= digits_value ds.
Proof.
  unfold digits_value. intros H.
  assert (G : forall acc, 0 <= acc ->
            0 <= fold_left (fun acc c => 10 * acc + (code c - 48)) ds acc).
  { induction ds as [ | c ds IH]; intros acc Hacc; [ exact Hacc | ].
    cbn [forallb] in H. apply andb_true_iff in H. destruct H as [Hc H].
    cbn [fold_left]. apply (IH H). apply is_digit_code in Hc. lia. }
  apply G. lia.
Qed.

(** What [float(value)] gives for a fixed-point value. *)
Lemma float_of_fixed_point val v :
  fixed_point val v -> Z.abs v <= 10 ^ 308 ->
  exists x, float_ val = Ok x /\
            (v = 0 /\ x = zero \/ v <> 0 /\ rounds x (v <? 0) (IZR (Z.abs v))).
Proof.
  intros [u | ds Hne H] Hb; cbn [float_].
  - destruct (Z.eq_dec u 0) as [-> | Hu].
    + exists zero. split; [ reflexivity | left; split; reflexivity ].
    + destruct (float_of_int_rounds u Hu Hb) as (x & Hx & Rx).
      exists x. split; [ exact Hx | right; split; assumption ].
  - rewrite (parse_float_digits ds Hne H).
    pose proof (digits_value_nonneg ds H) as H0.
    set (n := digits_value ds) in *.
    exists (float_of_ratio false n 1). split; [ reflexivity | ].
    destruct (Z.eq_dec n 0) as [E | Hn].
    + left. rewrite E. split; reflexivity.
    + right. split; [ exact Hn | ].
      replace (n <? 0) with false by lia. rewrite Z.abs_eq in * by lia.
      apply float_of_ratio_rounds. lia.
Qed.

(** *** The round trip *)

(** C8: for every fixed-point value (a Python int, or a string of decimal
    digits as a subgraph gives its big integers) that stands for an integer
    [v] of magnitude at most [10^308], and every decimal count [d] up to
    308, [normalize_value] returns a float [y] without printing, and the
    product [y * 10 ** d] is a finite float within [2^-50 * |v|] of [v].
    The tolerance is that of three roundings of relative error [2^-53]
    each (the conversion of [v], the division, the product) and of an
    underflow of the quotient, which the product turns into at most
    [2^-51]. *)
Theorem round_trip_within_tolerance val v d w :
  fixed_point val v -> Z.abs v <= 10 ^ 308 -> (d <= 308)%N ->
  exists y z,
    normalize_value val d w = (Ok (Some y), w) /\
    scale_back y d = Ok z /\
    finite z = true /\
    (Rabs (F2R z - IZR v) <= Rabs (IZR v) * bpow (-50))%R.
Proof.
  intros Hfp Hv Hd.
  assert (Hp0 : 0 < 10 ^ Z.of_N d) by (apply Z.pow_pos_nonneg; lia).
  assert (Hp1 : Z.abs (10 ^ Z.of_N d) <= 10 ^ 308).
  { rewrite Z.abs_eq by lia. apply Z.pow_le_mono_r; lia. }
  destruct (float_of_int_rounds (10 ^ Z.of_N d) ltac:(lia) Hp1) as (p & Hp & Rp).
  replace (10 ^ Z.of_N d <? 0) with false in Rp by lia.
  destruct (float_of_fixed_point val v Hfp Hv) as (x & Hx & Cx).
  exists (x / p)%float, (x / p * p)%float.
  split; [ | split ].
  - unfold normalize_value. rewrite Hx, Hp. cbn [rbind]. unfold truediv.
    rewrite (rounds_not_zero p _ _ Rp). reflexivity.
  - unfold scale_back. rewrite Hp. reflexivity.
  - destruct Cx as [(-> & ->) | (Hv0 & Rx)].
    + destruct Rp as (mp & ep & Sp & _).
      unfold finite, F2R. rewrite mul_spec, div_spec, Sp.
      change (Prim2SF zero) with (S754_zero false).
      cbn. rewrite Rminus_diag, Rabs_R0, Rmult_0_l. split; [ reflexivity | lra ].
    + assert (HA : (1 <= IZR (Z.abs v) <= IZR (10 ^ 308))%R).
      { split; apply IZR_le; lia. }
      destruct (div_mul_back _ x p _ _ Rx Rp HA) as (Fz & Ez).
      split; [ exact Fz | ].
      rewrite <- abs_IZR.
      replace (IZR v) with ((if v <? 0 then -1 else 1) * IZR (Z.abs v))%R at 1; [ exact Ez | ].
      destruct (Z.ltb_spec v 0).
      * rewrite Z.abs_neq by lia. rewrite opp_IZR. lra.
      * rewrite Z.abs_eq by lia. lra.
Qed.

Lemma round_trip_within_tolerance_witness :
  exists y z,
    normalize_value (PStr "1234567890123456789012") 12 (world_of [])
    = (Ok (Some y), world_of []) /\
    scale_back y 12 = Ok z /\
    finite z = true /\
    (Rabs (F2R z - IZR 1234567890123456789012)
     <= Rabs (IZR 1234567890123456789012) * bpow (-50))%R.
Proof.
  apply (round_trip_within_tolerance
           (PStr "1234567890123456789012") 1234567890123456789012 12 (world_of [])).
  - apply (fixed_point_str (list_ascii_of_string "1234567890123456789012")).
    + discriminate.
    + reflexivity.
  - vm_compute. discriminate.
  - vm_compute. discriminate.
Defined.

(** The tolerance cannot be zero: 7 at two decimals comes back as the next
    float after 7. *)
Example round_trip_of_7_is_inexact :
  normalize_value (PInt 7) 2 (world_of []) = (Ok (Some (7 / 100)%float), world_of []) /\
  scale_back (7 / 100)%float 2 = Ok (next_up 7) /\
  (next_up 7 =? 7)%float = false.
Proof.
  split; [ vm_compute; reflexivity | ].
  split; vm_compute; reflexivity.
Qed.

(** The bound on [v] cannot be dropped: the largest float, as an int, is
    normalized at 12 decimals without an exception, and the product of the
    result with [10 ** 12] is infinite. *)
Example round_trip_overflows_at_the_largest_float :
  float_ (PInt (2 ^ 1024 - 2 ^ 971)) = Ok largest_float /\
  normalize_value (PInt (2 ^ 1024 - 2 ^ 971)) 12 (world_of [])
  = (Ok (Some (largest_float / 1000000000000)%float), world_of []) /\
  scale_back (largest_float / 1000000000000)%float 12 = Ok infinity /\
  finite infinity = false.
Proof.
  split; [ vm_compute; reflexivity | ].
  split; [ vm_compute; reflexivity | ].
  split; vm_compute; reflexivity.
Qed.

(** ** The two subgraph queries *)

(** Once the network has answered, the rest of the resolver runs in the
    world the request has left. *)
Lemma get_block_from_timestamp_answered t u w r :
  next_answer w = Ok r ->
  get_block_from_timestamp t u w =
  (if negb (status_code r =? 200) then
     print (ErrorQueryingBlockSubgraph (status_code r) (text r)) ;;
     ret PNone
   else
     data <- lift (json r) ;;
     has_errors <- lift (contains "errors" data) ;;
     if (has_errors : bool) then
       errors <- lift (getitem data "errors") ;;
       print (GraphQLErrors errors) ;;
       ret PNone
     else
       d <- lift (get data "data" (PDict [])) ;;
       blocks <- lift (get d "blocks" (PList [])) ;;
       if negb (truthy blocks) then
         print (NoBlocksFound t) ;;
         ret PNone
       else
         block <- lift (getitem0 blocks) ;;
         number <- lift (getitem block "number") ;;
         print (FoundBlock number t) ;;
         lift (getitem block "number")) (posted u (BlocksQuery t) w).
Proof.
  unfold next_answer. intros H. unfold get_block_from_timestamp.
  unfold bind at 1. unfold requests_post. rewrite H. reflexivity.
Qed.

Lemma query_pool_at_block_answered u p b w r :
  next_answer w = Ok r ->
  query_pool_at_block u p b w =
  (if negb (status_code r =? 200) then
     print (ErrorQueryingSubgraph (status_code r) (text r)) ;;
     ret PNone
   else
     data <- lift (json r) ;;
     has_errors <- lift (contains "errors" data) ;;
     if (has_errors : bool) then
       errors <- lift (getitem data "errors") ;;
       print (GraphQLErrors errors) ;;
       ret PNone
     else
       d <- lift (get data "data" (PDict [])) ;;
       lift (get d "gammaPool" PNone)) (posted u (GammaPoolQuery p b) w).
Proof.
  unfold next_answer. intros H. unfold query_pool_at_block.
  unfold bind at 1. unfold requests_post. rewrite H. reflexivity.
Qed.

(** Splits a completed run on every test and lookup it went through. *)
Ltac split_cases H :=
  repeat (match type of H with
          | context [match ?x with _ => _ end] => destruct x eqn:?
          end; cbn [fst snd negb] in H).

(** X1: [get_block_from_timestamp] returns a value other than [None] only
    when the answer has status 200, its body is a JSON object without an
    ["errors"] key, whose ["data"] is an object whose ["blocks"] is a list
    that starts with an object, and the value is the ["number"] of that
    first block; the blocks after the first are not looked at.  And for
    such an answer it does return that number, when the number and the
    timestamp are scalars that line 42 can print. *)
Theorem get_block_from_timestamp_returns t u w v :
  v <> PNone ->
  (fst (get_block_from_timestamp t u w) = Ok v ->
   exists r top data block rest,
     next_answer w = Ok r /\ status_code r = 200 /\
     json r = Ok (PDict top) /\
     lookup "errors" top = None /\
     lookup "data" top = Some (PDict data) /\
     lookup "blocks" data = Some (PList (PDict block :: rest)) /\
     lookup "number" block = Some v) /\
  (plain v = true ->
   plain (PInt t) = true ->
   (exists r top data block rest,
      next_answer w = Ok r /\ status_code r = 200 /\
      json r = Ok (PDict top) /\
      lookup "errors" top = None /\
      lookup "data" top = Some (PDict data) /\
      lookup "blocks" data = Some (PList (PDict block :: rest)) /\
      lookup "number" block = Some v) ->
   get_block_from_timestamp t u w
   = (Ok v, printed (FoundBlock v t) (posted u (BlocksQuery t) w))).
Proof.
  intros Hv. split.
  - destruct (next_answer w) as [r | e] eqn:Hn.
    2:{ unfold get_block_from_timestamp, bind, requests_post.
        unfold next_answer in Hn. rewrite Hn. discriminate. }
    rewrite (get_block_from_timestamp_answered t u w r Hn).
    destruct (status_code r =? 200) eqn:Hs; cbn [negb].
    2:{ cbn. congruence. }
    apply Z.eqb_eq in Hs.
    destruct (json r) as [top | e] eqn:Hj; [ | cbn; discriminate ].
    unfold bind at 1. cbn [lift].
    destruct (contains "errors" top) as [[ | ] | e] eqn:Hc; unfold bind at 1; cbn [lift].
    { destruct (getitem top "errors"); cbn; congruence. }
    2:{ discriminate. }
    destruct top as [ | | | | | | top ]; try (cbn; discriminate).
    cbn in Hc. cbn [get]. unfold bind at 1. cbn [lift].
    destruct (lookup "errors" top) eqn:He; [ discriminate | ].
    destruct (lookup "data" top) as [d | ] eqn:Hd.
    2:{ cbn. congruence. }
    destruct d as [ | | | | | | data ]; try (cbn; discriminate).
    cbn [get]. unfold bind at 1. cbn [lift].
    destruct (lookup "blocks" data) as [blocks | ] eqn:Hb.
    2:{ cbn. congruence. }
    destruct (truthy blocks) eqn:Tb; cbn [negb].
    2:{ cbn. congruence. }
    destruct blocks as [ | | | | s | [ | block rest ] | ];
      try (unfold bind at 1; cbn; discriminate).
    { destruct s; unfold bind at 1; cbn; discriminate. }
    unfold bind at 1. cbn [lift getitem0].
    destruct block as [ | | | | | | block ]; try (cbn; discriminate).
    cbn [getitem]. destruct (lookup "number" block) as [n | ] eqn:Hnum; [ | cbn; discriminate ].
    cbn. intros E. inversion E; subst n.
    exists r, top, data, block, rest. repeat split; assumption.
  - intros _ _ (r & top & data & block & rest & Hn & Hs & Hj & He & Hd & Hb & Hnum).
    rewrite (get_block_from_timestamp_answered t u w r Hn).
    rewrite Hs, Hj. cbn. rewrite He. cbn. rewrite Hd. cbn. rewrite Hb. cbn.
    rewrite Hnum. reflexivity.
Qed.

Lemma get_block_from_timestamp_returns_witness :
  PInt 100 <> PNone /\
  fst (get_block_from_timestamp 0 block_subgraph_url one_week) = Ok (PInt 100) /\
  exists r top data block rest,
    next_answer one_week = Ok r /\ status_code r = 200 /\
    json r = Ok (PDict top) /\
    lookup "errors" top = None /\
    lookup "data" top = Some (PDict data) /\
    lookup "blocks" data = Some (PList (PDict block :: rest)) /\
    lookup "number" block = Some (PInt 100).
Proof.
  assert (H : PInt 100 <> PNone) by discriminate.
  split; [ exact H | ].
  assert (R : fst (get_block_from_timestamp 0 block_subgraph_url one_week) = Ok (PInt 100)).
  { rewrite (proj2 (get_block_from_timestamp_returns 0 block_subgraph_url one_week
                      (PInt 100) H) eq_refl eq_refl); [ reflexivity | ].
    do 5 eexists. repeat split; reflexivity. }
  split; [ exact R | ].
  exact (proj1 (get_block_from_timestamp_returns 0 block_subgraph_url one_week
                  (PInt 100) H) R).
Defined.

(** X2: the resolver returns [None] without raising, after one line of
    output, for an answer whose status is not 200 (the body is then not
    decoded; the line shows the status and the text, taken here to be
    ASCII), and for a status-200 answer whose body is a JSON object without
    an ["errors"] key that has no ["data"] key, or whose ["data"] has no
    ["blocks"] or a falsy one, the empty list included. *)
Theorem get_block_from_timestamp_none t u w r :
  next_answer w = Ok r ->
  plain (PInt t) = true ->
  (status_code r <> 200 ->
   is_ascii (text r) = true ->
   get_block_from_timestamp t u w
   = (Ok PNone,
      printed (ErrorQueryingBlockSubgraph (status_code r) (text r))
        (posted u (BlocksQuery t) w))) /\
  (forall top,
      status_code r = 200 ->
      json r = Ok (PDict top) ->
      lookup "errors" top = None ->
      lookup "data" top = None \/
      (exists data,
         lookup "data" top = Some (PDict data) /\
         (lookup "blocks" data = None \/
          exists blocks,
            lookup "blocks" data = Some blocks /\ truthy blocks = false)) ->
      get_block_from_timestamp t u w
      = (Ok PNone, printed (NoBlocksFound t) (posted u (BlocksQuery t) w))).
Proof.
  intros Hn _. rewrite (get_block_from_timestamp_answered t u w r Hn). split.
  - intros Hs _. destruct (status_code r =? 200) eqn:E.
    + apply Z.eqb_eq in E. contradiction.
    + reflexivity.
  - intros top Hs Hj He H.
    rewrite Hs, Hj. cbn. rewrite He. cbn.
    destruct H as [Hd | (data & Hd & H)].
    + rewrite Hd. reflexivity.
    + rewrite Hd. cbn. destruct H as [Hb | (blocks & Hb & Tb)]; rewrite Hb; cbn.
      * reflexivity.
      * rewrite Tb. reflexivity.
Qed.

Lemma get_block_from_timestamp_none_witness :
  (fst (get_block_from_timestamp 0 block_subgraph_url first_request_refused)
   = Ok PNone /\
   stdout (snd (get_block_from_timestamp 0 block_subgraph_url first_request_refused))
   = [ErrorQueryingBlockSubgraph 503 "Service Unavailable"]) /\
  (fst (get_block_from_timestamp 0 block_subgraph_url late_start) = Ok PNone /\
   stdout (snd (get_block_from_timestamp 0 block_subgraph_url late_start))
   = [NoBlocksFound 0]).
Proof.
  split.
  - rewrite (proj1 (get_block_from_timestamp_none 0 block_subgraph_url
                      first_request_refused
                      {| status_code := 503; text := "Service Unavailable";
                         json := Raise JSONDecodeError |}
                      eq_refl eq_refl)).
    + split; reflexivity.
    + cbn. lia.
    + reflexivity.
  - rewrite (proj2 (get_block_from_timestamp_none 0 block_subgraph_url late_start
                      {| status_code := 200; text := EmptyString;
                         json := Ok (PDict [("data"%string,
                                             PDict [("blocks"%string, PList [])])]) |}
                      eq_refl eq_refl)
               [("data"%string, PDict [("blocks"%string, PList [])])]
               eq_refl eq_refl eq_refl).
    + split; reflexivity.
    + right. eexists. split; [ reflexivity | ]. right. eexists. split; reflexivity.
Defined.

(** X3: the default of [data.get("data", {})] stands in for a missing key
    only.  When the body has a ["data"] that is no object, [null] included,
    and no ["errors"], the next [.get] raises [AttributeError], in the
    resolver and in the pool query alike. *)
Theorem null_data_raises_attribute_error t u g p b w r top d :
  next_answer w = Ok r -> status_code r = 200 ->
  json r = Ok (PDict top) ->
  lookup "errors" top = None ->
  lookup "data" top = Some d -> is_dict d = false ->
  fst (get_block_from_timestamp t u w) = Raise AttributeError /\
  fst (query_pool_at_block g p b w) = Raise AttributeError.
Proof.
  intros Hn Hs Hj He Hd Hi.
  rewrite (get_block_from_timestamp_answered t u w r Hn).
  rewrite (query_pool_at_block_answered g p b w r Hn).
  rewrite Hs, Hj. cbn. rewrite He. cbn. rewrite Hd.
  destruct d; try discriminate; split; reflexivity.
Qed.

Lemma null_data_raises_attribute_error_witness :
  fst (get_block_from_timestamp 0 block_subgraph_url null_data) = Raise AttributeError /\
  fst (query_pool_at_block arb_subgraph_url pool_id (PInt 100) null_data)
  = Raise AttributeError.
Proof.
  eapply (null_data_raises_attribute_error 0 block_subgraph_url arb_subgraph_url pool_id
            (PInt 100) null_data);
    reflexivity.
Defined.

(** X4: neither function catches what [requests.post] raises, nor what
    [response.json()] raises on a status-200 body that is no JSON: the
    exception leaves the function, with the request sent and nothing
    printed. *)
Theorem request_failures_are_not_caught t u g p b w e :
  next_answer w = Raise e \/
  (exists r, next_answer w = Ok r /\ status_code r = 200 /\ json r = Raise e) ->
  get_block_from_timestamp t u w = (Raise e, posted u (BlocksQuery t) w) /\
  query_pool_at_block g p b w = (Raise e, posted g (GammaPoolQuery p b) w).
Proof.
  intros [Hn | (r & Hn & Hs & Hj)].
  - unfold get_block_from_timestamp, query_pool_at_block, bind, requests_post.
    unfold next_answer in Hn. rewrite Hn. split; reflexivity.
  - rewrite (get_block_from_timestamp_answered t u w r Hn).
    rewrite (query_pool_at_block_answered g p b w r Hn).
    rewrite Hs, Hj. split; reflexivity.
Qed.

Lemma request_failures_are_not_caught_witness :
  fst (get_block_from_timestamp 0 block_subgraph_url (world_of [])) = Raise RequestException /\
  fst (query_pool_at_block arb_subgraph_url pool_id (PInt 100) (world_of []))
  = Raise RequestException.
Proof.
  destruct (request_failures_are_not_caught 0 block_subgraph_url arb_subgraph_url pool_id
              (PInt 100) (world_of []) RequestException) as (H1 & H2).
  - left. reflexivity.
  - rewrite H1, H2. split; reflexivity.
Defined.

(** X5: whatever the network answers, the resolver sends exactly one
    request, to the URL it was given and for the timestamp it was given,
    and leaves the file alone; it prints exactly one line when it returns
    and none when it raises. *)
Theorem get_block_from_timestamp_effects t u w :
  let r := fst (get_block_from_timestamp t u w) in
  let w' := snd (get_block_from_timestamp t u w) in
  network w' = network w /\
  sent w' = sent w ++ [{| url := u; document := BlocksQuery t |}] /\
  csv w' = csv w /\
  match r with
  | Ok _ => exists m, stdout w' = stdout w ++ [m]
  | Raise _ => stdout w' = stdout w
  end.
Proof.
  cbv zeta.
  destruct (get_block_from_timestamp_world t u w) as (H1 & H2 & H3).
  split; [ exact H1 | ]. split; [ exact H2 | ]. split; [ exact H3 | ].
  clear H1 H2 H3.
  destruct (get_block_from_timestamp t u w) as [r w'] eqn:H. cbn [fst snd].
  unfold get_block_from_timestamp, requests_post, bind, lift, print, ret in H.
  split_cases H; inversion H; subst; cbn [stdout]; try reflexivity; eexists; reflexivity.
Qed.

(** X6: on a status-200 answer whose body is a JSON object without
    ["errors"], [query_pool_at_block] prints nothing and returns the
    ["gammaPool"] of ["data"], [None] when ["data"] or ["gammaPool"] is
    missing; a pool the subgraph does not know ([null]) comes back as
    [None] too. *)
Theorem query_pool_at_block_returns u p b w r top :
  next_answer w = Ok r -> status_code r = 200 ->
  json r = Ok (PDict top) ->
  lookup "errors" top = None ->
  query_pool_at_block u p b w =
  (match lookup "data" top with
   | None => Ok PNone
   | Some (PDict data) =>
       Ok (match lookup "gammaPool" data with Some pool => pool | None => PNone end)
   | Some _ => Raise AttributeError
   end,
   posted u (GammaPoolQuery p b) w).
Proof.
  intros Hn Hs Hj He.
  rewrite (query_pool_at_block_answered u p b w r Hn).
  rewrite Hs, Hj. cbn. rewrite He. cbn.
  destruct (lookup "data" top) as [[ | | | | | | data] | ]; reflexivity.
Qed.

Lemma query_pool_at_block_returns_witness :
  fst (query_pool_at_block arb_subgraph_url pool_id (PInt 100)
         (snd (get_block_from_timestamp 0 block_subgraph_url no_pool_yet)))
  = Ok PNone.
Proof.
  rewrite (query_pool_at_block_returns arb_subgraph_url pool_id (PInt 100)
             (snd (get_block_from_timestamp 0 block_subgraph_url no_pool_yet))
             {| status_code := 200; text := EmptyString;
                json := Ok (PDict [("data"%string,
                                    PDict [("gammaPool"%string, PNone)])]) |}
             [("data"%string, PDict [("gammaPool"%string, PNone)])]
             eq_refl eq_refl eq_refl eq_refl).
  reflexivity.
Defined.

(** X7: whatever the network answers, the pool query sends exactly one
    request, with the pool id and the block it was given, and leaves the
    file alone; it prints a line only when it returns [None] for an HTTP or
    GraphQL error, and none when it raises. *)
Theorem query_pool_at_block_effects u p b w :
  let r := fst (query_pool_at_block u p b w) in
  let w' := snd (query_pool_at_block u p b w) in
  network w' = network w /\
  sent w' = sent w ++ [{| url := u; document := GammaPoolQuery p b |}] /\
  csv w' = csv w /\
  match r with
  | Ok v => stdout w' = stdout w \/ v = PNone /\ exists m, stdout w' = stdout w ++ [m]
  | Raise _ => stdout w' = stdout w
  end.
Proof.
  cbv zeta.
  destruct (query_pool_at_block_world u p b w) as (H1 & H2 & H3).
  split; [ exact H1 | ]. split; [ exact H2 | ]. split; [ exact H3 | ].
  clear H1 H2 H3.
  destruct (query_pool_at_block u p b w) as [r w'] eqn:H. cbn [fst snd].
  unfold query_pool_at_block, requests_post, bind, lift, print, ret in H.
  split_cases H; inversion H; subst; cbn [stdout]; try reflexivity;
    try (left; reflexivity);
    try (right; (split; [ reflexivity | eexists; reflexivity ])).
  match goal with |- match ?x with _ => _ end => destruct x end; [ left | ]; reflexivity.
Qed.

(** ** The file *)

Lemma appended_nil file : appended file [] = file.
Proof. destruct file; cbn; [ rewrite app_nil_r | ]; reflexivity. Qed.

Lemma appended_app file a b : appended (appended file a) b = appended file (a ++ b).
Proof.
  destruct file as [ls | ]; cbn.
  - rewrite map_app, app_assoc. reflexivity.
  - destruct a as [ | r a]; cbn; [ reflexivity | ].
    rewrite map_app. reflexivity.
Qed.

Lemma csv_save_to_csv row w : csv (snd (save_to_csv row w)) = appended (csv w) [row].
Proof. unfold save_to_csv. cbn. destruct (csv w); reflexivity. Qed.

(** What is read back from a file that rows were appended to. *)
Lemma rows_appended w w' rs :
  csv w' = appended (csv w) rs -> rows w' = rows w ++ rs.
Proof.
  unfold rows. intros ->.
  assert (F : forall l,
             flat_map (fun ln => match ln with Row r => [r] | Header => [] end)
               (map Row l) = l).
  { induction l as [ | r l IH]; [ reflexivity | ]. cbn. rewrite IH. reflexivity. }
  destruct (csv w) as [ls | ]; cbn [appended].
  - rewrite flat_map_app, F. reflexivity.
  - destruct rs as [ | r rs]; [ reflexivity | ]. cbn. rewrite F. reflexivity.
Qed.

(** X8: rows saved one after the other, when every save completes, into a
    file that does not exist give the header once, at the top, and then
    the rows in order; into a file that exists, the empty file included,
    they are appended after what is there, without a header.  Read back,
    the file has the rows it had and then the rows saved, in order. *)
Theorem save_to_csv_writes_the_header_once rs w :
  fst (save_all rs w) = Ok tt ->
  csv (snd (save_all rs w)) = appended (csv w) rs /\
  rows (snd (save_all rs w)) = rows w ++ rs.
Proof.
  intros _.
  assert (C : csv (snd (save_all rs w)) = appended (csv w) rs).
  { revert w. induction rs as [ | r rs IH]; intros w.
    - rewrite appended_nil. reflexivity.
    - cbn [save_all]. unfold bind.
      pose proof (csv_save_to_csv r w) as C.
      destruct (save_to_csv r w) as [[[] | e] w1] eqn:S; [ | discriminate ].
      cbn [snd] in C. rewrite IH, C, appended_app. reflexivity. }
  split; [ exact C | exact (rows_appended _ _ _ C) ].
Qed.

Lemma save_to_csv_writes_the_header_once_witness :
  csv (snd (save_all (rows (snd (main 3 0 604800 two_weeks))) (world_of [])))
  = csv (snd (main 3 0 604800 two_weeks)) /\
  List.length (rows (snd (save_all (rows (snd (main 3 0 604800 two_weeks)))
                            (world_of []))))
  = 2%nat.
Proof.
  destruct (save_to_csv_writes_the_header_once
              (rows (snd (main 3 0 604800 two_weeks))) (world_of []))
    as (C & R).
  - reflexivity.
  - rewrite C, R. split; vm_compute; reflexivity.
Defined.

(** ** Whole iterations *)

Lemma offline_refl w : offline w w.
Proof. split; reflexivity. Qed.

Lemma offline_trans w1 w2 w3 : offline w1 w2 -> offline w2 w3 -> offline w1 w3.
Proof. unfold offline. intros (? & ?) (? & ?). split; congruence. Qed.

Lemma quiet_offline w w' : quiet w w' -> offline w w'.
Proof. intros (H1 & H2 & _). split; assumption. Qed.

Lemma keeps_offline_save_to_csv row : keeps offline (save_to_csv row).
Proof. intros w. split; reflexivity. Qed.

Ltac offline_auto :=
  repeat first
    [ apply (keeps_weaken quiet offline _ quiet_offline);
      first [ apply keeps_print | apply keeps_read_sample ]
    | apply keeps_offline_save_to_csv
    | apply (keeps_ret offline offline_refl)
    | apply (keeps_lift offline offline_refl)
    | apply (keeps_bind offline offline_trans); [ | intros ? ]
    | apply keeps_if ].

(** X9: an iteration asks the block subgraph for the block of its cursor
    and then, only when the resolver returned a truthy block number, the
    pool subgraph for the pool [pool_id] at exactly that block; it sends
    nothing else, whether it completes or raises. *)
Theorem iteration_asks_for_the_block_then_the_pool l w :
  let asked_block :=
    {| url := block_subgraph_url; document := BlocksQuery (current_timestamp l) |} in
  let w' := snd (loop_body l w) in
  match fst (get_block_from_timestamp (current_timestamp l) block_subgraph_url w) with
  | Ok block_number =>
      if truthy block_number then
        sent w' = sent w ++ [asked_block;
                             {| url := arb_subgraph_url;
                                document := GammaPoolQuery pool_id block_number |}]
      else sent w' = sent w ++ [asked_block]
  | Raise _ => sent w' = sent w ++ [asked_block]
  end.
Proof.
  cbv zeta. unfold loop_body.
  destruct (get_block_from_timestamp_world (current_timestamp l) block_subgraph_url w)
    as (_ & Hs & _).
  destruct (get_block_from_timestamp _ _ w) as [[bn | e] w1] eqn:Hb; cbn [fst snd] in *.
  2:{ rewrite (bind_raise _ _ _ _ _ Hb). exact Hs. }
  rewrite (bind_ok _ _ _ _ _ Hb).
  destruct (truthy bn); cbn [negb].
  - destruct (query_pool_at_block_world arb_subgraph_url pool_id bn w1) as (_ & Hp & _).
    destruct (query_pool_at_block _ _ bn w1) as [[pd | e] w2] eqn:Hq; cbn [fst snd] in *.
    + rewrite (bind_ok _ _ _ _ _ Hq).
      match goal with
      | |- sent (snd (?c w2)) = _ => assert (K : keeps offline c)
      end.
      { offline_auto. }
      destruct (K w2) as (_ & K2). rewrite K2, Hp, Hs, <- app_assoc. reflexivity.
    + rewrite (bind_raise _ _ _ _ _ Hq). cbn [snd].
      rewrite Hp, Hs, <- app_assoc. reflexivity.
  - cbn. exact Hs.
Qed.

(** X10: when the pool query returns a falsy value ([None] for a pool the
    subgraph does not know, an empty object) the iteration takes the
    [else] branch of line 163: it prints that no data was returned and
    moves the cursor one week on, with the file and the baseline as they
    were. *)
Theorem falsy_pool_data_skips l w block_number w1 pool_data w2 :
  get_block_from_timestamp (current_timestamp l) block_subgraph_url w
  = (Ok block_number, w1) ->
  truthy block_number = true ->
  query_pool_at_block arb_subgraph_url pool_id block_number w1 = (Ok pool_data, w2) ->
  truthy pool_data = false ->
  loop_body l w = (Ok (advance l), printed (NoDataReturned block_number) w2) /\
  csv w2 = csv w /\
  pool_creation_data (advance l) = pool_creation_data l.
Proof.
  intros Hb Tb Hp Tp.
  split; [ | split; [ | reflexivity ] ].
  - unfold loop_body. rewrite (bind_ok _ _ _ _ _ Hb), Tb. cbn [negb].
    rewrite (bind_ok _ _ _ _ _ Hp), Tp. reflexivity.
  - destruct (get_block_from_timestamp_world (current_timestamp l) block_subgraph_url w)
      as (_ & _ & H1).
    destruct (query_pool_at_block_world arb_subgraph_url pool_id block_number w1)
      as (_ & _ & H2).
    rewrite Hb in H1. rewrite Hp in H2. cbn [snd] in *. congruence.
Qed.

Lemma falsy_pool_data_skips_witness :
  loop_body (start_of_run 0) no_pool_yet
  = (Ok (advance (start_of_run 0)), snd (loop_body (start_of_run 0) no_pool_yet)) /\
  csv (snd (loop_body (start_of_run 0) no_pool_yet)) = None.
Proof.
  destruct (falsy_pool_data_skips (start_of_run 0) no_pool_yet (PInt 100)
              (snd (get_block_from_timestamp 0 block_subgraph_url no_pool_yet))
              PNone
              (snd (query_pool_at_block arb_subgraph_url pool_id (PInt 100)
                      (snd (get_block_from_timestamp 0 block_subgraph_url no_pool_yet)))))
    as (H1 & H2 & _).
  - vm_compute. reflexivity.
  - reflexivity.
  - vm_compute. reflexivity.
  - reflexivity.
  - rewrite H1. cbn [snd]. split; [ reflexivity | ]. cbn [printed csv]. exact H2.
Defined.

Lemma bind_lift_ok {A B} (a : A) (k : A -> M B) w : bind (lift (Ok a)) k w = k a w.
Proof. reflexivity. Qed.

Lemma bind_lift_raise {A B} e (k : A -> M B) w : bind (lift (Raise e)) k w = (Raise e, w).
Proof. reflexivity. Qed.

Lemma bind_print {B} m (k : unit -> M B) w : bind (print m) k w = k tt (printed m w).
Proof. reflexivity. Qed.

(** An iteration that got a sample goes on with [derive_row], in a world
    with the same file. *)
Lemma loop_body_on_sample l w bn s :
  step_sample l w = Some (bn, s) ->
  exists w3,
    csv w3 = csv w /\
    loop_body l w = (l' <- derive_row l bn s ;; ret (advance l')) w3.
Proof.
  unfold step_sample, loop_body. intros H.
  destruct (get_block_from_timestamp_world (current_timestamp l) block_subgraph_url w)
    as (_ & _ & Hc).
  destruct (get_block_from_timestamp _ _ w) as [[b | e] w1] eqn:Hb; [ | discriminate ].
  cbn [snd] in Hc. rewrite (bind_ok _ _ _ _ _ Hb).
  destruct (truthy b); [ | discriminate ]. cbn [negb].
  destruct (query_pool_at_block_world arb_subgraph_url pool_id b w1) as (_ & _ & Hc2).
  destruct (query_pool_at_block _ _ b w1) as [[pd | e] w2] eqn:Hq; [ | discriminate ].
  cbn [snd] in Hc2. rewrite (bind_ok _ _ _ _ _ Hq).
  destruct (truthy pd); [ | discriminate ].
  unfold bind at 1. cbn [print].
  pose proof (keeps_read_sample pd (snd (print (DataRetrieved b) w2))) as (_ & _ & Hc3).
  cbn [print snd] in Hc3, H.
  destruct (read_sample pd _) as [[s' | e] w3] eqn:Hr; [ | discriminate ].
  inversion H; subst b s'. clear H.
  exists w3. split; [ cbn [snd csv] in Hc3; congruence | ].
  unfold bind at 1. rewrite Hr. reflexivity.
Qed.

(** [x / x] is 1 or NaN, never zero. *)
Lemma div_self_not_zero x : (x =? 0)%float = false -> (x / x =? 0)%float = false.
Proof.
  intros H. destruct (Prim2SF x) as [s | s | | s m e] eqn:E.
  - rewrite eqb_spec, E in H. destruct s; discriminate.
  - rewrite eqb_spec, div_spec, E. destruct s; reflexivity.
  - rewrite eqb_spec, div_spec, E. reflexivity.
  - rewrite div_self by (unfold finite_nonzero; rewrite E; reflexivity). reflexivity.
Qed.

Lemma total_lp_return_percent_zero ti ts lp s :
  total_supply s = Some ts -> last_price s = Some lp ->
  (ti =? 0)%float = true \/ (ts =? 0)%float = true \/ (lp =? 0)%float = true ->
  total_lp_return_percent ti s
    {| b_totalInvariant := ti; b_totalSupply := Some ts; b_lastPrice := Some lp |}
  = Raise ZeroDivisionError.
Proof.
  intros Hts Hlp H. unfold total_lp_return_percent. rewrite Hts, Hlp.
  cbn [b_totalInvariant b_totalSupply b_lastPrice truediv_]. unfold truediv.
  destruct (ti =? 0)%float eqn:E1; [ reflexivity | ]. cbn [rbind].
  destruct (ts =? 0)%float eqn:E2; [ reflexivity | ]. cbn [rbind].
  rewrite (div_self_not_zero ts E2). cbn [rbind].
  destruct (lp =? 0)%float eqn:E3; [ reflexivity | ].
  destruct H as [H | [H | H]]; discriminate.
Qed.

(** X11: the first sample is divided by itself.  When the run has no
    baseline yet and the sample's total invariant, its supply or its price
    is zero (a pool nobody has put anything in), the iteration raises
    [ZeroDivisionError] at lines 136-139 and writes no row. *)
Theorem zero_in_the_first_sample_raises l w block_number s li lbi lp ts :
  pool_creation_data l = None ->
  step_sample l w = Some (block_number, s) ->
  lp_invariant s = Some li -> lp_borrowed_invariant s = Some lbi ->
  last_price s = Some lp -> total_supply s = Some ts ->
  (li + lbi =? 0)%float = true \/ (ts =? 0)%float = true \/ (lp =? 0)%float = true ->
  fst (loop_body l w) = Raise ZeroDivisionError /\
  csv (snd (loop_body l w)) = csv w.
Proof.
  intros Hn Hs Hli Hlbi Hlp Hts Hz.
  destruct (loop_body_on_sample _ _ _ _ Hs) as (w3 & Hc & ->).
  assert (E : exists w4,
             (l' <- derive_row l block_number s ;; ret (advance l')) w3
             = (Raise ZeroDivisionError, w4) /\ csv w4 = csv w3).
  { unfold derive_row, capture. rewrite Hn, Hli, Hlbi. cbn [add_ rbind].
    rewrite Hts, Hlp. unfold bind at 1.
    rewrite bind_lift_ok, !bind_print, bind_lift_ok.
    rewrite (total_lp_return_percent_zero _ ts lp s Hts Hlp Hz), bind_lift_raise.
    eexists. split; reflexivity. }
  destruct E as (w4 & -> & Hc4). split; [ reflexivity | cbn [snd]; congruence ].
Qed.

Lemma zero_in_the_first_sample_raises_witness :
  fst (loop_body (start_of_run 0) empty_pool) = Raise ZeroDivisionError /\
  csv (snd (loop_body (start_of_run 0) empty_pool)) = csv empty_pool.
Proof.
  apply (zero_in_the_first_sample_raises (start_of_run 0) empty_pool (PInt 100)
           {| lp_invariant := Some 12%float;
              lp_borrowed_invariant := Some 0%float;
              last_price := Some 1%float;
              total_supply := Some 0%float |}
           12%float 0%float 1%float 0%float).
  - reflexivity.
  - vm_compute. reflexivity.
  - reflexivity.
  - reflexivity.
  - reflexivity.
  - reflexivity.
  - right. left. reflexivity.
Defined.

(** ** Whole runs *)

(** A run that ends has made the iterations needed, one after the other. *)
Lemma while_loop_iterate fuel today :
  forall l w l' w',
    while_loop fuel today l w = (Ok (Some l'), w') ->
    iterate (iterations_needed (current_timestamp l) today) l w = (Ok l', w').
Proof.
  induction fuel as [ | fuel IH]; intros l w l' w' H.
  - discriminate.
  - cbn [while_loop] in H. destruct (current_timestamp l <=? today) eqn:E.
    + apply Z.leb_le in E. rewrite (iterations_needed_step _ _ E). cbn [iterate].
      apply bind_ok_inv in H. destruct H as (l1 & w1 & Hb & H).
      rewrite (bind_ok _ _ _ _ _ Hb).
      rewrite <- (loop_body_cursor _ _ _ _ Hb). apply IH. exact H.
    + apply Z.leb_gt in E. rewrite (iterations_needed_done _ _ E).
      apply ret_ok_inv in H. destruct H as [H ->]. inversion H. reflexivity.
Qed.

Lemma step_sample_truthy l w bn s : step_sample l w = Some (bn, s) -> truthy bn = true.
Proof.
  unfold step_sample.
  destruct (get_block_from_timestamp _ _ w) as [[b | e] w1]; [ | discriminate ].
  destruct (truthy b) eqn:T; [ | discriminate ].
  destruct (query_pool_at_block _ _ b w1) as [[pd | e] w2]; [ | discriminate ].
  destruct (truthy pd); [ | discriminate ].
  destruct (read_sample pd _) as [[s' | e] w3]; [ | discriminate ].
  intros H. inversion H; subst. exact T.
Qed.

(** The rows [n] iterations add. *)
Lemma iterate_rows n :
  forall l w l' w',
    iterate n l w = (Ok l', w') ->
    exists added,
      rows w' = rows w ++ added /\
      (List.length added <= n)%nat /\
      StronglySorted Z.lt (map utcTimestamp added) /\
      Forall (fun r => truthy (blockNumber r) = true /\
                       exists k, (k < n)%nat /\
                                 utcTimestamp r = current_timestamp l + week * Z.of_nat k)
             added.
Proof.
  induction n as [ | n IH]; intros l w l' w' H.
  - cbn in H. apply ret_ok_inv in H. destruct H as [_ ->].
    exists []. rewrite app_nil_r. repeat split; [ cbn; lia | constructor | constructor ].
  - cbn [iterate] in H. apply bind_ok_inv in H. destruct H as (l1 & w1 & Hb & H).
    pose proof (loop_body_cursor _ _ _ _ Hb) as Hc.
    destruct (IH _ _ _ _ H) as (added & Hr & Hl & Hs & Hf).
    assert (Hf' : Forall (fun r => truthy (blockNumber r) = true /\
                       exists k, (k < S n)%nat /\
                                 utcTimestamp r = current_timestamp l + week * Z.of_nat k)
                    added).
    { eapply Forall_impl; [ | exact Hf ]. cbv beta. intros r (Tr & k & Hk & E).
      split; [ exact Tr | ]. exists (S k). split; [ lia | ]. rewrite E, Hc. lia. }
    assert (Hlt : Forall (Z.lt (current_timestamp l)) (map utcTimestamp added)).
    { apply Forall_map. eapply Forall_impl; [ | exact Hf ]. cbv beta.
      intros r (_ & k & _ & E). rewrite E, Hc. unfold week. lia. }
    destruct (step_sample l w) as [[bn s] | ] eqn:Hss.
    + destruct (loop_body_row _ _ _ _ _ _ Hb Hss)
        as (b & ti & ts & lp & x & y & _ & _ & _ & _ & _ & _ & _ & Hrow).
      exists (row_of (current_timestamp l) bn ti ts lp x y :: added).
      rewrite Hr, Hrow, <- app_assoc. split; [ reflexivity | ].
      split; [ cbn; lia | ].
      split; [ cbn; constructor; assumption | ].
      constructor; [ | exact Hf' ].
      split; [ exact (step_sample_truthy _ _ _ _ Hss) | ].
      exists O. split; [ lia | ]. cbn. lia.
    + destruct (loop_body_skip _ _ _ _ Hb Hss) as (_ & Hrow).
      exists added. rewrite Hr, Hrow. split; [ reflexivity | ].
      split; [ lia | ]. split; assumption.
Qed.

Lemma iterations_needed_bound start today k :
  (k < iterations_needed start today)%nat -> start + week * Z.of_nat k <= today.
Proof.
  unfold iterations_needed, week. change (7 * 86400) with 604800.
  destruct (start <=? today) eqn:E; [ | lia ].
  apply Z.leb_le in E. intros H.
  assert (H0 : 0 <= (today - start) / 604800) by (apply Z.div_pos; lia).
  assert (Hk : Z.of_nat k <= (today - start) / 604800) by lia.
  pose proof (Z.mul_div_le (today - start) 604800 ltac:(lia)). nia.
Qed.

(** X12: the rows a run that ends has added to the file are at most one
    for each cursor visited; each carries the timestamp of a cursor,
    [start + 604800 * k], not past the bound, and a truthy block number;
    and they are in strictly increasing order of timestamp. *)
Theorem rows_of_a_run_are_weekly fuel start_timestamp today_timestamp w l' w' :
  main fuel start_timestamp today_timestamp w = (Ok (Some l'), w') ->
  exists added,
    rows w' = rows w ++ added /\
    (List.length added <= iterations_needed start_timestamp today_timestamp)%nat /\
    StronglySorted Z.lt (map utcTimestamp added) /\
    Forall (fun r => truthy (blockNumber r) = true /\
                     utcTimestamp r <= today_timestamp /\
                     exists k, utcTimestamp r = start_timestamp + 604800 * Z.of_nat k)
           added.
Proof.
  unfold main. intros H. apply while_loop_iterate in H. cbn [current_timestamp] in H.
  destruct (iterate_rows _ _ _ _ _ H) as (added & Hr & Hl & Hs & Hf).
  exists added. repeat split; try assumption.
  eapply Forall_impl; [ | exact Hf ]. cbv beta. cbn [current_timestamp].
  intros r (Tr & k & Hk & E). split; [ exact Tr | ].
  split; [ rewrite E; apply iterations_needed_bound; exact Hk | ].
  exists k. exact E.
Qed.

Lemma rows_of_a_run_are_weekly_witness :
  exists added,
    rows (snd (main 3 0 604800 two_weeks)) = rows two_weeks ++ added /\
    (List.length added <= iterations_needed 0 604800)%nat /\
    StronglySorted Z.lt (map utcTimestamp added) /\
    Forall (fun r => truthy (blockNumber r) = true /\
                     utcTimestamp r <= 604800 /\
                     exists k, utcTimestamp r = 0 + 604800 * Z.of_nat k)
           added.
Proof.
  apply (rows_of_a_run_are_weekly 3 0 604800 two_weeks
           {| current_timestamp := 1209600;
              pool_creation_data :=
                Some {| b_totalInvariant := 12;
                        b_totalSupply := Some 10%float;
                        b_lastPrice := Some 1%float |} |}).
  vm_compute. reflexivity.
Defined.

Lemma iterate_cursor n :
  forall l w l' w',
    iterate n l w = (Ok l', w') ->
    current_timestamp l' = current_timestamp l + week * Z.of_nat n.
Proof.
  induction n as [ | n IH]; intros l w l' w' H.
  - cbn in H. apply ret_ok_inv in H. destruct H as [-> _]. lia.
  - cbn [iterate] in H. apply bind_ok_inv in H. destruct H as (l1 & w1 & Hb & H).
    rewrite (IH _ _ _ _ H), (loop_body_cursor _ _ _ _ Hb). lia.
Qed.

(** [derive_row] writes its row last: when it raises, the file is as it
    was. *)
Lemma derive_row_raise l bn s w e w' :
  derive_row l bn s w = (Raise e, w') -> csv w' = csv w.
Proof.
  unfold derive_row, bind, lift, print, save_to_csv, ret. intros H.
  split_cases H; inversion H; reflexivity.
Qed.

(** An iteration that raises has written nothing. *)
Lemma loop_body_raise l w e w' :
  loop_body l w = (Raise e, w') -> csv w' = csv w.
Proof.
  unfold loop_body. intros H.
  destruct (get_block_from_timestamp_world (current_timestamp l) block_subgraph_url w)
    as (_ & _ & Hc).
  destruct (get_block_from_timestamp _ _ w) as [[bn | e1] w1] eqn:Hb; cbn [snd] in Hc.
  2:{ rewrite (bind_raise _ _ _ _ _ Hb) in H. inversion H; subst. exact Hc. }
  rewrite (bind_ok _ _ _ _ _ Hb) in H.
  destruct (truthy bn); cbn [negb] in H; [ | cbn in H; discriminate ].
  destruct (query_pool_at_block_world arb_subgraph_url pool_id bn w1) as (_ & _ & Hc2).
  destruct (query_pool_at_block _ _ bn w1) as [[pd | e1] w2] eqn:Hq; cbn [snd] in Hc2.
  2:{ rewrite (bind_raise _ _ _ _ _ Hq) in H. inversion H; subst. congruence. }
  rewrite (bind_ok _ _ _ _ _ Hq) in H.
  destruct (truthy pd); [ | cbn in H; discriminate ].
  apply bind_inv in H. destruct H as [(e1 & Hp & _) | (u & w3 & Hp & H)];
    [ discriminate | ].
  apply print_inv in Hp. destruct Hp as (_ & (_ & _ & Hc3)).
  pose proof (keeps_read_sample pd w3) as (_ & _ & Hc4).
  apply bind_inv in H. destruct H as [(e1 & Hr & _) | (s & w4 & Hr & H)].
  { rewrite Hr in Hc4. cbn [snd] in Hc4. congruence. }
  rewrite Hr in Hc4. cbn [snd] in Hc4.
  apply bind_inv in H. destruct H as [(e1 & Hd & _) | (l1 & w5 & Hd & H)].
  - apply derive_row_raise in Hd. congruence.
  - discriminate.
Qed.

(** X13: nothing in [main] catches an exception.  When [k] iterations
    have completed and the next one, its cursor not past the bound, raises,
    the run ends with that exception: it has asked the block subgraph
    [k + 1] times, the weeks after are not sampled, and the file holds the
    rows of the [k] iterations before. *)
Theorem exception_ends_the_run fuel start_timestamp today_timestamp w k lk wk e w' :
  iterate k (start_of_run start_timestamp) w = (Ok lk, wk) ->
  current_timestamp lk <= today_timestamp ->
  loop_body lk wk = (Raise e, w') ->
  (k < fuel)%nat ->
  main fuel start_timestamp today_timestamp w = (Raise e, w') /\
  iterations w' = (iterations w + S k)%nat /\
  rows w' = rows wk.
Proof.
  unfold main, start_of_run.
  generalize ({| current_timestamp := start_timestamp; pool_creation_data := None |}).
  intros l Hi Hc Hb Hf.
  assert (G : forall k fuel l w,
             iterate k l w = (Ok lk, wk) -> (k < fuel)%nat ->
             while_loop fuel today_timestamp l w = (Raise e, w') /\
             iterations wk = (iterations w + k)%nat).
  { clear - Hc Hb. induction k as [ | k IH]; intros fuel l w Hi Hf.
    - cbn in Hi. apply ret_ok_inv in Hi. destruct Hi as [-> ->].
      destruct fuel as [ | fuel]; [ lia | ]. cbn [while_loop].
      replace (current_timestamp l <=? today_timestamp) with true
        by (symmetry; apply Z.leb_le; exact Hc).
      rewrite (bind_raise _ _ _ _ _ Hb). split; [ reflexivity | lia ].
    - pose proof (iterate_cursor _ _ _ _ _ Hi) as Hk.
      cbn [iterate] in Hi. apply bind_ok_inv in Hi. destruct Hi as (l1 & w1 & Hb1 & Hi).
      destruct fuel as [ | fuel]; [ lia | ]. cbn [while_loop].
      replace (current_timestamp l <=? today_timestamp) with true
        by (symmetry; apply Z.leb_le; unfold week in Hk; lia).
      rewrite (bind_ok _ _ _ _ _ Hb1).
      destruct (IH fuel l1 w1 Hi ltac:(lia)) as (IH1 & IH2).
      split; [ exact IH1 | ].
      pose proof (loop_body_iterations l w) as Hn. rewrite Hb1 in Hn. cbn [snd] in Hn.
      lia. }
  destruct (G k fuel l w Hi Hf) as (G1 & G2).
  split; [ exact G1 | ].
  pose proof (loop_body_iterations lk wk) as Hn. rewrite Hb in Hn. cbn [snd] in Hn.
  split; [ lia | ].
  unfold rows. rewrite (loop_body_raise _ _ _ _ Hb). reflexivity.
Qed.

Lemma exception_ends_the_run_witness :
  fst (main 3 0 1209600 two_weeks) = Raise RequestException /\
  iterations (snd (main 3 0 1209600 two_weeks)) = 3%nat /\
  List.length (rows (snd (main 3 0 1209600 two_weeks))) = 2%nat.
Proof.
  destruct (exception_ends_the_run 3 0 1209600 two_weeks 2
              {| current_timestamp := 1209600;
                 pool_creation_data :=
                   Some {| b_totalInvariant := 12;
                           b_totalSupply := Some 10%float;
                           b_lastPrice := Some 1%float |} |}
              (snd (iterate 2 (start_of_run 0) two_weeks))
              RequestException
              (snd (main 3 0 1209600 two_weeks)))
    as (H1 & H2 & H3).
  - vm_compute. reflexivity.
  - cbn [current_timestamp]. lia.
  - vm_compute. reflexivity.
  - lia.
  - split; [ exact (f_equal fst H1) | ].
    split; [ rewrite H2; reflexivity | ].
    rewrite H3. vm_compute. reflexivity.
Defined.

(** What [derive_row] leaves of the file, whatever its outcome. *)
Lemma derive_row_csv l bn s w :
  csv (snd (derive_row l bn s w)) = csv w \/
  exists row, csv (snd (derive_row l bn s w)) = appended (csv w) [row].
Proof.
  destruct (derive_row l bn s w) as [r w'] eqn:H. cbn [snd].
  unfold derive_row, bind, lift, print, ret in H.
  repeat (match type of H with
          | context [match ?x with _ => _ end] =>
              lazymatch x with
              | save_to_csv _ _ => fail
              | _ => destruct x eqn:?
              end
          end; cbn [fst snd negb] in H);
    try (inversion H; subst; left; reflexivity).
  right.
  match type of H with
  | context [save_to_csv ?row ?w0] =>
      pose proof (csv_save_to_csv row w0) as C;
      destruct (save_to_csv row w0) as [[[] | e] w1] eqn:S
  end; cbn [snd] in C; inversion H; subst; cbn [csv] in *; eexists; exact C.
Qed.

Lemma loop_body_csv l w :
  csv (snd (loop_body l w)) = csv w \/
  exists row, csv (snd (loop_body l w)) = appended (csv w) [row].
Proof.
  unfold loop_body.
  destruct (get_block_from_timestamp_world (current_timestamp l) block_subgraph_url w)
    as (_ & _ & Hc).
  destruct (get_block_from_timestamp _ _ w) as [[bn | e1] w1] eqn:Hb; cbn [snd] in Hc.
  2:{ rewrite (bind_raise _ _ _ _ _ Hb). left. exact Hc. }
  rewrite (bind_ok _ _ _ _ _ Hb).
  destruct (truthy bn); cbn [negb]; [ | left; exact Hc ].
  destruct (query_pool_at_block_world arb_subgraph_url pool_id bn w1) as (_ & _ & Hc2).
  destruct (query_pool_at_block _ _ bn w1) as [[pd | e1] w2] eqn:Hq; cbn [snd] in Hc2.
  2:{ rewrite (bind_raise _ _ _ _ _ Hq). left. cbn [snd]. congruence. }
  rewrite (bind_ok _ _ _ _ _ Hq).
  destruct (truthy pd); [ | left; cbn; congruence ].
  rewrite bind_print.
  pose proof (keeps_read_sample pd (printed (DataRetrieved bn) w2)) as (_ & _ & Hc4).
  cbn [printed csv] in Hc4.
  destruct (read_sample pd _) as [[s | e1] w4] eqn:Hr; cbn [snd] in Hc4.
  2:{ rewrite (bind_raise _ _ _ _ _ Hr). left. cbn [snd]. congruence. }
  rewrite (bind_ok _ _ _ _ _ Hr).
  pose proof (derive_row_csv l bn s w4) as D.
  destruct (derive_row l bn s w4) as [[l1 | e1] w5] eqn:Hd; cbn [snd] in D.
  - rewrite (bind_ok _ _ _ _ _ Hd). cbn [ret snd].
    destruct D as [D | (row & D)]; [ left | right; exists row ]; congruence.
  - rewrite (bind_raise _ _ _ _ _ Hd). cbn [snd].
    destruct D as [D | (row & D)]; [ left | right; exists row ]; congruence.
Qed.

(** Whatever its outcome, a run leaves the file with rows appended. *)
Lemma while_loop_csv today :
  forall fuel l w,
  exists added,
    csv (snd (while_loop fuel today l w)) = appended (csv w) added.
Proof.
  induction fuel as [ | fuel IH]; intros l w.
  - exists []. cbn. rewrite appended_nil. reflexivity.
  - cbn [while_loop]. destruct (current_timestamp l <=? today).
    2:{ exists []. cbn. rewrite appended_nil. reflexivity. }
    pose proof (loop_body_csv l w) as B.
    destruct (loop_body l w) as [[l1 | e] w1] eqn:Hb; cbn [snd] in B.
    + rewrite (bind_ok _ _ _ _ _ Hb).
      destruct (IH l1 w1) as (added & Hc). rewrite Hc.
      destruct B as [B | (row & B)]; rewrite B.
      * exists added. reflexivity.
      * exists (row :: added). rewrite appended_app. reflexivity.
    + rewrite (bind_raise _ _ _ _ _ Hb). cbn [snd].
      destruct B as [B | (row & B)]; rewrite B.
      * exists []. rewrite appended_nil. reflexivity.
      * exists [row]. reflexivity.
Qed.

(** The file that [n] iterations, all of them completed, leave. *)
Lemma iterate_csv n :
  forall l w l' w',
    iterate n l w = (Ok l', w') ->
    exists added,
      csv w' = appended (csv w) added /\ (List.length added <= n)%nat.
Proof.
  induction n as [ | n IH]; intros l w l' w' H.
  - cbn in H. apply ret_ok_inv in H. destruct H as [_ ->].
    exists []. rewrite appended_nil. split; [ reflexivity | cbn; lia ].
  - cbn [iterate] in H. apply bind_ok_inv in H. destruct H as (l1 & w1 & Hb & H).
    pose proof (loop_body_csv l w) as B. rewrite Hb in B. cbn [snd] in B.
    destruct (IH _ _ _ _ H) as (added & Hc & Hl). rewrite Hc.
    destruct B as [B | (row & B)]; rewrite B.
    + exists added. split; [ reflexivity | lia ].
    + exists (row :: added). rewrite appended_app.
      split; [ reflexivity | cbn; lia ].
Qed.

(** X14: a run never rewrites the file.  Whatever its outcome (it ends, it
    raises, the fuel runs out), the lines of a file that existed are still
    there, in place, above what the run has added.  And when the run ends,
    the file is the one before with the rows of the run appended, at most
    one for each iteration, under the header when the file did not exist
    and a row was written. *)
Theorem a_run_only_appends_to_the_file fuel start_timestamp today_timestamp w :
  (forall ls,
      csv w = Some ls ->
      exists lines,
        csv (snd (main fuel start_timestamp today_timestamp w))
        = Some (ls ++ lines)) /\
  (forall l' w',
      main fuel start_timestamp today_timestamp w = (Ok (Some l'), w') ->
      exists added,
        csv w' = appended (csv w) added /\
        rows w' = rows w ++ added /\
        (List.length added
         <= iterations_needed start_timestamp today_timestamp)%nat).
Proof.
  split.
  - intros ls Hls. unfold main.
    destruct (while_loop_csv today_timestamp fuel
                {| current_timestamp := start_timestamp;
                   pool_creation_data := None |} w)
      as (added & Hc).
    rewrite Hc, Hls. cbn [appended]. exists (map Row added). reflexivity.
  - intros l' w' H. unfold main in H. apply while_loop_iterate in H.
    cbn [current_timestamp] in H.
    destruct (iterate_csv _ _ _ _ _ H) as (added & Hc & Hl).
    exists added.
    split; [ exact Hc | ].
    split; [ exact (rows_appended _ _ _ Hc) | exact Hl ].
Qed.

Lemma a_run_only_appends_to_the_file_witness :
  (exists lines,
      csv (snd (main 3 0 604800 (with_csv (Some [Header]) first_request_fails)))
      = Some ([Header] ++ lines)) /\
  (exists added,
      csv (snd (main 3 0 604800 two_weeks)) = appended (csv two_weeks) added /\
      rows (snd (main 3 0 604800 two_weeks)) = rows two_weeks ++ added /\
      (List.length added <= iterations_needed 0 604800)%nat).
Proof.
  split.
  - apply (proj1 (a_run_only_appends_to_the_file 3 0 604800
                    (with_csv (Some [Header]) first_request_fails)) [Header]).
    reflexivity.
  - apply (proj2 (a_run_only_appends_to_the_file 3 0 604800 two_weeks)
             {| current_timestamp := 1209600;
                pool_creation_data :=
                  Some {| b_totalInvariant := 12;
                          b_totalSupply := Some 10%float;
                          b_lastPrice := Some 1%float |} |}).
    vm_compute. reflexivity.
Defined.

(** ** What normalizes to what *)

(** [float(v)] of a nonzero int is no zero. *)
Lemma float_of_int_not_zero v x :
  v <> 0 -> float_of_int v = Ok x -> (x =? 0)%float = false.
Proof.
  intros Hv. unfold float_of_int, binary_normalize.
  assert (G : forall s p,
             match binary_round prec emax s p 0 with
             | S754_infinity _ => Raise OverflowError
             | sf => Ok (SF2Prim sf)
             end = Ok x -> (x =? 0)%float = false).
  { intros s p. destruct (binary_round_int s p) as (m2 & e2 & Hr & Hm & _ & _ & Hn & Hc).
    rewrite Hr. unfold packed. destruct m2 as [ | q | q]; try lia.
    destruct (e2 <=? emax - prec) eqn:E; [ | discriminate ].
    intros H. assert (Hx : x = SF2Prim (S754_finite s q e2)) by congruence.
    apply finite_nonzero_not_zero. unfold finite_nonzero. rewrite Hx.
    rewrite Prim2SF_SF2Prim; [ reflexivity | ].
    unfold SpecFloat.valid_binary, SpecFloat.bounded, canonical_mantissa.
    apply andb_true_intro. split; [ apply Z.eqb_eq; exact Hc | exact E ]. }
  destruct v as [ | p | p]; [ lia | apply G | apply G ].
Qed.

Lemma float_raises v e :
  float_ v = Raise e -> e = TypeError \/ e = ValueError \/ e = OverflowError.
Proof.
  destruct v as [ | b | z | f | s | l | d]; cbn [float_]; intros H; try discriminate.
  - left. congruence.
  - unfold float_of_int in H.
    destruct (binary_normalize prec emax z 0 false); inversion H; auto.
  - destruct (parse_float s); inversion H; auto.
  - left. congruence.
  - left. congruence.
Qed.

Lemma float_of_int_raises z e : float_of_int z = Raise e -> e = OverflowError.
Proof.
  unfold float_of_int. destruct (binary_normalize prec emax z 0 false); congruence.
Qed.

Lemma unreadable_spec v :
  unreadable v = true <-> float_ v = Raise TypeError \/ float_ v = Raise ValueError.
Proof.
  destruct v as [ | b | z | f | s | l | d]; cbn [unreadable float_];
    try (split; [ discriminate | intros [H | H]; discriminate ]);
    try (split; [ intros _; left; reflexivity | reflexivity ]).
  - split; [ discriminate | ]. intros [H | H]; apply float_of_int_raises in H; discriminate.
  - destruct (parse_float s).
    + split; [ discriminate | intros [H | H]; discriminate ].
    + split; [ intros _; right; reflexivity | reflexivity ].
Qed.

(** X15: for a JSON scalar whose text is ASCII, the only exception that
    leaves [normalize_value] is [OverflowError] (the divisor
    [10 ** decimals] is never zero); it returns [None] exactly for the
    values [float()] rejects with [TypeError] or [ValueError] ([None], a
    string that is no number), and prints its one line exactly then. *)
Theorem normalize_value_outcomes v d w :
  plain v = true ->
  (forall e, fst (normalize_value v d w) = Raise e -> e = OverflowError) /\
  (fst (normalize_value v d w) = Ok None <-> unreadable v = true) /\
  snd (normalize_value v d w)
  = (if unreadable v then printed (ErrorNormalizing v) w else w).
Proof.
  intros _. pose proof (unreadable_spec v) as U.
  unfold normalize_value.
  destruct (float_ v) as [x | e] eqn:Hf; cbn [rbind].
  - assert (Hu : unreadable v = false).
    { destruct (unreadable v); [ | reflexivity ].
      destruct (proj1 U eq_refl); discriminate. }
    rewrite Hu.
    destruct (float_of_int (10 ^ Z.of_N d)) as [p | e] eqn:Hp; cbn [rbind].
    + unfold truediv.
      rewrite (float_of_int_not_zero (10 ^ Z.of_N d) p ltac:(apply Z.pow_nonzero; lia) Hp).
      cbn. repeat split; try discriminate.
    + apply float_of_int_raises in Hp. subst e. cbn.
      repeat split; try discriminate. intros e H. congruence.
  - destruct (float_raises _ _ Hf) as [-> | [-> | ->]].
    + rewrite (proj2 U (or_introl eq_refl)). cbn. repeat split; discriminate.
    + rewrite (proj2 U (or_intror eq_refl)). cbn. repeat split; discriminate.
    + assert (Hu : unreadable v = false).
      { destruct (unreadable v); [ | reflexivity ].
        destruct (proj1 U eq_refl); discriminate. }
      rewrite Hu. cbn. repeat split; try discriminate. intros e H. congruence.
Qed.

Lemma normalize_value_outcomes_witness :
  fst (normalize_value (PStr "n/a") 12 (world_of [])) = Ok None /\
  stdout (snd (normalize_value (PStr "n/a") 12 (world_of [])))
  = [ErrorNormalizing (PStr "n/a")] /\
  (fst (normalize_value (PStr "12000000000000") 12 (world_of [])) = Ok None
   -> False) /\
  snd (normalize_value (PStr "12000000000000") 12 (world_of [])) = world_of [].
Proof.
  destruct (normalize_value_outcomes (PStr "n/a") 12 (world_of []) eq_refl)
    as (_ & N1 & P1).
  destruct (normalize_value_outcomes (PStr "12000000000000") 12 (world_of [])
              eq_refl)
    as (_ & N2 & P2).
  split; [ apply (proj2 N1); reflexivity | ].
  split; [ rewrite P1; reflexivity | ].
  split; [ | rewrite P2; reflexivity ].
  intros H. apply (proj1 N2) in H. discriminate.
Defined.

Lemma normalize_value_fst v d w1 w2 :
  fst (normalize_value v d w1) = fst (normalize_value v d w2).
Proof.
  unfold normalize_value.
  destruct (rbind _ _) as [r | e]; [ reflexivity | destruct e; reflexivity ].
Qed.

Lemma getitem_ok_inv v k x :
  getitem v k = Ok x -> exists d, v = PDict d /\ lookup k d = Some x.
Proof.
  destruct v as [ | | | | | | d]; cbn; try discriminate.
  destruct (lookup k d) eqn:E; [ | discriminate ].
  intros H. inversion H; subst. exists d. split; [ reflexivity | exact E ].
Qed.

(** X16: a sample is read only from a JSON object that has the four
    fields and both tokens with decimals [int()] converts; the decimals are
    then not used: the invariants and the supply are normalized at 12
    decimals and the price at 6, whatever the tokens declare. *)
Theorem read_sample_uses_fixed_decimals pool_data w s w' :
  read_sample pool_data w = (Ok s, w') ->
  exists d,
    pool_data = PDict d /\
    (exists t0 t1 d0 d1 n0 n1,
       lookup "token0" d = Some t0 /\ getitem t0 "decimals" = Ok d0 /\ int_ d0 = Ok n0 /\
       lookup "token1" d = Some t1 /\ getitem t1 "decimals" = Ok d1 /\ int_ d1 = Ok n1) /\
    (exists raw, lookup "lpInvariant" d = Some raw /\
                 fst (normalize_value raw 12 w) = Ok (lp_invariant s)) /\
    (exists raw, lookup "lpBorrowedInvariant" d = Some raw /\
                 fst (normalize_value raw 12 w) = Ok (lp_borrowed_invariant s)) /\
    (exists raw, lookup "lastPrice" d = Some raw /\
                 fst (normalize_value raw 6 w) = Ok (last_price s)) /\
    (exists raw, lookup "totalSupply" d = Some raw /\
                 fst (normalize_value raw 12 w) = Ok (total_supply s)).
Proof.
  unfold read_sample. intros H.
  repeat match type of H with
         | bind (lift _) _ _ = (Ok _, _) =>
             let a := fresh "a" in
             let w := fresh "w" in
             let L := fresh "L" in
             apply bind_ok_inv in H; destruct H as (a & w & L & H);
             apply lift_ok_inv in L; destruct L as [L ->]
         | bind (normalize_value _ _) _ _ = (Ok _, _) =>
             let a := fresh "a" in
             let w := fresh "w" in
             let L := fresh "N" in
             apply bind_ok_inv in H; destruct H as (a & w & L & H);
             apply (f_equal fst) in L; cbn [fst] in L
         end.
  apply ret_ok_inv in H. destruct H as [-> _]. cbn [lp_invariant lp_borrowed_invariant last_price total_supply].
  repeat match goal with
         | G : getitem pool_data _ = Ok _ |- _ =>
             apply getitem_ok_inv in G; destruct G as (? & ? & G)
         end.
  subst pool_data.
  repeat match goal with
         | E : PDict _ = PDict _ |- _ => inversion E; subst; clear E
         end.
  eexists. split; [ reflexivity | ].
  split; [ do 6 eexists; repeat split; eassumption | ].
  repeat split; eexists; (split; [ eassumption | ]);
    (etransitivity; [ apply normalize_value_fst | eassumption ]).
Qed.

Lemma read_sample_uses_fixed_decimals_witness :
  exists raw,
    lookup "lastPrice" eight_decimal_pool = Some raw /\
    fst (normalize_value raw 6 (world_of [])) = Ok (Some 1%float).
Proof.
  destruct (read_sample_uses_fixed_decimals (PDict eight_decimal_pool) (world_of [])
              {| lp_invariant := Some 12%float;
                 lp_borrowed_invariant := Some 0%float;
                 last_price := Some 1%float;
                 total_supply := Some 10%float |}
              (world_of []))
    as (d & E & _ & _ & _ & H & _).
  - vm_compute. reflexivity.
  - inversion E; subst d. exact H.
Defined.

(** *** A number as a string and as an int *)

(** A mantissa with its two bits is determined by its integer part and the
    real it locates. *)
Lemma located_unique t mrs1 mrs2 :
  located t mrs1 -> located t mrs2 -> shr_m mrs1 = shr_m mrs2 -> mrs1 = mrs2.
Proof.
  destruct mrs1 as [m1 r1 s1], mrs2 as [m2 r2 s2]. unfold located.
  cbn [shr_m]. intros (_ & H1) (_ & H2) E. subst m2.
  destruct r1, s1, r2, s2; cbn [loc_of_shr_record inbetween] in H1, H2;
    try reflexivity; exfalso; lra.
Qed.

(** Low zero bits shifted out again leave no trace. *)
Lemma shr_fexp_scale m e j :
  0 < m -> 0 <= j -> e <= fexp prec emax (Zdigits2 m + e) ->
  shr_fexp prec emax (m * 2 ^ j) (e - j) loc_Exact = shr_fexp prec emax m e loc_Exact.
Proof.
  intros Hm Hj He. unfold shr_fexp.
  rewrite Zdigits2_shift by lia.
  replace (Zdigits2 m + j + (e - j)) with (Zdigits2 m + e) by lia.
  set (f := fexp prec emax (Zdigits2 m + e)) in *.
  assert (P : 0 < 2 ^ j) by (apply Z.pow_pos_nonneg; lia).
  assert (LB : located (IZR (m * 2 ^ j)) (shr_record_of_loc (m * 2 ^ j) loc_Exact)).
  { apply located_of_loc; [ nia | reflexivity ]. }
  assert (LA : located (IZR m) (shr_record_of_loc m loc_Exact)).
  { apply located_of_loc; [ lia | reflexivity ]. }
  destruct (shr_spec _ (e - j) (f - (e - j)) _ LB ltac:(lia)) as (B1 & B2 & B3).
  destruct (shr_spec _ e (f - e) _ LA ltac:(lia)) as (A1 & A2 & A3).
  destruct (shr (shr_record_of_loc (m * 2 ^ j) loc_Exact) (e - j) (f - (e - j)))
    as [mB eB].
  destruct (shr (shr_record_of_loc m loc_Exact) e (f - e)) as [mA eA].
  cbn [fst snd] in *. f_equal; [ | lia ].
  apply (located_unique (IZR m * bpow (- (f - e)))).
  - replace (IZR m * bpow (- (f - e)))%R
      with (IZR (m * 2 ^ j) * bpow (- (f - (e - j))))%R; [ exact B2 | ].
    rewrite mult_IZR, <- bpow_IZR by lia. rewrite Rmult_assoc, <- bpow_add.
    f_equal. f_equal. lia.
  - exact A2.
  - rewrite B3, A3. cbn [shr_record_of_loc shr_m].
    replace (f - (e - j)) with ((f - e) + j) by lia.
    rewrite Z.pow_add_r by lia.
    apply Z.div_mul_cancel_r; [ apply Z.pow_nonzero; lia | lia ].
Qed.

Lemma binary_round_aux_scale s m e j :
  0 < m -> 0 <= j -> e <= fexp prec emax (Zdigits2 m + e) ->
  binary_round_aux prec emax s (m * 2 ^ j) (e - j) loc_Exact
  = binary_round_aux prec emax s m e loc_Exact.
Proof.
  intros Hm Hj He. unfold binary_round_aux.
  rewrite (shr_fexp_scale m e j Hm Hj He). reflexivity.
Qed.

Lemma shl_align_spec p e f :
  exists mz ez,
    shl_align p e f = (mz, ez) /\ ez = Z.min e f /\ Zpos mz = Zpos p * 2 ^ (e - ez).
Proof.
  unfold shl_align. destruct (f - e) as [ | q | q] eqn:E.
  - exists p, e. repeat split; [ lia | ]. rewrite Z.sub_diag. lia.
  - exists p, e. repeat split; [ lia | ]. rewrite Z.sub_diag. lia.
  - exists (Pos.iter xO p q), f. repeat split; [ lia | ].
    rewrite iter_xO. f_equal. f_equal. lia.
Qed.

(** Rounding [p * 2^j] at the exponent [e - j] is rounding [p] at [e]. *)
Lemma binary_round_scale s p m e j :
  0 <= j -> Zpos m = Zpos p * 2 ^ j ->
  binary_round prec emax s m (e - j) = binary_round prec emax s p e.
Proof.
  intros Hj Hm. unfold binary_round.
  assert (P : 0 < 2 ^ j) by (apply Z.pow_pos_nonneg; lia).
  assert (Dm : Zpos (digits2_pos m) = Zpos (digits2_pos p) + j).
  { change (Zdigits2 (Zpos m) = Zdigits2 (Zpos p) + j). rewrite Hm.
    apply Zdigits2_shift; lia. }
  rewrite Dm. replace (Zpos (digits2_pos p) + j + (e - j)) with (Zpos (digits2_pos p) + e) by lia.
  set (f := fexp prec emax (Zpos (digits2_pos p) + e)).
  destruct (shl_align_spec m (e - j) f) as (mB & eB & -> & HeB & HmB).
  destruct (shl_align_spec p e f) as (mA & eA & -> & HeA & HmA).
  assert (Hle : eB <= eA) by lia.
  assert (P2 : 0 < 2 ^ (e - eA)) by (apply Z.pow_pos_nonneg; lia).
  replace (Zpos mB) with (Zpos mA * 2 ^ (eA - eB)).
  2:{ rewrite HmB, Hm, HmA, <- !Z.mul_assoc, <- !Z.pow_add_r by lia.
      f_equal. f_equal. lia. }
  replace eB with (eA - (eA - eB)) at 2 by lia.
  apply binary_round_aux_scale; [ lia | lia | ].
  replace (Zdigits2 (Zpos mA) + eA) with (Zpos (digits2_pos p) + e).
  - fold f. lia.
  - rewrite HmA, Zdigits2_shift by lia. change (Zdigits2 (Zpos p)) with (Zpos (digits2_pos p)).
    lia.
Qed.

(** A ratio with denominator one is rounded as the int is. *)
Lemma SF_of_ratio_int s p : SF_of_ratio s p 1 = binary_round prec emax s p 0.
Proof.
  unfold SF_of_ratio.
  set (k := Z.max 0 (66 + Z.log2 1 - Z.log2 (Zpos p))).
  assert (Hk : 0 <= k) by (unfold k; lia).
  assert (P2k : 0 < 2 ^ k) by (apply Z.pow_pos_nonneg; lia).
  rewrite Z.shiftl_mul_pow2 by exact Hk.
  pose proof (Z_div_mod (Zpos p * 2 ^ k) 1 ltac:(lia)) as DM.
  destruct (Z.div_eucl (Zpos p * 2 ^ k) 1) as [q r]. destruct DM as (DM1 & DM2).
  assert (r = 0) by lia. subst r.
  change (0 =? 0) with true. cbv iota.
  assert (Hm : 2 * q + 0 = Zpos p * 2 ^ (k + 1)).
  { rewrite Z.pow_add_r by lia. lia. }
  rewrite Hm.
  assert (Hpos : 0 < Zpos p * 2 ^ (k + 1)).
  { assert (0 < 2 ^ (k + 1)) by (apply Z.pow_pos_nonneg; lia). lia. }
  destruct (Zpos p * 2 ^ (k + 1)) as [ | m | m] eqn:Em; try lia.
  replace (binary_normalize prec emax (if s then - Zpos m else Zpos m) (- k - 1) false)
    with (binary_round prec emax s m (0 - (k + 1))).
  - apply binary_round_scale; [ lia | symmetry; exact Em ].
  - replace (0 - (k + 1)) with (- k - 1) by lia. destruct s; reflexivity.
Qed.

(** [float(v)] of a nonzero int is a finite number with the sign of [v]. *)
Lemma float_of_int_finite v x :
  v <> 0 -> float_of_int v = Ok x ->
  exists m e, Prim2SF x = S754_finite (v <? 0) m e.
Proof.
  intros Hv. unfold float_of_int, binary_normalize.
  assert (G : forall s p,
             match binary_round prec emax s p 0 with
             | S754_infinity _ => Raise OverflowError
             | sf => Ok (SF2Prim sf)
             end = Ok x -> exists m e, Prim2SF x = S754_finite s m e).
  { intros s p. destruct (binary_round_int s p) as (m2 & e2 & Hr & Hm & _ & _ & Hn & Hc).
    rewrite Hr. unfold packed. destruct m2 as [ | q | q]; try lia.
    destruct (e2 <=? emax - prec) eqn:E; [ | discriminate ].
    intros H. assert (Hx : x = SF2Prim (S754_finite s q e2)) by congruence.
    exists q, e2. rewrite Hx. apply Prim2SF_SF2Prim.
    unfold SpecFloat.valid_binary, SpecFloat.bounded, canonical_mantissa.
    apply andb_true_intro. split; [ apply Z.eqb_eq; exact Hc | exact E ]. }
  destruct v as [ | p | p]; [ lia | apply G | apply G ].
Qed.

(** [float(s)] for a string of digits against [float(n)] for the int the
    digits spell. *)
Lemma float_of_digit_string ds :
  ds <> [] -> forallb is_digit ds = true ->
  float_ (PStr (string_of_list_ascii ds)) =
  match float_of_int (digits_value ds) with
  | Ok x => Ok x
  | Raise _ => Ok infinity
  end.
Proof.
  intros Hne H. cbn [float_]. rewrite (parse_float_digits ds Hne H).
  pose proof (digits_value_nonneg ds H) as H0.
  destruct (digits_value ds) as [ | p | p]; [ reflexivity | | lia ].
  cbn [float_of_ratio]. rewrite SF_of_ratio_int.
  unfold float_of_int, binary_normalize.
  destruct (binary_round_int false p) as (m2 & e2 & -> & Hm & _ & _ & Hn & _).
  unfold packed. destruct m2 as [ | q | q]; try lia.
  destruct (e2 <=? emax - prec); reflexivity.
Qed.

Lemma infinity_div p m e :
  Prim2SF p = S754_finite false m e -> (infinity / p)%float = infinity.
Proof.
  intros H. rewrite <- (SF2Prim_Prim2SF (infinity / p)), div_spec, H. reflexivity.
Qed.

(** X17: a subgraph may give a big integer as a JSON number or as a
    string of digits.  As long as [float()] converts the int, both
    normalize to the same float; past the largest float the int raises
    [OverflowError] while the string is read as infinity and normalizes to
    infinity without a word. *)
Theorem digit_strings_normalize_as_ints ds d w :
  ds <> [] -> forallb is_digit ds = true ->
  match float_of_int (digits_value ds) with
  | Ok _ =>
      normalize_value (PStr (string_of_list_ascii ds)) d w
      = normalize_value (PInt (digits_value ds)) d w
  | Raise _ =>
      normalize_value (PInt (digits_value ds)) d w = (Raise OverflowError, w) /\
      normalize_value (PStr (string_of_list_ascii ds)) d w
      = (match float_of_int (10 ^ Z.of_N d) with
         | Ok _ => Ok (Some infinity)
         | Raise _ => Raise OverflowError
         end, w)
  end.
Proof.
  intros Hne H. pose proof (float_of_digit_string ds Hne H) as F.
  unfold normalize_value. rewrite F. cbn [float_].
  destruct (float_of_int (digits_value ds)) as [x | e] eqn:Hx.
  - cbn [rbind].
    destruct (float_of_int (10 ^ Z.of_N d)) as [p | e] eqn:Hp; cbn [rbind].
    + unfold truediv.
      rewrite (float_of_int_not_zero (10 ^ Z.of_N d) p ltac:(apply Z.pow_nonzero; lia) Hp).
      reflexivity.
    + apply float_of_int_raises in Hp. subst e. reflexivity.
  - apply float_of_int_raises in Hx. subst e. cbn [rbind]. split; [ reflexivity | ].
    destruct (float_of_int (10 ^ Z.of_N d)) as [p | e] eqn:Hp; cbn [rbind].
    + assert (Hnz : 10 ^ Z.of_N d <> 0) by (apply Z.pow_nonzero; lia).
      unfold truediv. rewrite (float_of_int_not_zero _ _ Hnz Hp).
      destruct (float_of_int_finite _ _ Hnz Hp) as (m & e & Sp).
      replace (10 ^ Z.of_N d <? 0) with false in Sp
        by (symmetry; apply Z.ltb_ge, Z.pow_nonneg; lia).
      rewrite (infinity_div p m e Sp). reflexivity.
    + apply float_of_int_raises in Hp. subst e. reflexivity.
Qed.

Lemma digit_strings_normalize_as_ints_witness :
  normalize_value (PStr "12000000000000") 12 (world_of [])
  = normalize_value (PInt 12000000000000) 12 (world_of []).
Proof.
  apply (digit_strings_normalize_as_ints (list_ascii_of_string "12000000000000")
           12 (world_of [])).
  - discriminate.
  - reflexivity.
Defined.

(** ** The returns at the baseline price *)

(** Rounding a float gives the float. *)
Lemma binary_round_aux_canonical s m e :
  valid_binary (S754_finite s m e) = true ->
  binary_round_aux prec emax s (Zpos m) e loc_Exact = S754_finite s m e.
Proof.
  unfold SpecFloat.valid_binary, SpecFloat.bounded, canonical_mantissa.
  intros H. apply andb_true_iff in H. destruct H as (Hc & He).
  apply Z.eqb_eq in Hc.
  change (Zpos (digits2_pos m)) with (Zdigits2 (Zpos m)) in Hc.
  unfold binary_round_aux, shr_fexp. rewrite Hc, Z.sub_diag.
  cbn [shr shr_record_of_loc shr_m loc_of_shr_record round_nearest_even].
  rewrite Hc, Z.sub_diag. cbn [shr shr_record_of_loc shr_m].
  rewrite He. reflexivity.
Qed.

(** [x * 1.0] is [x], for every float. *)
Lemma mul_one x : (x * 1)%float = x.
Proof.
  assert (E : Prim2SF (x * 1) = Prim2SF x).
  { rewrite mul_spec. pose proof (Prim2SF_valid x) as V.
    change (Prim2SF 1) with (S754_finite false 4503599627370496 (-52)).
    destruct (Prim2SF x) as [s | s | | s m e]; try (destruct s; reflexivity);
      [ reflexivity | ].
    unfold SF64mul, SFmul.
    replace (xorb s false) with s by (destruct s; reflexivity).
    replace (Zpos (m * 4503599627370496)) with (Zpos m * 2 ^ 52) by reflexivity.
    replace (e + -52) with (e - 52) by lia.
    rewrite binary_round_aux_scale.
    - apply binary_round_aux_canonical. exact V.
    - lia.
    - lia.
    - unfold SpecFloat.valid_binary, SpecFloat.bounded, canonical_mantissa in V.
      apply andb_true_iff in V. destruct V as (Hc & _). apply Z.eqb_eq in Hc.
      change (Zpos (digits2_pos m)) with (Zdigits2 (Zpos m)) in Hc. lia. }
  rewrite <- (SF2Prim_Prim2SF (x * 1)), E. apply SF2Prim_Prim2SF.
Qed.

Lemma spot_return_at_the_baseline_price s b lp :
  last_price s = Some lp -> b_lastPrice b = Some lp -> finite_nonzero lp = true ->
  spot_return_percent s b = Ok 0%float.
Proof.
  intros Hs Hb F. unfold spot_return_percent. rewrite Hs, Hb. cbn [truediv_].
  rewrite (truediv_self lp F). vm_compute. reflexivity.
Qed.

Lemma lp_return_at_the_baseline_price ti s b ts bts lp x :
  total_supply s = Some ts -> b_totalSupply b = Some bts ->
  last_price s = Some lp -> b_lastPrice b = Some lp -> finite_nonzero lp = true ->
  total_lp_return_percent ti s b = Ok x ->
  x = (ti / b_totalInvariant b / (ts / bts) - 1)%float.
Proof.
  intros Hts Hbts Hlp Hblp F. unfold total_lp_return_percent.
  rewrite Hts, Hbts, Hlp, Hblp. cbn [truediv_]. rewrite (truediv_self lp F).
  unfold truediv at 1. destruct (b_totalInvariant b =? 0)%float; [ discriminate | ].
  cbn [rbind]. unfold truediv at 1. destruct (bts =? 0)%float; [ discriminate | ].
  cbn [rbind]. unfold truediv at 1.
  destruct (ts / bts =? 0)%float; [ discriminate | ]. cbn [rbind].
  replace (math_sqrt 1) with (Ok 1%float) by (vm_compute; reflexivity).
  cbn [rbind]. rewrite mul_one. intros H. inversion H. reflexivity.
Qed.

(** X18: in a week whose price is the baseline price, whatever has become
    of the invariant and the supply, the row's spot return is exactly 0 and
    its LP return is the growth of the invariant per share,
    [(totalInvariant / baseline.totalInvariant) / (totalSupply /
    baseline.totalSupply) - 1], rounded to 6 decimals: the square root of
    the price ratio is exactly 1 and multiplying by it changes nothing. *)
Theorem unchanged_price_leaves_the_growth_per_share
  l w l' w' block_number s b ti ts bts lp :
  loop_body l w = (Ok l', w') ->
  step_sample l w = Some (block_number, s) ->
  pool_creation_data l = Some b ->
  add_ (lp_invariant s) (lp_borrowed_invariant s) = Ok ti ->
  total_supply s = Some ts -> b_totalSupply b = Some bts ->
  last_price s = Some lp -> b_lastPrice b = Some lp -> finite_nonzero lp = true ->
  exists row,
    rows w' = rows w ++ [row] /\
    spotReturnPercent row = Some 0%float /\
    totalLPReturnPercent row
    = Some (round (ti / b_totalInvariant b / (ts / bts) - 1) 6).
Proof.
  intros H Hs Hb Ha Hts Hbts Hlp Hblp F.
  destruct (loop_body_row _ _ _ _ _ _ H Hs)
    as (b' & ti' & ts' & lp' & x & y & Hc & _ & Ha' & _ & _ & Hx & Hy & Hr).
  rewrite (capture_later _ _ _ _ Hb Hc) in *.
  rewrite Ha in Ha'. inversion Ha'. subst ti'.
  rewrite (spot_return_at_the_baseline_price s b lp Hlp Hblp F) in Hy.
  inversion Hy. subst y.
  rewrite (lp_return_at_the_baseline_price ti s b ts bts lp x Hts Hbts Hlp Hblp F Hx) in Hr.
  eexists. split; [ exact Hr | ]. split; reflexivity.
Qed.

Lemma unchanged_price_leaves_the_growth_per_share_witness :
  exists row,
    rows (snd (loop_body second_week_locals second_week)) = rows second_week ++ [row] /\
    spotReturnPercent row = Some 0%float /\
    totalLPReturnPercent row = Some (round (12 / 12 / (30 / 10) - 1) 6).
Proof.
  apply (unchanged_price_leaves_the_growth_per_share
           second_week_locals second_week
           {| current_timestamp := 1209600;
              pool_creation_data := pool_creation_data second_week_locals |}
           (snd (loop_body second_week_locals second_week))
           (PInt 200)
           {| lp_invariant := Some 12%float;
              lp_borrowed_invariant := Some 0%float;
              last_price := Some 1%float;
              total_supply := Some 30%float |}
           {| b_totalInvariant := 12;
              b_totalSupply := Some 10%float;
              b_lastPrice := Some 1%float |}
           12%float 30%float 10%float 1%float).
  - vm_compute. reflexivity.
  - vm_compute. reflexivity.
  - reflexivity.
  - vm_compute. reflexivity.
  - reflexivity.
  - reflexivity.
  - reflexivity.
  - reflexivity.
  - reflexivity.
Defined.
